(** * RepFinder: the representative resolution engine of [server.js]

    A shallow embedding of the officeholder index builder ([loadIndex]),
    of the district extractor and of the resolution join (the body of the
    [/api/rep] handler), followed by the properties checked on them.

    JavaScript values are embedded as the inductive type [JsVal]; code
    that can throw runs in the error monad [Result]; the process-wide
    [INDEX] and the console live in an explicit process state. *)

From Stdlib Require Import ZArith NArith List String Ascii Bool Lia.
From Stdlib Require Import DecimalString DecimalZ.
Import ListNotations.
Local Open Scope string_scope.
Local Open Scope Z_scope.

(* ================================================================= *)
(** ** The JavaScript value layer *)

Module Js.

(** Numbers.  The roster and the geography responses carry integral
    numbers; [Num z] is the double whose value is the integer [z],
    [Infinity] is what an integer beyond the range of doubles is read
    as, and [NaN] is what [parseInt] gives on a text without digits and
    an invalid [Date] for its time.  Fractions are not modelled. *)
Inductive JsNum : Type :=
| NaN
| Num (z : Z)
| Infinity (negative : bool).

(** Values as [yaml.load] and [JSON.parse] build them.  An object is the
    list of its own properties in enumeration order ([Object.keys]),
    with distinct names; what an object inherits from
    [Object.prototype] is [Object_prototype] below.  Dates are the
    quoted texts of the roster file. *)
#[warnings="-register-all"]
Inductive JsVal : Type :=
| VUndef
| VNull
| VBool (b : bool)
| VNum (n : JsNum)
| VStr (s : string)
| VArr (xs : list JsVal)
| VObj (fs : list (string * JsVal)).

(** A completed evaluation, or a thrown exception with its text. *)
Inductive Result (A : Type) : Type :=
| Ok (a : A)
| Throw (err : string).
Arguments Ok {A} a.
Arguments Throw {A} err.

Definition bind {A B} (m : Result A) (k : A -> Result B) : Result B :=
  match m with
  | Ok a => k a
  | Throw e => Throw e
  end.

Notation "x <- m ;; k" := (bind m (fun x => k))
  (at level 61, m at next level, right associativity).

(** [for (const x of l) s = f(s, x)], stopping at the first throw. *)
Fixpoint foldM {S A} (f : S -> A -> Result S) (l : list A) (s : S) : Result S :=
  match l with
  | [] => Ok s
  | x :: rest => s' <- f s x ;; foldM f rest s'
  end.

(** [l.map(f)] for an [f] that may throw, elements in order. *)
Fixpoint mapM {A B} (f : A -> Result B) (l : list A) : Result (list B) :=
  match l with
  | [] => Ok []
  | x :: rest => y <- f x ;; ys <- mapM f rest ;; Ok (y :: ys)
  end.

(* ----------------------------------------------------------------- *)
(** *** Characters and strings

    A string is its sequence of code units; the model covers code units
    below 256. *)

Definition code (c : ascii) : N := N_of_ascii c.

(** [\d] *)
Definition isDigit (c : ascii) : bool :=
  ((48 <=? code c) && (code c <=? 57))%N.

Definition digitVal (c : ascii) : Z := Z.of_N (code c) - 48.

(** [\s], and the white space [parseInt] strips: TAB, LF, VT, FF, CR,
    SP and NBSP are the ones below 256. *)
Definition isSpace (c : ascii) : bool :=
  ((9 <=? code c) && (code c <=? 13) || (code c =? 32) || (code c =? 160))%N.

(** Case folding of the [/i] flag as far as a pattern of ASCII letters
    can see it: only A-Z fold onto a-z (a code unit of 128 or more never
    canonicalizes to an ASCII letter). *)
Definition foldCase (c : ascii) : ascii :=
  if ((65 <=? code c) && (code c <=? 90))%N then ascii_of_N (code c + 32) else c.

(** [String.prototype.toLowerCase] on one code unit: A-Z, and the
    Latin-1 capitals U+00C0..U+00DE except the multiplication sign. *)
Definition lowerChar (c : ascii) : ascii :=
  if ((65 <=? code c) && (code c <=? 90))%N then ascii_of_N (code c + 32)
  else if ((192 <=? code c) && (code c <=? 222) && negb (code c =? 215))%N
       then ascii_of_N (code c + 32)
       else c.

Fixpoint toLowerCase (s : string) : string :=
  match s with
  | EmptyString => EmptyString
  | String c r => String (lowerChar c) (toLowerCase r)
  end.

(** [s.includes(sub)] *)
Fixpoint includes (s sub : string) : bool :=
  prefix sub s ||
  match s with
  | EmptyString => false
  | String _ r => includes r sub
  end.

(** The literal [pat] (lower-case ASCII letters) matches at the start
    of [s] under [/i]. *)
Fixpoint prefix_ci (pat s : string) : bool :=
  match pat, s with
  | EmptyString, _ => true
  | String p pr, String c r => Ascii.eqb p (foldCase c) && prefix_ci pr r
  | String _ _, EmptyString => false
  end.

(** [/pat/i.test(s)] for a literal [pat]. *)
Fixpoint test_ci (pat s : string) : bool :=
  prefix_ci pat s ||
  match s with
  | EmptyString => false
  | String _ r => test_ci pat r
  end.

(** The longest prefix of [s] made of characters in [p], and the rest. *)
Fixpoint span (p : ascii -> bool) (s : string) : string * string :=
  match s with
  | EmptyString => (EmptyString, EmptyString)
  | String c r =>
      if p c then let '(a, b) := span p r in (String c a, b)
      else (EmptyString, s)
  end.

Fixpoint allChars (p : ascii -> bool) (s : string) : bool :=
  match s with
  | EmptyString => true
  | String c r => p c && allChars p r
  end.

Definition isEmpty (s : string) : bool :=
  match s with
  | EmptyString => true
  | String _ _ => false
  end.

(** [s.match(/\d+/)]: [m[0]] of the leftmost match, the whole run of
    digits that starts at the first digit. *)
Fixpoint match_digits (s : string) : option string :=
  match s with
  | EmptyString => None
  | String c r => if isDigit c then Some (fst (span isDigit s)) else match_digits r
  end.

(** [\d+\s*$] anchored at the start of [s]: the digits it captures.
    [\d+] is greedy and a shorter run would leave a digit in front of
    [\s*$], so only the whole run can match. *)
Definition digits_then_end (s : string) : option string :=
  let '(ds, rest) := span isDigit s in
  if negb (isEmpty ds) && allChars isSpace rest then Some ds else None.

(** [s.match(/(\d+)\s*$/)]: [m[1]] of the leftmost match. *)
Fixpoint match_trailing_digits (s : string) : option string :=
  match digits_then_end s with
  | Some ds => Some ds
  | None =>
      match s with
      | EmptyString => None
      | String _ r => match_trailing_digits r
      end
  end.

(** [[-\s]*large] under [/i] at the start of [s]. *)
Fixpoint sep_then_large (s : string) : bool :=
  prefix_ci "large" s ||
  match s with
  | EmptyString => false
  | String c r => (Ascii.eqb c "-" || isSpace c) && sep_then_large r
  end.

(** [/at[-\s]*large/i.test(s)] *)
Fixpoint test_at_large (s : string) : bool :=
  match s with
  | EmptyString => false
  | String c r =>
      (prefix_ci "at" s &&
       match r with
       | String _ r2 => sep_then_large r2
       | EmptyString => false
       end)
      || test_at_large r
  end.

(** [/^CD\d{1,3}$/i.test(k)] *)
Definition test_cd_key (k : string) : bool :=
  match k with
  | String c (String d ds) =>
      Ascii.eqb (foldCase c) "c" && Ascii.eqb (foldCase d) "d" &&
      allChars isDigit ds && (1 <=? length ds)%nat && (length ds <=? 3)%nat
  | _ => false
  end.

(** [s.slice(0, 2)] *)
Definition slice02 (s : string) : string :=
  match s with
  | String a (String b _) => String a (String b EmptyString)
  | _ => s
  end.

(** [s.padStart(2, '0')] *)
Definition padStart2 (s : string) : string :=
  match s with
  | EmptyString => "00"
  | String a EmptyString => String "0" s
  | _ => s
  end.

(** [s.split('-')] *)
Fixpoint split_dash (s : string) : list string :=
  match s with
  | EmptyString => [EmptyString]
  | String c r =>
      if Ascii.eqb c "-" then EmptyString :: split_dash r
      else match split_dash r with
           | piece :: more => String c piece :: more
           | [] => [String c EmptyString]
           end
  end.

(* ----------------------------------------------------------------- *)
(** *** Numbers *)

(** The value of a run of decimal digits, most significant first. *)
Fixpoint digitsValue (acc : Z) (ds : string) : Z :=
  match ds with
  | EmptyString => acc
  | String c r => digitsValue (10 * acc + digitVal c) r
  end.

Fixpoint trimStart (s : string) : string :=
  match s with
  | EmptyString => EmptyString
  | String c r => if isSpace c then trimStart r else s
  end.

(** 2^53: below it every integer is a double of its own. *)
Definition two53 : Z := 9007199254740992.

(** The double an integer [z >= 0] is read as: [z] itself below 2^53,
    and from there on the nearest number with 53 significant bits, the
    one with an even last bit when two are as near; what rounds to
    2^1024 or more is [Infinity]. *)
Definition roundDouble (z : Z) : JsNum :=
  if z <? two53 then Num z
  else
    let e := Z.log2 z - 52 in
    let q := Z.shiftr z e in
    let r := z - Z.shiftl q e in
    let half := Z.shiftl 1 (e - 1) in
    let q' := if r <? half then q
              else if half <? r then q + 1
              else if Z.even q then q else q + 1 in
    if Z.shiftl q' e <? Z.shiftl 1 1024 then Num (Z.shiftl q' e) else Infinity false.

Definition negate (n : JsNum) : JsNum :=
  match n with
  | NaN => NaN
  | Num z => Num (- z)
  | Infinity negative => Infinity (negb negative)
  end.

(** [parseInt(s, 10)] on a string: white space, a sign, then the run of
    digits, read as V8 reads it, rounded once from its exact value. *)
Definition parseInt (s : string) : JsNum :=
  let t := trimStart s in
  let '(neg, body) :=
    match t with
    | String c r =>
        if Ascii.eqb c "-" then (true, r)
        else if Ascii.eqb c "+" then (false, r)
        else (false, t)
    | EmptyString => (false, t)
    end in
  let ds := fst (span isDigit body) in
  if isEmpty ds then NaN
  else if neg then negate (roundDouble (digitsValue 0 ds))
       else roundDouble (digitsValue 0 ds).

(** The decimal digits of an integer, with its sign. *)
Definition decimal (z : Z) : string := NilZero.string_of_int (Z.to_int z).

Definition digitCount (x : Z) : Z := Z.of_nat (String.length (decimal x)).

(** The integer [v] is read as the double [x]. *)
Definition readsAs (x v : Z) : bool :=
  match roundDouble v with
  | Num y => y =? x
  | _ => false
  end.

(** The pairs [(s, n)] with [s] of [k] digits for which [s * 10^(n-k)]
    is read as [x]: when there is one, one of the two multiples of
    [10^(n-k)] around [x] is, for [n] the number of digits of [x] or
    one more. *)
Definition withDigits (x k : Z) : list (Z * Z) :=
  flat_map
    (fun n =>
       if n <? k then []
       else filter (fun sn => (10 ^ (k - 1) <=? fst sn) && (fst sn <? 10 ^ k)
                              && readsAs x (fst sn * 10 ^ (n - k)))
                   [(x / 10 ^ (n - k), n); (x / 10 ^ (n - k) + 1, n)])
    [digitCount x; digitCount x + 1].

Definition distance (x k : Z) (sn : Z * Z) : Z :=
  Z.abs (fst sn * 10 ^ (snd sn - k) - x).

(** The pair nearest to [x], the one with an even [s] of two that are
    as near. *)
Definition nearest (x k : Z) (pairs : list (Z * Z)) : option (Z * Z) :=
  match pairs with
  | [] => None
  | first :: rest =>
      Some (fold_left
              (fun best cur =>
                 if distance x k cur <? distance x k best then cur
                 else if (distance x k cur =? distance x k best)
                         && Z.even (fst cur) && negb (Z.even (fst best))
                      then cur else best)
              rest first)
  end.

(** The digits [String] prints for a double [x >= 2^53]: [(s, n, k)]
    with [k] as small as possible such that [s * 10^(n-k)] is read as
    [x]; seventeen digits always do. *)
Fixpoint shortest (x k : Z) (tries : nat) : Z * Z * Z :=
  match tries with
  | O => (x, digitCount x, digitCount x)
  | S tries' =>
      match nearest x k (withDigits x k) with
      | Some (s, n) => (s, n, k)
      | None => shortest x (k + 1) tries'
      end
  end.

Fixpoint zeros (n : nat) : string :=
  match n with
  | O => EmptyString
  | S n' => String "0" (zeros n')
  end.

(** [String(x)] for a double [x >= 2^53]: the digits and zeros up to
    21 digits, the exponent form beyond. *)
Definition bigText (x : Z) : string :=
  let '(s, n, k) := shortest x 1 17 in
  if n <=? 21 then decimal s ++ zeros (Z.to_nat (n - k))
  else match decimal s with
       | String c (String _ _ as more) =>
           String c ("." ++ more) ++ "e+" ++ decimal (n - 1)
       | digit => digit ++ "e+" ++ decimal (n - 1)
       end.

(** [String(n)] on a number. *)
Definition NumToString (n : JsNum) : string :=
  match n with
  | NaN => "NaN"
  | Infinity negative => if negative then "-Infinity" else "Infinity"
  | Num z =>
      if Z.abs z <? two53 then decimal z
      else if z <? 0 then "-" ++ bigText (- z) else bigText z
  end.

(** [a > b], [a <= b], [a >= b] on numbers: false as soon as one side
    is [NaN]. *)
Definition gt (a b : JsNum) : bool :=
  match a, b with
  | Num x, Num y => y <? x
  | Infinity false, Num _ => true
  | Num _, Infinity true => true
  | Infinity false, Infinity true => true
  | _, _ => false
  end.

Definition le (a b : JsNum) : bool :=
  match a, b with
  | Num x, Num y => x <=? y
  | Infinity true, Num _ => true
  | Num _, Infinity false => true
  | Infinity true, Infinity _ => true
  | Infinity false, Infinity false => true
  | _, _ => false
  end.

Definition ge (a b : JsNum) : bool := le b a.

(* ----------------------------------------------------------------- *)
(** *** Values *)

Fixpoint assoc {A} (k : string) (l : list (string * A)) : option A :=
  match l with
  | [] => None
  | (k', v) :: rest => if String.eqb k k' then Some v else assoc k rest
  end.

Definition noPrimitive : string :=
  "TypeError: Cannot convert object to primitive value".

(** [String(v)], also the conversion of a template literal, of [+] with
    a string, and of the argument of [parseInt], of [RegExp.test] and
    of [new Date].  An array is joined by commas, element by element.
    An object is printed by the [toString] it inherits; an own property
    [toString] hides that one and, being data, cannot be called, so the
    conversion throws. *)
Fixpoint ToString (v : JsVal) : Result string :=
  match v with
  | VUndef => Ok "undefined"
  | VNull => Ok "null"
  | VBool true => Ok "true"
  | VBool false => Ok "false"
  | VNum n => Ok (NumToString n)
  | VStr s => Ok s
  | VArr xs =>
      (fix join (l : list JsVal) : Result string :=
         match l with
         | [] => Ok ""
         | x :: rest =>
             here <- match x with
                     | VUndef | VNull => Ok ""
                     | _ => ToString x
                     end ;;
             match rest with
             | [] => Ok here
             | _ :: _ => more <- join rest ;; Ok (here ++ "," ++ more)
             end
         end) xs
  | VObj fs =>
      match assoc "toString" fs with
      | Some _ => Throw noPrimitive
      | None => Ok "[object Object]"
      end
  end.

(** Truthiness: what [if (v)], [!v], [a || b] and [a && b] look at. *)
Definition truthy (v : JsVal) : bool :=
  match v with
  | VUndef | VNull => false
  | VBool b => b
  | VNum NaN => false
  | VNum (Num z) => negb (z =? 0)
  | VNum (Infinity _) => true
  | VStr s => negb (isEmpty s)
  | VArr _ | VObj _ => true
  end.

Definition nullish (v : JsVal) : bool :=
  match v with
  | VUndef | VNull => true
  | _ => false
  end.

(** [l] with [k] bound to [v]: in place when [k] is there, at the end
    when it is new, as an assignment [o[k] = v] orders the keys. *)
Fixpoint assign {A} (k : string) (v : A) (l : list (string * A)) : list (string * A) :=
  match l with
  | [] => [(k, v)]
  | (k', v') :: rest =>
      if String.eqb k k' then (k', v) :: rest else (k', v') :: assign k v rest
  end.

Fixpoint indexed (i : nat) (xs : list JsVal) : list (string * JsVal) :=
  match xs with
  | [] => []
  | x :: rest => (decimal (Z.of_nat i), x) :: indexed (S i) rest
  end.

Fixpoint chars (s : string) : list JsVal :=
  match s with
  | EmptyString => []
  | String c r => VStr (String c EmptyString) :: chars r
  end.

(** The own enumerable properties of a value that is neither [null]
    nor [undefined], in the order of [Object.keys]. *)
Definition own_props (v : JsVal) : list (string * JsVal) :=
  match v with
  | VObj fs => fs
  | VArr xs => indexed 0 xs
  | VStr s => indexed 0 (chars s)
  | _ => []
  end.

(** [Object.keys(v)] *)
Definition Object_keys (v : JsVal) : Result (list string) :=
  if nullish v then Throw "TypeError: Cannot convert undefined or null to object"
  else Ok (map fst (own_props v)).

Definition cannotRead (v : JsVal) (k : string) : string :=
  "TypeError: Cannot read properties of "
  ++ match v with VNull => "null" | _ => "undefined" end
  ++ " (reading '" ++ k ++ "')".

(** [v[k]] and [v.k] for a name [k] that no prototype defines: the
    builder and the handler read fixed names of the roster and of the
    responses, none of them a member of [Object.prototype],
    [Array.prototype] or [String.prototype] but [length], and keys
    taken from [Object.keys].  The two lookups by a computed name,
    [FIPS_TO_STATE[stateFips]] and [INDEX[k]], are [stateOfFips] and
    [entryAt] below. *)
Definition get (v : JsVal) (k : string) : Result JsVal :=
  if nullish v then Throw (cannotRead v k)
  else Ok match assoc k (own_props v) with
          | Some x => x
          | None =>
              if String.eqb k "length" then
                match v with
                | VArr xs => VNum (Num (Z.of_nat (List.length xs)))
                | VStr s => VNum (Num (Z.of_nat (String.length s)))
                | _ => VUndef
                end
              else VUndef
          end.

(** [v?.k] *)
Definition get_opt (v : JsVal) (k : string) : JsVal :=
  match get v k with
  | Ok x => x
  | Throw _ => VUndef
  end.

(** The items [for (const x of v)] visits; [what] is the expression
    iterated, which the error names. *)
Definition iter (what : string) (v : JsVal) : Result (list JsVal) :=
  match v with
  | VArr xs => Ok xs
  | VStr s => Ok (chars s)
  | _ => Throw ("TypeError: " ++ what ++ " is not iterable")
  end.

(** [typeof v === 'object'] *)
Definition typeof_object (v : JsVal) : bool :=
  match v with
  | VNull | VArr _ | VObj _ => true
  | _ => false
  end.

(** [a === b] against a string or a number literal. *)
Definition is_str (v : JsVal) (s : string) : bool :=
  match v with
  | VStr s' => String.eqb s' s
  | _ => false
  end.

Definition is_num (v : JsVal) (z : Z) : bool :=
  match v with
  | VNum (Num z') => z' =? z
  | _ => false
  end.

(** What an object literal inherits: the built-in functions of
    [Object.prototype], each under its property name and with the name
    of the function, and [__proto__], which is [Object.prototype]
    itself. *)
Inductive Member : Type :=
| BuiltIn (name : string)
| Prototype.

Definition Object_prototype : list (string * Member) :=
  [("constructor", BuiltIn "Object");
   ("__defineGetter__", BuiltIn "__defineGetter__");
   ("__defineSetter__", BuiltIn "__defineSetter__");
   ("hasOwnProperty", BuiltIn "hasOwnProperty");
   ("__lookupGetter__", BuiltIn "__lookupGetter__");
   ("__lookupSetter__", BuiltIn "__lookupSetter__");
   ("isPrototypeOf", BuiltIn "isPrototypeOf");
   ("propertyIsEnumerable", BuiltIn "propertyIsEnumerable");
   ("toString", BuiltIn "toString");
   ("valueOf", BuiltIn "valueOf");
   ("__proto__", Prototype);
   ("toLocaleString", BuiltIn "toLocaleString")].

(** The text a template literal gives for an inherited member, which
    is truthy: the source V8 prints for a built-in function. *)
Definition memberText (m : Member) : string :=
  match m with
  | BuiltIn name => "function " ++ name ++ "() { [native code] }"
  | Prototype => "[object Object]"
  end.

(** The properties of an inherited member as values: a function has a
    [name], and neither a function nor [Object.prototype] has one of
    the other properties the handler reads. *)
Definition memberProps (m : Member) : list (string * JsVal) :=
  match m with
  | BuiltIn name => [("name", VStr name)]
  | Prototype => []
  end.

End Js.

Import Js.

(* ================================================================= *)
(** ** One [Date.parse]

    [loadIndex] is written against the engine's [Date.parse], which the
    development keeps as a parameter.  [IsoDate.parse] is the instance
    used to run it on the sample rosters: it reads the date-only form
    [YYYY-MM-DD] of the ECMAScript date format, at UTC midnight, as the
    engine does, and takes every other text for no date; the samples
    hold date-only texts and texts that are no date for the engine
    either. *)

Module IsoDate.

Definition leap (y : Z) : bool :=
  ((y mod 4 =? 0) && negb (y mod 100 =? 0)) || (y mod 400 =? 0).

Definition daysInMonth (y m : Z) : Z :=
  if m =? 2 then (if leap y then 29 else 28)
  else if (m =? 4) || (m =? 6) || (m =? 9) || (m =? 11) then 30
  else 31.

(** Days from 1970-01-01 to the civil date [y]-[m]-[d]. *)
Definition daysFromCivil (y m d : Z) : Z :=
  let y' := if m <=? 2 then y - 1 else y in
  let era := y' / 400 in
  let yoe := y' - era * 400 in
  let doy := (153 * (if 2 <? m then m - 3 else m + 9) + 2) / 5 + d - 1 in
  let doe := yoe * 365 + yoe / 4 - yoe / 100 + doy in
  era * 146097 + doe - 719468.

Definition msPerDay : Z := 86400000.

Definition parse (s : string) : JsNum :=
  match s with
  | String y1 (String y2 (String y3 (String y4 (String "-"
      (String m1 (String m2 (String "-" (String d1 (String d2 EmptyString))))))))) =>
      if forallb isDigit [y1; y2; y3; y4; m1; m2; d1; d2] then
        let y := digitsValue 0 (String y1 (String y2 (String y3 (String y4 EmptyString)))) in
        let m := digitsValue 0 (String m1 (String m2 EmptyString)) in
        let d := digitsValue 0 (String d1 (String d2 EmptyString)) in
        if (1 <=? m) && (m <=? 12) && (1 <=? d) && (d <=? daysInMonth y m)
        then Num (daysFromCivil y m d * msPerDay)
        else NaN
      else NaN
  | _ => NaN
  end.

End IsoDate.

(* ================================================================= *)
(** ** The server *)

(** The process-wide state: the published [INDEX] (an object used as a
    map from [state-district] keys to entries) and the console. *)
Record Process : Type := {
  INDEX : list (string * JsVal);
  console : list string
}.

(** Statements that read or write the process state and may throw. *)
Definition M (A : Type) : Type := Process -> Result A * Process.

Definition bindM {A B} (m : M A) (k : A -> M B) : M B :=
  fun st =>
    match m st with
    | (Ok a, st') => k a st'
    | (Throw e, st') => (Throw e, st')
    end.

Notation "x <-- m ; k" := (bindM m (fun x => k))
  (at level 61, m at next level, right associativity).

(** A computation on local values only. *)
Definition lift {A} (r : Result A) : M A := fun st => (r, st).

(** [INDEX = idx;] *)
Definition set_INDEX (idx : list (string * JsVal)) : M unit :=
  fun st => (Ok tt, {| INDEX := idx; console := console st |}).

Definition get_INDEX : M (list (string * JsVal)) :=
  fun st => (Ok (INDEX st), st).

(** [console.log(line)] *)
Definition console_log (line : string) : M unit :=
  fun st => (Ok tt, {| INDEX := INDEX st; console := (console st ++ [line])%list |}).

(** An HTTP answer: [res.status(code).json(body)]. *)
Inductive Response : Type :=
| Status (code : Z) (body : JsVal).

(** [{ person, term: t, isCurrent, start }] *)
Record Candidate : Type := {
  person : JsVal;
  term : JsVal;
  isCurrent : bool;
  start : JsNum
}.

(** [a || b || ... || last], operands evaluated left to right until one
    is truthy. *)
Fixpoint or_chain (alts : list (Result JsVal)) (last : Result JsVal) : Result JsVal :=
  match alts with
  | [] => last
  | a :: rest => v <- a ;; if truthy v then Ok v else or_chain rest last
  end.

(** [parts.filter(Boolean).join(' ')]: [join] converts the parts that
    are left, one after the other. *)
Definition joinTruthy (parts : list JsVal) : Result string :=
  texts <- mapM ToString (filter truthy parts) ;;
  Ok (String.concat " " texts).

Definition normalizeName (person : JsVal) : Result JsVal :=
  if negb (truthy person) then Ok (VStr "")
  else
    name <- get person "name" ;;
    if truthy name && typeof_object name then
      first <- get name "first" ;;
      middle <- get name "middle" ;;
      last <- get name "last" ;;
      joined <- joinTruthy [first; middle; last] ;;
      Ok (VStr joined)
    else
      flat <- or_chain [get person "first_name"] (get person "last_name") ;;
      if truthy flat then
        first_name <- get person "first_name" ;;
        last_name <- get person "last_name" ;;
        joined <- joinTruthy [first_name; last_name] ;;
        Ok (VStr joined)
      else
        or_chain [get person "name"; get person "full_name"] (Ok (VStr "")).

(** The district of a term, from [t.district] (lines 44-50). *)
Definition normDistrict (rawDistrict : JsVal) : Result string :=
  let districtRaw :=
    match rawDistrict with
    | VStr s =>
        match match_digits s with
        | Some m0 => VStr (NumToString (parseInt m0))
        | None => rawDistrict
        end
    | _ => rawDistrict
    end in
  district <- (if truthy districtRaw
               then d <- ToString districtRaw ;; Ok (Some d)
               else Ok None) ;;
  match district with
  | None => Ok "1"
  | Some d =>
      if isEmpty d || (d =? "0")%string then Ok "1"
      else
        again <- ToString districtRaw ;;
        Ok (if test_at_large again then "1" else d)
  end.

(** [best.start || 0] *)
Definition orZero (n : JsNum) : JsNum :=
  if truthy (VNum n) then n else Num 0.

(** The candidate that wins a key (lines 65-66); [None] is
    [undefined]. *)
Definition choose (arr : list Candidate) : option Candidate :=
  match find isCurrent arr with
  | Some c => Some c
  | None =>
      match arr with
      | [] => None
      | a0 :: _ =>
          Some (fold_left
                  (fun best cur => if gt (start cur) (orZero (start best)) then cur else best)
                  arr a0)
      end
  end.

(** [if (!map[key]) map[key] = []; map[key].push(candidate);] for a
    key of line 55, which holds a hyphen and so is no name of an
    inherited member. *)
Definition push (key : string) (c : Candidate) (byKey : list (string * list Candidate))
  : list (string * list Candidate) :=
  match assoc key byKey with
  | None => assign key [c] byKey
  | Some arr => assign key (arr ++ [c])%list byKey
  end.

(** [foundKeys.add(k)] on a [Set], kept in insertion order. *)
Definition addKey (k : string) (set : list string) : list string :=
  if existsb (String.eqb k) set then set else (set ++ [k])%list.

Definition FIPS_TO_STATE : list (string * string) :=
  [("01","AL"); ("02","AK"); ("04","AZ"); ("05","AR"); ("06","CA"); ("08","CO");
   ("09","CT"); ("10","DE"); ("11","DC"); ("12","FL"); ("13","GA"); ("15","HI");
   ("16","ID"); ("17","IL"); ("18","IN"); ("19","IA"); ("20","KS"); ("21","KY");
   ("22","LA"); ("23","ME"); ("24","MD"); ("25","MA"); ("26","MI"); ("27","MN");
   ("28","MS"); ("29","MO"); ("30","MT"); ("31","NE"); ("32","NV"); ("33","NH");
   ("34","NJ"); ("35","NM"); ("36","NY"); ("37","NC"); ("38","ND"); ("39","OH");
   ("40","OK"); ("41","OR"); ("42","PA"); ("44","RI"); ("45","SC"); ("46","SD");
   ("47","TN"); ("48","TX"); ("49","UT"); ("50","VT"); ("51","VA"); ("53","WA");
   ("54","WV"); ("55","WI"); ("56","WY"); ("72","PR")].

(* ----------------------------------------------------------------- *)
(** *** The district extractor and the join ([/api/rep], lines 283-355) *)

(** [!cdArray || cdArray.length === 0] *)
Definition noDistricts (cdArray : JsVal) : Result bool :=
  if negb (truthy cdArray) then Ok true
  else len <- get cdArray "length" ;; Ok (is_num len 0).

Definition mentionsCongress (key : string) : bool :=
  includes (toLowerCase key) "congress".

(** The value the scan of lines 287-293 leaves in [cdArray]. *)
Definition scanCongress (geogs : JsVal) : Result JsVal :=
  keys <- Object_keys geogs ;;
  match find mentionsCongress keys with
  | Some key => get geogs key
  | None => Ok VNull
  end.

(** The fixed spellings of line 295. *)
Definition knownSpellings (geogs : JsVal) : Result JsVal :=
  or_chain [get geogs "Congressional Districts";
            get geogs "Congressional District";
            get geogs "CongressionalDistricts"]
           (get geogs "Congressional district").

(** [cdArray] after lines 287-296. *)
Definition locateDistricts (geogs : JsVal) : Result JsVal :=
  scanned <- scanCongress geogs ;;
  none <- noDistricts scanned ;;
  if none then knownSpellings geogs else Ok scanned.

(** Rule (a), line 306: a [CDnnn] field with a truthy value, which
    [parseInt] converts to a text first. *)
Definition ruleCD (k : string) (v : JsVal) : Result (option string) :=
  if test_cd_key k && truthy v
  then s <- ToString v ;; Ok (Some (NumToString (parseInt s)))
  else Ok None.

(** The digits at the end of a name, lines 308-309 and 313-314. *)
Definition trailingNumber (v : JsVal) : Result (option string) :=
  s <- ToString v ;;
  match match_trailing_digits s with
  | Some m1 => Ok (Some (NumToString (parseInt m1)))
  | None => Ok None
  end.

(** Rule (b), lines 307-310: a field whose name contains "name" and
    whose value mentions a district and ends in digits. *)
Definition ruleName (k : string) (v : JsVal) : Result (option string) :=
  if includes (toLowerCase k) "name" && truthy v then
    s <- ToString v ;;
    if test_ci "district" s then trailingNumber v else Ok None
  else Ok None.

(** The loop of lines 305-311 over the keys still to visit. *)
Fixpoint scanFields (cd : JsVal) (keys : list string) : Result (option string) :=
  match keys with
  | [] => Ok None
  | k :: rest =>
      v <- get cd k ;;
      a <- ruleCD k v ;;
      match a with
      | Some d => Ok (Some d)
      | None =>
          b <- ruleName k v ;;
          match b with
          | Some d => Ok (Some d)
          | None => scanFields cd rest
          end
      end
  end.

(** [!districtNum] on a value that is [null] or a string. *)
Definition unset (districtNum : option string) : bool :=
  match districtNum with
  | None => true
  | Some d => isEmpty d
  end.

(** [districtNum] after lines 304-315. *)
Definition districtNumOf (cd : JsVal) : Result (option string) :=
  keys <- Object_keys cd ;;
  districtNum <- scanFields cd keys ;;
  if unset districtNum then
    name <- get cd "NAME" ;;
    if truthy name then
      m <- trailingNumber name ;;
      match m with
      | Some d => Ok (Some d)
      | None => Ok districtNum
      end
    else Ok districtNum
  else Ok districtNum.

(** [stateFips] of lines 316-317; [None] is [null]. *)
Definition stateFipsOf (cd : JsVal) : Result (option string) :=
  stateFipsRaw <-
    or_chain [get cd "STATE"; get cd "STATEFP"]
             (geoid <- get cd "GEOID" ;;
              if truthy geoid then s <- ToString geoid ;; Ok (VStr (slice02 s))
              else Ok geoid) ;;
  if truthy stateFipsRaw then s <- ToString stateFipsRaw ;; Ok (Some (padStart2 s))
  else Ok None.

(** [state] of line 318, [FIPS_TO_STATE[stateFips] || null], as the
    text line 321 prints for it; [None] is [null].  The lookup finds
    the postal code of a code of the table and, for a name that is no
    code of the table, the member of that name which the table inherits
    as every object literal does. *)
Definition stateOfFips (stateFips : option string) : option string :=
  match stateFips with
  | Some fips =>
      if isEmpty fips then None
      else match assoc fips FIPS_TO_STATE with
           | Some st => if isEmpty st then None else Some st
           | None =>
               match assoc fips Object_prototype with
               | Some member => Some (memberText member)
               | None => None
               end
           end
  | None => None
  end.

(** Line 320. *)
Definition atLargeDefault (districtNum : option string) : string :=
  match districtNum with
  | None => "1"
  | Some d => if isEmpty d || (d =? "0")%string then "1" else d
  end.

(** One turn of the loop of lines 303-322: the key this object gives,
    [None] when the object is passed over by [continue]. *)
Definition keyOf (cd : JsVal) : Result (option string) :=
  districtNum <- districtNumOf cd ;;
  stateFips <- stateFipsOf cd ;;
  match stateOfFips stateFips with
  | None => Ok None
  | Some st => Ok (Some (st ++ "-" ++ atLargeDefault districtNum))
  end.

Definition cdStep (foundKeys : list string) (cd : JsVal) : Result (list string) :=
  k <- keyOf cd ;;
  match k with
  | None => Ok foundKeys
  | Some key => Ok (addKey key foundKeys)
  end.

(** [foundKeys] after the loop of lines 302-322. *)
Definition resolveDistricts (cdArray : JsVal) : Result (list string) :=
  cds <- iter "cdArray" cdArray ;;
  foldM cdStep cds [].

(** [parts[i]] in the destructuring [[st, dnum] = k.split('-')]. *)
Definition part (i : nat) (parts : list string) : JsVal :=
  match nth_error parts i with
  | Some p => VStr p
  | None => VUndef
  end.

(** [INDEX[k]]: the entry filed under [k], else the member of that
    name which the index inherits, as far as the join reads it, else
    [undefined]. *)
Definition entryAt (index : list (string * JsVal)) (k : string) : JsVal :=
  match assoc k index with
  | Some rep => rep
  | None =>
      match assoc k Object_prototype with
      | Some member => VObj (memberProps member)
      | None => VUndef
      end
  end.

(** One turn of the loop of lines 328-353: the record pushed for [k]. *)
Definition resolveOne (index : list (string * JsVal)) (k : string) : Result JsVal :=
  let rep := entryAt index k in
  let parts := split_dash k in
  let st := part 0 parts in
  let dnum := part 1 parts in
  if truthy rep then
    bioguide <- get rep "bioguide" ;;
    photo <- (if truthy bioguide
              then s <- ToString bioguide ;;
                   Ok (VStr ("https://bioguide.congress.gov/photo/" ++ s ++ ".jpg"))
              else Ok VNull) ;;
    name <- get rep "name" ;;
    party <- get rep "party" ;;
    phone <- get rep "phone" ;;
    url <- get rep "url" ;;
    bioguide' <- get rep "bioguide" ;;
    raw_person <- get rep "raw_person" ;;
    raw_term <- get rep "raw_term" ;;
    Ok (VObj [("state", st); ("district", dnum); ("name", name); ("party", party);
              ("phone", phone); ("url", url); ("bioguide", bioguide');
              ("photo", photo); ("raw_person", raw_person); ("raw_term", raw_term)])
  else
    Ok (VObj [("state", st); ("district", dnum); ("name", VNull); ("missing", VBool true)]).

(** [reps] after the loop: one record per key, in the order of the set. *)
Fixpoint resolveRepresentatives (index : list (string * JsVal)) (keys : list string)
  : Result (list JsVal) :=
  match keys with
  | [] => Ok []
  | k :: rest =>
      r <- resolveOne index k ;;
      rs <- resolveRepresentatives index rest ;;
      Ok (r :: rs)
  end.

Definition errorBody (msg : string) : JsVal := VObj [("error", VStr msg)].

(** The handler from the geography response on (lines 283-360); [zip]
    and [centroid] are what the first half of the handler obtained. *)
Definition apiRep (index : list (string * JsVal)) (zip : string) (centroid geoJson : JsVal)
  : Response :=
  let attempt : Result Response :=
    geogs <- or_chain [Ok (get_opt (get_opt geoJson "result") "geographies");
                       Ok (get_opt geoJson "geographies")]
                      (Ok (get_opt geoJson "result")) ;;
    if negb (truthy geogs) then Ok (Status 404 (errorBody "Census geographies missing"))
    else
      cdArray <- locateDistricts geogs ;;
      none <- noDistricts cdArray ;;
      if none then
        Ok (Status 404
              (errorBody "No Congressional Districts returned by Census for ZIP centroid"))
      else
        foundKeys <- resolveDistricts cdArray ;;
        if (List.length foundKeys =? 0)%nat then
          Ok (Status 404
                (VObj [("error", VStr "No congressional districts found for ZIP centroid");
                       ("zip", VStr zip)]))
        else
          reps <- resolveRepresentatives index foundKeys ;;
          Ok (Status 200
                (VObj [("zip", VStr zip); ("centroid", centroid);
                       ("districts", VArr (map VStr foundKeys));
                       ("representatives", VArr reps)]))
  in
  match attempt with
  | Ok response => response
  | Throw err =>
      Status 500 (VObj [("error", VStr "Lookup failed"); ("details", VStr err)])
  end.

(* ----------------------------------------------------------------- *)
(** *** The index builder ([loadIndex], lines 34-80) *)

Section Roster.

(** [Date.parse] of the engine: the time value of a date text, [NaN]
    when the text is no date. *)
Variable Date_parse : string -> JsNum.

(** [yaml.load] *)
Variable yaml_load : string -> Result JsVal.

(** [LEG_FILE], the path of the roster file. *)
Variable LEG_FILE : string.

(** The time value of [new Date(n)] for a number. *)
Definition TimeClip (n : JsNum) : JsNum :=
  match n with
  | NaN => NaN
  | Num z => if Z.abs z <=? 8640000000000000 then Num z else NaN
  | Infinity _ => NaN
  end.

(** The time value of [new Date(v)]; an array or an object is
    converted to a text first. *)
Definition new_Date (v : JsVal) : Result JsNum :=
  match v with
  | VUndef => Ok NaN
  | VNull => Ok (Num 0)
  | VBool b => Ok (Num (if b then 1 else 0))
  | VNum n => Ok (TimeClip n)
  | VStr s => Ok (Date_parse s)
  | VArr _ | VObj _ => s <- ToString v ;; Ok (Date_parse s)
  end.

(** [t.start ? new Date(t.start) : null], as a time value. *)
Definition dateOf (field : JsVal) : Result (option JsNum) :=
  if truthy field then d <- new_Date field ;; Ok (Some d) else Ok None.

(** [(!start || start <= today) && (!end || end >= today)] *)
Definition currentAt (today : Z) (start_ end_ : option JsNum) : bool :=
  match start_ with None => true | Some s => le s (Num today) end &&
  match end_ with None => true | Some e => ge e (Num today) end.

(** The body of the inner loop, lines 43-56: the key and the candidate
    of one House term. *)
Definition termCandidate (today : Z) (person t : JsVal) : Result (string * Candidate) :=
  state <- get t "state" ;;
  rawDistrict <- get t "district" ;;
  district <- normDistrict rawDistrict ;;
  tstart <- get t "start" ;;
  start_ <- dateOf tstart ;;
  tend <- get t "end" ;;
  end_ <- dateOf tend ;;
  st <- ToString state ;;
  let key := st ++ "-" ++ district in
  Ok (key, {| person := person; term := t;
              isCurrent := currentAt today start_ end_;
              start := match start_ with Some s => s | None => Num 0 end |}).

(** [tt => tt.type === 'rep'] *)
Definition isRep (tt : JsVal) : Result bool :=
  ty <- get tt "type" ;; Ok (is_str ty "rep").

Fixpoint filterM (p : JsVal -> Result bool) (l : list JsVal) : Result (list JsVal) :=
  match l with
  | [] => Ok []
  | x :: rest =>
      keep <- p x ;;
      kept <- filterM p rest ;;
      Ok (if keep then x :: kept else kept)
  end.

(** [(person.terms || []).filter(tt => tt.type === 'rep')] *)
Definition repTerms (person : JsVal) : Result (list JsVal) :=
  terms <- or_chain [get person "terms"] (Ok (VArr [])) ;;
  match terms with
  | VArr ts => filterM isRep ts
  | _ => Throw "TypeError: terms.filter is not a function"
  end.

Definition termStep (today : Z) (person : JsVal)
    (byKey : list (string * list Candidate)) (t : JsVal)
  : Result (list (string * list Candidate)) :=
  kc <- termCandidate today person t ;;
  Ok (push (fst kc) (snd kc) byKey).

Definition personStep (today : Z) (byKey : list (string * list Candidate)) (person : JsVal)
  : Result (list (string * list Candidate)) :=
  ts <- repTerms person ;;
  foldM (termStep today person) ts byKey.

(** [map] after the loop of lines 40-60. *)
Definition collect (today : Z) (docs : JsVal) : Result (list (string * list Candidate)) :=
  persons <- iter "docs" docs ;;
  foldM (personStep today) persons [].

(** The entry of lines 68-76. *)
Definition entryOf (chosen : Candidate) : Result JsVal :=
  let p := person chosen in
  let t := term chosen in
  name <- normalizeName p ;;
  party <- or_chain [get t "party"; get p "party"] (Ok (VStr "")) ;;
  phone <- or_chain [or_chain [get t "phone"; get p "phone"] (Ok (VStr ""))]
                    (Ok (VStr "")) ;;
  url <- or_chain [or_chain [get t "url"; get p "url"; get p "website"] (Ok (VStr ""))]
                  (Ok (VStr "")) ;;
  bioguide <- or_chain [id <- get p "id" ;;
                        if truthy id then get id "bioguide" else Ok id]
                       (Ok VNull) ;;
  Ok (VObj [("name", name); ("party", party); ("phone", phone); ("url", url);
            ("bioguide", bioguide); ("raw_person", p); ("raw_term", t)]).

(** One turn of the loop of lines 63-77. *)
Definition keyStep (byKey : list (string * list Candidate))
    (outIndex : list (string * JsVal)) (key : string)
  : Result (list (string * JsVal)) :=
  match assoc key byKey with
  | None => Throw "TypeError: Cannot read properties of undefined (reading 'find')"
  | Some arr =>
      match choose arr with
      | None => Throw "TypeError: Cannot read properties of undefined (reading 'person')"
      | Some chosen =>
          entry <- entryOf chosen ;;
          Ok (assign key entry outIndex)
      end
  end.

(** [outIndex] after the loop of lines 62-77. *)
Definition materialize (byKey : list (string * list Candidate))
  : Result (list (string * JsVal)) :=
  foldM (keyStep byKey) (map fst byKey) [].

(** Lines 37-77: the index of a parsed roster. *)
Definition buildIndex (today : Z) (docs : JsVal) : Result (list (string * JsVal)) :=
  byKey <- collect today docs ;;
  materialize byKey.

(** [loadIndex()]: [file] is what [fs.readFileSync(LEG_FILE, 'utf8')]
    gives at this call and [today] the time value of [new Date()]. *)
Definition loadIndex (file : Result string) (today : Z) : M unit :=
  raw <-- lift file ;
  docs <-- lift (yaml_load raw) ;
  byKey <-- lift (collect today docs) ;
  outIndex <-- lift (materialize byKey) ;
  _ <-- set_INDEX outIndex ;
  index <-- get_INDEX ;
  console_log ("Indexed " ++ NumToString (Num (Z.of_nat (List.length index)))
               ++ " state/district entries from " ++ LEG_FILE).

(** The [/admin/reload] handler, lines 364-367. *)
Definition adminReload (file : Result string) (today : Z) (st : Process)
  : Response * Process :=
  match loadIndex file today st with
  | (Ok _, st') =>
      (Status 200 (VObj [("ok", VBool true);
                         ("entries", VNum (Num (Z.of_nat (List.length (INDEX st')))))]),
       st')
  | (Throw err, st') => (Status 500 (errorBody err), st')
  end.

End Roster.

(* ----------------------------------------------------------------- *)
(** *** The first half of [/api/rep] (lines 256-282) *)

(** [s.trimEnd()] and [s.trim()]; the white space is that of [\s]. *)
Fixpoint trimEnd (s : string) : string :=
  match s with
  | EmptyString => EmptyString
  | String c r =>
      match trimEnd r with
      | EmptyString => if isSpace c then EmptyString else String c EmptyString
      | String _ _ as rest => String c rest
      end
  end.

Definition trim (s : string) : string := trimEnd (trimStart s).

(** [/^\d{5}$/.test(s)] *)
Definition test_zip5 (s : string) : bool :=
  (String.length s =? 5)%nat && allChars isDigit s.

(** What [await fetch(url)] resolves to, as far as the handler reads
    it; [json] is the outcome of [await resp.json()]. *)
Record FetchResponse : Type := {
  ok : bool;
  status : Z;
  statusText : string;
  json : Result JsVal
}.

(** A double quote, as a text. *)
Definition dquote : string := String "034" EmptyString.

(** [(req.query.zip || '').trim()]; a query parameter is a text, a
    list when the parameter is repeated, a record for [zip[k]=v], or
    absent. *)
Definition zipQueryOf (zipParam : JsVal) : Result string :=
  match (if truthy zipParam then zipParam else VStr "") with
  | VStr s => Ok (trim s)
  | _ => Throw ("TypeError: (req.query.zip || " ++ dquote ++ dquote
                ++ ").trim is not a function")
  end.

(** [(zipJson.places && zipJson.places[0]) || null] *)
Definition placeOf (zipJson : JsVal) : Result JsVal :=
  or_chain [places <- get zipJson "places" ;;
            if truthy places then get places "0" else Ok places]
           (Ok VNull).

(** [!place || !place.latitude || !place.longitude] *)
Definition noCoordinates (place : JsVal) : Result bool :=
  if negb (truthy place) then Ok true
  else
    latitude <- get place "latitude" ;;
    if negb (truthy latitude) then Ok true
    else longitude <- get place "longitude" ;; Ok (negb (truthy longitude)).

Definition lookupFailed (err : string) : Response :=
  Status 500 (VObj [("error", VStr "Lookup failed"); ("details", VStr err)]).

Section Services.

(** [fetch] of node-fetch: the response for a URL, or a thrown network
    error. *)
Variable fetch : string -> Result FetchResponse.

(** [parseFloat] on the text of a coordinate, and [encodeURIComponent]
    on the number it gives: the coordinates are fractional numbers and
    stay opaque. *)
Variable parseFloat : string -> JsVal.
Variable encodeURIComponent : JsVal -> string.

(** The [try] block of the handler, lines 262-355. *)
Definition lookup (index : list (string * JsVal)) (zip : string) : Result Response :=
  zipResp <- fetch ("https://api.zippopotam.us/us/" ++ zip) ;;
  if negb (ok zipResp) then
    Ok (Status 502
          (errorBody ("ZIP lookup failed: " ++ NumToString (Num (status zipResp))
                      ++ " " ++ statusText zipResp)))
  else
    zipJson <- json zipResp ;;
    place <- placeOf zipJson ;;
    none <- noCoordinates place ;;
    if none then Ok (Status 502 (errorBody "Could not get lat/lon from ZIP service"))
    else
      latitude <- get place "latitude" ;;
      latText <- ToString latitude ;;
      let lat := parseFloat latText in
      longitude <- get place "longitude" ;;
      lonText <- ToString longitude ;;
      let lon := parseFloat lonText in
      let censusCoordUrl :=
        "https://geocoding.geo.census.gov/geocoder/geographies/coordinates"
        ++ "?x=" ++ encodeURIComponent lon ++ "&y=" ++ encodeURIComponent lat
        ++ "&benchmark=Public_AR_Current&vintage=Current_Current&format=json" in
      geoResp <- fetch censusCoordUrl ;;
      if negb (ok geoResp) then
        Ok (Status 502
              (errorBody ("Census coordinates lookup failed: "
                          ++ NumToString (Num (status geoResp)))))
      else
        geoJson <- json geoResp ;;
        Ok (apiRep index zip (VObj [("lat", lat); ("lon", lon)]) geoJson).

(** The [/api/rep] handler, lines 256-361: the answer sent, or the
    exception that leaves the handler when it is thrown before the
    [try] block. *)
Definition apiRepHandler (index : list (string * JsVal)) (zipParam : JsVal)
  : Result Response :=
  zipQuery <- zipQueryOf zipParam ;;
  if isEmpty zipQuery || negb (test_zip5 zipQuery) then
    Ok (Status 400 (errorBody "zip query parameter required (5 digits)"))
  else
    Ok match lookup index zipQuery with
       | Ok response => response
       | Throw err => lookupFailed err
       end.

End Services.

(* ----------------------------------------------------------------- *)
(** *** The page script (lines 167-168) *)

(** [partyClass(p)] *)
Definition partyClass (p : JsVal) : Result string :=
  if negb (truthy p) then Ok "I"
  else
    s <- ToString p ;;
    if prefix "D" (trim s) then Ok "D"
    else
      s' <- ToString p ;;
      Ok (if prefix "R" (trim s') then "R" else "I").

(** The replacement of one character by [escapeHtml]; ["034"] is the
    double quote. *)
Definition escapeChar (c : ascii) : string :=
  if Ascii.eqb c "&" then "&amp;"
  else if Ascii.eqb c "<" then "&lt;"
  else if Ascii.eqb c ">" then "&gt;"
  else if Ascii.eqb c "034" then "&quot;"
  else if Ascii.eqb c "'" then "&#39;"
  else String c EmptyString.

Fixpoint escapeText (s : string) : string :=
  match s with
  | EmptyString => EmptyString
  | String c r => escapeChar c ++ escapeText r
  end.

(** [escapeHtml(s)] *)
Definition escapeHtml (s : JsVal) : Result string :=
  text <- ToString (if truthy s then s else VStr "") ;;
  Ok (escapeText text).

(* ----------------------------------------------------------------- *)
(** *** Start-up and the life of the process (lines 18-21, 82, 364-369) *)

(** How the script ends its top level: [process.exit(1)] after an error
    line, an uncaught exception, or the server listening. *)
Inductive Boot : Type :=
| Exited (code : Z) (errors : list string)
| Crashed (err : string)
| Listening (st : Process).

Section Life.

Variable Date_parse : string -> JsNum.
Variable yaml_load : string -> Result JsVal.
Variable LEG_FILE : string.

(** The top level of the script: [fileExists] is
    [fs.existsSync(LEG_FILE)], [PORT] the text of the port. *)
Definition startup (fileExists : bool) (file : Result string) (today : Z) (PORT : string)
  : Boot :=
  if negb fileExists then
    Exited 1 ["Missing " ++ LEG_FILE
              ++ ". Download it from the unitedstates/congress-legislators repo."]
  else
    match loadIndex Date_parse yaml_load LEG_FILE file today {| INDEX := []; console := [] |} with
    | (Throw err, _) => Crashed err
    | (Ok _, st) => Listening (snd (console_log ("Listening http://localhost:" ++ PORT) st))
    end.

(** The states in which requests are served: after start-up, and after
    each reload request, whatever it read and whenever it came. *)
Inductive Serving : Process -> Prop :=
| Serving_start fileExists file today PORT st :
    startup fileExists file today PORT = Listening st -> Serving st
| Serving_reload file today st :
    Serving st -> Serving (snd (adminReload Date_parse yaml_load LEG_FILE file today st)).

End Life.

(* ================================================================= *)
(** ** Vocabulary of the statements *)

(** The value of an own property of an object, [undefined] when the
    object has no such property. *)
Definition field (fs : list (string * JsVal)) (name : string) : JsVal :=
  match assoc name fs with
  | Some v => v
  | None => VUndef
  end.

(** An evaluation that completes. *)
Definition completes {A} (r : Result A) : Prop := exists a, r = Ok a.

(** A value that has a text: neither a mapping with an own property
    [toString], nor a list that holds a value without a text. *)
Fixpoint plain (v : JsVal) : bool :=
  match v with
  | VArr xs => forallb plain xs
  | VObj fs => match assoc "toString" fs with Some _ => false | None => true end
  | _ => true
  end.







Definition noDash (s : string) : bool :=
  allChars (fun c => negb (Ascii.eqb c "-")) s.

(** The number of hyphens of a text. *)
Fixpoint countDash (s : string) : nat :=
  match s with
  | EmptyString => O
  | String c r => if Ascii.eqb c "-" then S (countDash r) else countDash r
  end.

(** A roster entry [loadIndex] can walk: a value with properties, whose
    [terms] is falsy or an array of values with properties. *)
Definition termsOk (terms : JsVal) : bool :=
  if truthy terms then
    match terms with
    | VArr ts => forallb (fun t => negb (nullish t)) ts
    | _ => false
    end
  else true.

Definition personOk (p : JsVal) : bool :=
  negb (nullish p) && termsOk (get_opt p "terms").

(** The House terms of a roster entry. *)
Definition houseTerms (p : JsVal) : list JsVal :=
  match get_opt p "terms" with
  | VArr ts => filter (fun t => is_str (get_opt t "type") "rep") ts
  | _ => []
  end.

(** A term whose state, district, start and end have a text. *)
Definition termSound (t : JsVal) : bool :=
  plain (get_opt t "state") && plain (get_opt t "district")
  && plain (get_opt t "start") && plain (get_opt t "end").

(** The parts [normalizeName] joins: those of the [name] record when
    there is one, else the flat [first_name] and [last_name] when one
    of them is set. *)
Definition nameParts (p : JsVal) : list JsVal :=
  if truthy p then
    if truthy (get_opt p "name") && typeof_object (get_opt p "name") then
      [get_opt (get_opt p "name") "first"; get_opt (get_opt p "name") "middle";
       get_opt (get_opt p "name") "last"]
    else if truthy (get_opt p "first_name") || truthy (get_opt p "last_name") then
      [get_opt p "first_name"; get_opt p "last_name"]
    else []
  else [].

(** A roster entry [loadIndex] can walk and whose name parts and House
    terms have the texts it prints. *)
Definition personSound (p : JsVal) : bool :=
  personOk p && forallb plain (nameParts p) && forallb termSound (houseTerms p).

(** The start epoch of a candidate whose start date is absent or
    parses: a time value. *)
Definition numeric (n : JsNum) : bool :=
  match n with
  | Num _ => true
  | NaN | Infinity _ => false
  end.

(** The candidate lists of a build in progress: one list per key, none
    empty, every candidate filed under the key, and as the candidate,
    that lines 43-56 compute for its roster entry and its term. *)
Definition filed (Date_parse : string -> JsNum) (today : Z) (key : string) (c : Candidate)
  : Prop :=
  nullish (person c) = false /\
  termCandidate Date_parse today (person c) (term c) = Ok (key, c).

Definition wellFiled (Date_parse : string -> JsNum) (today : Z)
    (byKey : list (string * list Candidate)) : Prop :=
  NoDup (map fst byKey) /\
  forall key arr, assoc key byKey = Some arr ->
    arr <> [] /\ forall c, In c arr -> filed Date_parse today key c.

(** The House terms of a roster, each with its roster entry, in roster
    order; the keys and candidates lines 43-56 compute for them; those
    filed under a key; and the candidate list a key has in a build. *)
Definition houseTermsOf (persons : list JsVal) : list (JsVal * JsVal) :=
  flat_map (fun p => map (pair p) (houseTerms p)) persons.

Definition fileAll (Date_parse : string -> JsNum) (today : Z) (persons : list JsVal)
  : Result (list (string * Candidate)) :=
  mapM (fun pt => termCandidate Date_parse today (fst pt) (snd pt)) (houseTermsOf persons).

Definition filedUnder (key : string) (all : list (string * Candidate)) : list Candidate :=
  map snd (filter (fun kc => String.eqb key (fst kc)) all).

Definition candidatesAt (key : string) (byKey : list (string * list Candidate))
  : list Candidate :=
  match assoc key byKey with
  | Some arr => arr
  | None => []
  end.

(** The keys of a list in the order of their first occurrence. *)
Definition distinctKeys (keys : list string) : list string :=
  fold_left (fun acc k => addKey k acc) keys [].

(** The candidate lists hold the candidates seen so far, each under its
    key and in the order seen, and the keys in the order first seen. *)
Definition groups (byKey : list (string * list Candidate)) (seen : list (string * Candidate))
  : Prop :=
  (forall key, candidatesAt key byKey = filedUnder key seen) /\
  map fst byKey = distinctKeys (map fst seen).

Definition statusOf (r : Response) : Z :=
  match r with Status code _ => code end.

Definition bodyOf (r : Response) : JsVal :=
  match r with Status _ body => body end.

(** A two-letter postal code of the FIPS table. *)
Definition isPostal (st : string) : bool :=
  existsb (String.eqb st) (map snd FIPS_TO_STATE).

(** The text of a member that every object inherits. *)
Definition isMemberText (st : string) : bool :=
  existsb (String.eqb st) (map (fun km => memberText (snd km)) Object_prototype).

(** The placeholder of a key without an entry. *)
Definition placeholder (st d : JsVal) : JsVal :=
  VObj [("state", st); ("district", d); ("name", VNull); ("missing", VBool true)].

(** A record of the join carries a key: its state is the text before
    the first hyphen of the key, and its district the text after it
    when that holds no hyphen. *)
Definition carries (k : string) (r : JsVal) : Prop :=
  exists st d,
    k = st ++ "-" ++ d /\ noDash st = true /\
    get_opt r "state" = VStr st /\
    (noDash d = true -> get_opt r "district" = VStr d).

(** A district-geography object all of whose values have a text. *)
Definition readable (cd : JsVal) : bool :=
  match cd with
  | VObj fs => forallb (fun kv => plain (snd kv)) fs
  | _ => false
  end.

(** The characters [escapeHtml] replaces. *)
Definition isMarkup (c : ascii) : bool :=
  Ascii.eqb c "&" || Ascii.eqb c "<" || Ascii.eqb c ">" || Ascii.eqb c "034"
  || Ascii.eqb c "'".

(** [s] without the prefix [pre], when it starts with it. *)
Fixpoint dropPrefix (pre s : string) : option string :=
  match pre, s with
  | EmptyString, _ => Some s
  | String a pre', String b s' => if Ascii.eqb a b then dropPrefix pre' s' else None
  | String _ _, EmptyString => None
  end.

(** A reader of escaped text, entity by entity, that visits at most
    [fuel] characters. *)
Fixpoint unescapeText (fuel : nat) (s : string) : string :=
  match fuel with
  | O => s
  | S fuel' =>
      match dropPrefix "&amp;" s with
      | Some r => String "&" (unescapeText fuel' r)
      | None =>
      match dropPrefix "&lt;" s with
      | Some r => String "<" (unescapeText fuel' r)
      | None =>
      match dropPrefix "&gt;" s with
      | Some r => String ">" (unescapeText fuel' r)
      | None =>
      match dropPrefix "&quot;" s with
      | Some r => String "034" (unescapeText fuel' r)
      | None =>
      match dropPrefix "&#39;" s with
      | Some r => String "'" (unescapeText fuel' r)
      | None =>
      match s with
      | EmptyString => EmptyString
      | String c r => String c (unescapeText fuel' r)
      end end end end end end
  end.

(** The characters of the text of a number: digits, the sign, the
    point and the exponent mark. *)
Definition numChar (c : ascii) : bool :=
  isDigit c || Ascii.eqb c "-" || Ascii.eqb c "." || Ascii.eqb c "e" || Ascii.eqb c "+".

(* ================================================================= *)
(** ** Sample data *)

Module Samples.

Definition today : Z := 1793577600000.  (* 2026-11-02T00:00:00Z *)

Definition jane : JsVal :=
  VObj [("id", VObj [("bioguide", VStr "D000001")]);
        ("name", VObj [("first", VStr "Jane"); ("last", VStr "Doe")]);
        ("terms",
         VArr [VObj [("type", VStr "rep"); ("state", VStr "CA"); ("district", VStr "12");
                     ("start", VStr "2021-01-03"); ("party", VStr "Democrat")]])].

(** A House term without a state. *)
Definition stateless : JsVal :=
  VObj [("type", VStr "rep"); ("district", VNum (Num 5))].

(** A House term whose start date is no date. *)
Definition undated : JsVal :=
  VObj [("type", VStr "rep"); ("state", VStr "TX"); ("district", VNum (Num 7));
        ("start", VStr "not a date")].

Definition malformed : JsVal :=
  VObj [("name", VStr "Pat Roe"); ("terms", VArr [stateless; undated])].

Definition roster : JsVal := VArr [jane; malformed].

(** A mapping with a key [toString], which has no text. *)
Definition textless : JsVal := VObj [("toString", VStr "none")].

(** A roster entry whose bioguide is such a mapping. *)
Definition masked : JsVal :=
  VObj [("id", VObj [("bioguide", textless)]);
        ("name", VStr "Max Mask");
        ("terms",
         VArr [VObj [("type", VStr "rep"); ("state", VStr "CA"); ("district", VStr "12");
                     ("start", VStr "2021-01-03")]])].

(** A roster entry with a House term whose state is such a mapping. *)
Definition veiled : JsVal :=
  VObj [("name", VStr "Val Veil");
        ("terms", VArr [VObj [("type", VStr "rep"); ("state", textless);
                              ("district", VNum (Num 2))]])].

(** The candidate the builder computes for a term. *)
Definition candidate (p t : JsVal) : Candidate :=
  match termCandidate IsoDate.parse today p t with
  | Ok (_, c) => c
  | Throw _ => {| person := p; term := t; isCurrent := false; start := NaN |}
  end.

(** Two former terms and the current one of the same seat. *)
Definition seat (start_ end_ : string) : JsVal :=
  VObj [("type", VStr "rep"); ("state", VStr "OH"); ("district", VNum (Num 3));
        ("start", VStr start_); ("end", VStr end_)].

Definition former : JsVal :=
  VObj [("name", VStr "Old Hand");
        ("terms", VArr [seat "1965-01-04" "1967-01-03"; seat "1971-01-21" "1973-01-03";
                        seat "1969-01-03" "1971-01-03"])].

(** A former term whose start is no date, then a former term that
    started in 1965. *)
Definition garbled : JsVal :=
  VObj [("name", VStr "Lee Poe");
        ("terms", VArr [seat "not a date" "1959-01-03"; seat "1965-01-04" "1967-01-03"])].

Definition formerCandidates : list Candidate :=
  [candidate former (seat "1965-01-04" "1967-01-03");
   candidate former (seat "1971-01-21" "1973-01-03");
   candidate former (seat "1969-01-03" "1971-01-03")].

Definition formerEntry : JsVal :=
  VObj [("name", VStr "Old Hand"); ("party", VStr ""); ("phone", VStr "");
        ("url", VStr ""); ("bioguide", VNull); ("raw_person", former);
        ("raw_term", seat "1971-01-21" "1973-01-03")].

Definition district12 : JsVal :=
  VObj [("GEOID", VStr "0612"); ("BASENAME", VStr "12"); ("STATE", VStr "06");
        ("NAME", VStr "Congressional District 12"); ("CD118", VStr "12")].


Definition atLarge : JsVal :=
  VObj [("NAME", VStr "Congressional District (at Large)"); ("CD118", VStr "00");
        ("STATEFP", VNum (Num 2))].

Definition unknownState : JsVal :=
  VObj [("CD118", VStr "04"); ("STATE", VStr "99")].



(** A state code that is the name of an inherited member. *)
Definition inheritedState : JsVal :=
  VObj [("CD118", VStr "04"); ("STATE", VStr "constructor")].

(** Districts with a number below zero. *)
Definition below (n : string) : JsVal :=
  VObj [("CD118", VStr n); ("STATE", VStr "06")].

(** An empty collection under the scanned key, the districts under a
    known spelling. *)
Definition twoCollections : JsVal :=
  VObj [("116th Congressional Districts", VArr []);
        ("Congressional Districts", VArr [district12])].

Definition janeEntry : JsVal :=
  VObj [("name", VStr "Jane Doe"); ("party", VStr "Democrat"); ("phone", VStr "");
        ("url", VStr ""); ("bioguide", VStr "D000001"); ("raw_person", jane);
        ("raw_term", VObj [("type", VStr "rep"); ("state", VStr "CA");
                           ("district", VStr "12"); ("start", VStr "2021-01-03");
                           ("party", VStr "Democrat")])].

Definition maskedEntry : JsVal :=
  VObj [("name", VStr "Max Mask"); ("party", VStr ""); ("phone", VStr "");
        ("url", VStr ""); ("bioguide", textless); ("raw_person", masked);
        ("raw_term", VObj [("type", VStr "rep"); ("state", VStr "CA");
                           ("district", VStr "12"); ("start", VStr "2021-01-03")])].

Definition running : Process :=
  {| INDEX := [("CA-12", janeEntry)]; console := ["Indexed 1 state/district entries"] |}.

End Samples.

(** Answers of the two services for the ZIP code 94110. *)
Module SampleServices.

Definition zipAnswer : FetchResponse :=
  {| ok := true; status := 200; statusText := "OK";
     json := Ok (VObj [("post code", VStr "94110");
                       ("places", VArr [VObj [("latitude", VStr "37.7509");
                                              ("longitude", VStr "-122.4153")]])]) |}.

Definition geoAnswer : FetchResponse :=
  {| ok := true; status := 200; statusText := "OK";
     json := Ok (VObj [("result",
                        VObj [("geographies",
                               VObj [("119th Congressional Districts",
                                      VArr [Samples.district12; Samples.atLarge])])])]) |}.

Definition unavailable : FetchResponse :=
  {| ok := false; status := 503; statusText := "Service Unavailable";
     json := Throw "FetchError: invalid json response body" |}.

(** The coordinates are kept as the texts the ZIP service gave. *)
Definition parseFloat (s : string) : JsVal := VStr s.
Definition encodeURIComponent (v : JsVal) : string :=
  match v with VStr s => s | _ => "NaN" end.

Definition censusUrl : string :=
  "https://geocoding.geo.census.gov/geocoder/geographies/coordinates?x=-122.4153&y=37.7509&benchmark=Public_AR_Current&vintage=Current_Current&format=json".

Definition fetch (url : string) : Result FetchResponse :=
  if (url =? "https://api.zippopotam.us/us/94110")%string then Ok zipAnswer
  else if (url =? censusUrl)%string then Ok geoAnswer
  else if (url =? "https://api.zippopotam.us/us/00000")%string then Ok unavailable
  else Throw "FetchError: request failed".

End SampleServices.

(* ================================================================= *)
(** ** Facts about characters, strings and numbers *)

Ltac each_char c :=
  destruct c as [[] [] [] [] [] [] [] []]; vm_compute; try discriminate; auto.

Lemma digit_plain (c : ascii) :
  isDigit c = true ->
  isSpace c = false /\ Ascii.eqb c "-" = false /\ Ascii.eqb c "+" = false /\
  Ascii.eqb "a" (foldCase c) = false /\ 0 <= digitVal c /\ numChar c = true.
Proof. each_char c; repeat split; discriminate. Qed.

Lemma numChar_not_a (c : ascii) : numChar c = true -> Ascii.eqb "a" (foldCase c) = false.
Proof. each_char c. Qed.

Lemma allChars_append (p : ascii -> bool) (a b : string) :
  allChars p (a ++ b) = allChars p a && allChars p b.
Proof.
  induction a as [|c r IH]; cbn [append allChars]; [reflexivity|].
  now rewrite IH, andb_assoc.
Qed.

Lemma allChars_weaken (p q : ascii -> bool) (s : string) :
  (forall c, p c = true -> q c = true) -> allChars p s = true -> allChars q s = true.
Proof.
  intros Hpq. induction s as [|c r IH]; cbn [allChars]; [reflexivity|]. intros H.
  apply andb_true_iff in H as [Hc Hr]. now rewrite (Hpq c Hc), (IH Hr).
Qed.

Lemma length_append (a b : string) :
  String.length (a ++ b) = (String.length a + String.length b)%nat.
Proof. induction a as [|c r IH]; cbn [append String.length]; [reflexivity|]. now rewrite IH. Qed.

Lemma append_empty (s : string) : s ++ "" = s.
Proof. induction s as [|c r IH]; cbn [append]; [reflexivity|now rewrite IH]. Qed.

Lemma span_all (p : ascii -> bool) (s : string) :
  allChars p s = true -> span p s = (s, EmptyString).
Proof.
  induction s as [|c r IH]; simpl; intros H; [reflexivity|].
  apply andb_true_iff in H as [Hc Hr]. now rewrite Hc, (IH Hr).
Qed.

Lemma span_fst_all (p : ascii -> bool) (s : string) :
  allChars p (fst (span p s)) = true.
Proof.
  induction s as [|c r IH]; simpl; [reflexivity|].
  destruct (p c) eqn:Hc; [|reflexivity].
  destruct (span p r) as [a b]; simpl in *. now rewrite Hc.
Qed.

Lemma match_digits_run (s m0 : string) :
  match_digits s = Some m0 -> isEmpty m0 = false /\ allChars isDigit m0 = true.
Proof.
  induction s as [|c r IH]; cbn [match_digits]; [discriminate|].
  destruct (isDigit c) eqn:Hc; [|exact IH].
  intros [= <-]. split.
  - simpl. rewrite Hc. now destruct (span isDigit r).
  - apply (span_fst_all isDigit (String c r)).
Qed.

Lemma match_digits_all (s : string) :
  isEmpty s = false -> allChars isDigit s = true -> match_digits s = Some s.
Proof.
  destruct s as [|c r]; [discriminate|]. intros _ H. pose proof H as Hall.
  cbn [allChars] in H. apply andb_true_iff in H as [Hc _].
  cbn [match_digits]. rewrite Hc. now rewrite (span_all isDigit _ Hall).
Qed.

Lemma digitsValue_nonneg (ds : string) :
  forall acc, 0 <= acc -> allChars isDigit ds = true -> 0 <= digitsValue acc ds.
Proof.
  induction ds as [|c r IH]; cbn [digitsValue allChars]; intros acc Hacc H; [exact Hacc|].
  apply andb_true_iff in H as [Hc Hr].
  apply IH; [|exact Hr]. destruct (digit_plain c Hc) as (_ & _ & _ & _ & Hd & _). lia.
Qed.

Lemma roundDouble_small (z : Z) : z < two53 -> roundDouble z = Num z.
Proof. intros H. unfold roundDouble. now destruct (Z.ltb_spec z two53); [|lia]. Qed.

(** [parseInt] on a run of digits reads its value, rounded once. *)
Lemma parseInt_digits (ds : string) :
  isEmpty ds = false -> allChars isDigit ds = true ->
  parseInt ds = roundDouble (digitsValue 0 ds).
Proof.
  destruct ds as [|c r]; [discriminate|]. intros _ H.
  pose proof H as Hall. simpl in H. apply andb_true_iff in H as [Hc Hr].
  destruct (digit_plain c Hc) as (Hs & Hm & Hp & _).
  unfold parseInt. simpl trimStart. rewrite Hs, Hm, Hp.
  rewrite (span_all isDigit _ Hall). reflexivity.
Qed.

Lemma uint_chars (d : Decimal.uint) :
  allChars isDigit (NilEmpty.string_of_uint d) = true.
Proof. induction d; simpl; auto. Qed.

Lemma decimal_chars (z : Z) : allChars numChar (decimal z) = true.
Proof.
  assert (U : forall d, allChars numChar (NilZero.string_of_uint d) = true).
  { intros d.
    assert (E : allChars numChar (NilEmpty.string_of_uint d) = true).
    { apply (allChars_weaken isDigit); [|apply uint_chars].
      intros c Hc. now destruct (digit_plain c Hc) as (_ & _ & _ & _ & _ & Hn). }
    destruct d; first [exact E|reflexivity]. }
  destruct z as [|p|p]; [reflexivity|apply U|].
  change (decimal (Z.neg p)) with (String "-" (NilZero.string_of_uint (Pos.to_uint p))).
  cbn [allChars]. rewrite U. reflexivity.
Qed.

Lemma decimal_nonempty (z : Z) : isEmpty (decimal z) = false.
Proof.
  assert (U : forall p, isEmpty (NilZero.string_of_uint (Pos.to_uint p)) = false).
  { intros p. destruct (Pos.to_uint p); reflexivity. }
  destruct z as [|p|p]; [reflexivity|apply U|reflexivity].
Qed.

Lemma decimal_zero (z : Z) : decimal z = "0" -> z = 0.
Proof.
  destruct z as [|p|p]; unfold decimal; simpl; [reflexivity| |discriminate].
  intros H. exfalso.
  pose proof (DecimalPos.Unsigned.to_uint_nonnil p) as Hn.
  pose proof (DecimalPos.Unsigned.to_uint_nonzero p) as Hz.
  pose proof (NilZero.usu _ Hn) as Hu. rewrite H in Hu.
  simpl in Hu. injection Hu as Hu. now apply Hz.
Qed.

Lemma digitsValue_acc (d : Decimal.uint) :
  forall acc : positive,
    digitsValue (Z.pos acc) (NilEmpty.string_of_uint d) = Z.pos (Pos.of_uint_acc d acc).
Proof.
  induction d; intros acc; cbn [NilEmpty.string_of_uint digitsValue Pos.of_uint_acc];
    try reflexivity;
    match goal with
    | |- digitsValue (10 * Z.pos acc + digitVal ?c) _ = _ =>
        let v := eval vm_compute in (digitVal c) in change (digitVal c) with v
    end;
    rewrite <- IHd; f_equal; lia.
Qed.

Lemma digitsValue_uint (d : Decimal.uint) :
  digitsValue 0 (NilEmpty.string_of_uint d) = Z.of_N (Pos.of_uint d).
Proof.
  induction d; cbn [NilEmpty.string_of_uint digitsValue Pos.of_uint];
    try reflexivity;
    match goal with
    | |- digitsValue (10 * 0 + digitVal ?c) _ = _ =>
        let v := eval vm_compute in (10 * 0 + digitVal c) in
        change (10 * 0 + digitVal c) with v
    end;
    [exact IHd | rewrite digitsValue_acc; reflexivity ..].
Qed.

(** The decimal digits of a number that is not negative: digits only,
    read back as the number. *)
Lemma decimal_digits (n : Z) :
  0 <= n ->
  allChars isDigit (decimal n) = true /\ digitsValue 0 (decimal n) = n.
Proof.
  intros Hn. destruct n as [|p|p]; [split; reflexivity| |lia].
  change (decimal (Z.pos p)) with (NilZero.string_of_uint (Pos.to_uint p)).
  pose proof (DecimalPos.Unsigned.to_uint_nonnil p) as Hnil.
  assert (E : NilZero.string_of_uint (Pos.to_uint p)
              = NilEmpty.string_of_uint (Pos.to_uint p)).
  { destruct (Pos.to_uint p); try reflexivity. now elim Hnil. }
  rewrite E. split; [apply uint_chars|].
  rewrite digitsValue_uint, DecimalPos.Unsigned.of_to. reflexivity.
Qed.

(** The digits found for a double are those of a positive number. *)
Lemma nearest_In (x k : Z) (pairs : list (Z * Z)) (p : Z * Z) :
  nearest x k pairs = Some p -> In p pairs.
Proof.
  destruct pairs as [|first rest]; [discriminate|]. cbn [nearest]. intros [= <-].
  set (f := fun best cur : Z * Z =>
              if distance x k cur <? distance x k best then cur
              else if (distance x k cur =? distance x k best)
                      && Z.even (fst cur) && negb (Z.even (fst best))
                   then cur else best).
  assert (G : forall l best, In (fold_left f l best) (best :: l)).
  { induction l as [|cur l IH]; intros best; cbn [fold_left]; [now left|].
    destruct (IH (f best cur)) as [H|H]; [|right; now right].
    rewrite <- H. unfold f.
    destruct (distance x k cur <? distance x k best); [right; now left|].
    destruct ((distance x k cur =? distance x k best)
              && Z.even (fst cur) && negb (Z.even (fst best)));
      [right; now left|now left]. }
  apply G.
Qed.

Lemma withDigits_positive (x k : Z) (p : Z * Z) :
  1 <= k -> In p (withDigits x k) -> 0 < fst p.
Proof.
  intros Hk Hin. unfold withDigits in Hin. apply in_flat_map in Hin as (n & _ & Hin).
  destruct (n <? k); [destruct Hin|]. apply filter_In in Hin as [_ Hf].
  apply andb_true_iff in Hf as [Hf _]. apply andb_true_iff in Hf as [Hlow _].
  apply Z.leb_le in Hlow.
  assert (0 < 10 ^ (k - 1)) by (apply Z.pow_pos_nonneg; lia). lia.
Qed.

Lemma shortest_positive (x : Z) (tries : nat) :
  forall k, 0 < x -> 1 <= k -> 0 < fst (fst (shortest x k tries)).
Proof.
  induction tries as [|tries IH]; intros k Hx Hk; cbn [shortest]; [exact Hx|].
  destruct (nearest x k (withDigits x k)) as [[s n]|] eqn:E.
  - apply nearest_In in E. exact (withDigits_positive x k (s, n) Hk E).
  - apply IH; [exact Hx|lia].
Qed.

Lemma zeros_chars (n : nat) : allChars numChar (zeros n) = true.
Proof. induction n as [|n IH]; [reflexivity|exact IH]. Qed.

Lemma bigText_chars (x : Z) : allChars numChar (bigText x) = true.
Proof.
  unfold bigText. destruct (shortest x 1 17) as [[s n] k].
  pose proof (decimal_chars s) as Hs. pose proof (decimal_chars (n - 1)) as Hn.
  destruct (n <=? 21).
  - now rewrite allChars_append, Hs, zeros_chars.
  - destruct (decimal s) as [|c [|c' more]].
    + exact Hn.
    + cbn [append allChars] in *. apply andb_true_iff in Hs as [Hc _]. now rewrite Hc, Hn.
    + cbn [append allChars] in *. apply andb_true_iff in Hs as [Hc Hs].
      apply andb_true_iff in Hs as [Hc' Hs]. rewrite Hc, Hc'. cbn [andb].
      now rewrite allChars_append, Hs.
Qed.

Lemma bigText_shape (x : Z) :
  0 < x -> isEmpty (bigText x) = false /\ bigText x <> "0".
Proof.
  intros Hx. unfold bigText.
  pose proof (shortest_positive x 17 1 Hx (Z.le_refl 1)) as Hpos.
  destruct (shortest x 1 17) as [[s n] k]. cbn [fst] in Hpos.
  pose proof (decimal_nonempty s) as Hne.
  assert (Hz : decimal s <> "0") by (intros E; apply decimal_zero in E; lia).
  destruct (n <=? 21).
  - destruct (decimal s) as [|c r]; [discriminate|]. split; [reflexivity|].
    cbn [append]. intros E. injection E as Ec Er.
    destruct r; [|discriminate]. subst c. now elim Hz.
  - destruct (decimal s) as [|c [|c' more]]; [discriminate| |];
      (split; [reflexivity|discriminate]).
Qed.

Lemma NumToString_nonempty (n : JsNum) : isEmpty (NumToString n) = false.
Proof.
  destruct n as [|z|[]]; try reflexivity. cbn [NumToString].
  destruct (Z.ltb_spec (Z.abs z) two53); [apply decimal_nonempty|].
  destruct (Z.ltb_spec z 0); [reflexivity|].
  apply bigText_shape. unfold two53 in *. lia.
Qed.

Lemma NumToString_zero (n : JsNum) : NumToString n = "0" -> n = Num 0.
Proof.
  destruct n as [|z|[]]; try discriminate. cbn [NumToString].
  destruct (Z.ltb_spec (Z.abs z) two53).
  - intros E. now rewrite (decimal_zero z E).
  - destruct (Z.ltb_spec z 0); [discriminate|].
    intros E. exfalso. revert E. apply bigText_shape. unfold two53 in *. lia.
Qed.

Lemma NumToString_chars (z : Z) : allChars numChar (NumToString (Num z)) = true.
Proof.
  cbn [NumToString]. destruct (Z.abs z <? two53); [apply decimal_chars|].
  destruct (z <? 0); [|apply bigText_chars].
  cbn [append allChars]. now rewrite bigText_chars.
Qed.

(** Below 2^53 the text of a number is its decimal digits. *)
Lemma render_digits (n : Z) :
  0 <= n < two53 ->
  isEmpty (NumToString (Num n)) = false /\
  allChars isDigit (NumToString (Num n)) = true /\
  digitsValue 0 (NumToString (Num n)) = n.
Proof.
  intros Hn. split; [apply NumToString_nonempty|]. cbn [NumToString].
  destruct (Z.ltb_spec (Z.abs n) two53); [|lia]. apply decimal_digits. lia.
Qed.

Lemma no_a_no_at_large (s : string) :
  allChars (fun c => negb (Ascii.eqb "a" (foldCase c))) s = true ->
  test_at_large s = false.
Proof.
  induction s as [|c r IH]; simpl; [reflexivity|]. intros H.
  apply andb_true_iff in H as [Hc Hr]. apply negb_true_iff in Hc.
  rewrite Hc, (IH Hr). reflexivity.
Qed.

Lemma number_not_at_large (n : JsNum) : test_at_large (NumToString n) = false.
Proof.
  destruct n as [|z|[]]; try reflexivity.
  apply no_a_no_at_large. apply (allChars_weaken numChar); [|apply NumToString_chars].
  intros c Hc. now rewrite (numChar_not_a c Hc).
Qed.

Lemma roundDouble_zero (v : Z) : 0 <= v -> roundDouble v = Num 0 -> v = 0.
Proof.
  intros Hv. unfold roundDouble. destruct (Z.ltb_spec v two53); [now intros [= ->]|].
  assert (He : 0 <= Z.log2 v - 52).
  { assert (Z.log2 two53 <= Z.log2 v) by (apply Z.log2_le_mono; lia).
    change (Z.log2 two53) with 53 in *. lia. }
  assert (Hq : 0 < Z.shiftr v (Z.log2 v - 52)).
  { assert (0 <= Z.shiftr v (Z.log2 v - 52)) by (apply Z.shiftr_nonneg; lia).
    assert (Z.shiftr v (Z.log2 v - 52) <> 0); [|lia].
    intros E. apply Z.shiftr_eq_0_iff in E as [E|[_ E]]; unfold two53 in *; lia. }
  cbv zeta.
  match goal with
  | |- context [Z.shiftl ?q (Z.log2 v - 52) <? Z.shiftl 1 1024] => set (q' := q)
  end.
  assert (Hq' : 0 < q').
  { unfold q'. repeat match goal with |- context [if ?b then _ else _] => destruct b end; lia. }
  destruct (Z.shiftl q' (Z.log2 v - 52) <? Z.shiftl 1 1024); [|discriminate].
  intros [= E]. apply Z.shiftl_eq_0_iff in E; lia.
Qed.

(* ================================================================= *)
(** ** The term normalizer *)

Lemma normDistrict_falsy (raw : JsVal) :
  truthy raw = false -> normDistrict raw = Ok "1".
Proof.
  intros H. unfold normDistrict.
  destruct raw as [| |b|n|s|xs|fs]; try discriminate; try reflexivity.
  - now rewrite H.
  - now rewrite H.
  - destruct s; [reflexivity|discriminate].
Qed.

Lemma normDistrict_digits (s m0 : string) :
  match_digits s = Some m0 ->
  0 <= digitsValue 0 m0 /\
  parseInt m0 = roundDouble (digitsValue 0 m0) /\
  normDistrict (VStr s) =
    Ok (if digitsValue 0 m0 =? 0 then "1" else NumToString (parseInt m0)).
Proof.
  intros Hm. destruct (match_digits_run _ _ Hm) as [Hne Hall].
  pose proof (parseInt_digits _ Hne Hall) as Hp.
  pose proof (digitsValue_nonneg m0 0 (Z.le_refl 0) Hall) as Hv.
  split; [exact Hv|]. split; [exact Hp|].
  unfold normDistrict. rewrite Hm. cbn [truthy ToString].
  rewrite (NumToString_nonempty (parseInt m0)). cbn [negb bind].
  rewrite (NumToString_nonempty (parseInt m0)). cbn [orb].
  destruct (Z.eqb_spec (digitsValue 0 m0) 0) as [E|E].
  - rewrite Hp, E. reflexivity.
  - destruct (String.eqb_spec (NumToString (parseInt m0)) "0") as [E0|E0].
    + apply NumToString_zero in E0. rewrite Hp in E0.
      now apply roundDouble_zero in E0.
    + cbn [bind]. now rewrite number_not_at_large.
Qed.

Lemma normDistrict_text (s : string) :
  match_digits s = None -> isEmpty s = false ->
  normDistrict (VStr s) = Ok (if test_at_large s then "1" else s).
Proof.
  intros Hm Hne. unfold normDistrict. rewrite Hm. cbn [truthy ToString].
  rewrite Hne. cbn [negb bind]. rewrite Hne. cbn [orb].
  destruct (String.eqb_spec s "0") as [E|E]; [|reflexivity].
  subst s. discriminate.
Qed.

Lemma normDistrict_number (n : JsNum) :
  truthy (VNum n) = true -> normDistrict (VNum n) = Ok (NumToString n).
Proof.
  intros Ht. unfold normDistrict. rewrite Ht. cbn [ToString bind].
  rewrite (NumToString_nonempty n). cbn [orb].
  destruct (String.eqb_spec (NumToString n) "0") as [E0|E0].
  - apply NumToString_zero in E0. subst n. discriminate.
  - cbn [bind]. now rewrite number_not_at_large.
Qed.

(** The district of a term is never empty and never ["0"], whatever
    the raw value is. *)
Lemma normDistrict_never_zero (raw : JsVal) (d : string) :
  normDistrict raw = Ok d -> isEmpty d = false /\ d <> "0".
Proof.
  unfold normDistrict.
  set (districtRaw := match raw with
                      | VStr s => match match_digits s with
                                  | Some m0 => VStr (NumToString (parseInt m0))
                                  | None => raw
                                  end
                      | _ => raw
                      end).
  destruct (truthy districtRaw); cbn [bind];
    [|intros [= <-]; split; [reflexivity|discriminate]].
  destruct (ToString districtRaw) as [t|e]; [|discriminate]. cbn [bind].
  destruct (isEmpty t) eqn:He; cbn [orb];
    [intros [= <-]; split; [reflexivity|discriminate]|].
  destruct (String.eqb_spec t "0") as [E0|E0];
    [intros [= <-]; split; [reflexivity|discriminate]|].
  cbn [bind]. destruct (test_at_large t); intros [= <-];
    [split; [reflexivity|discriminate]|]. split; [exact He|exact E0].
Qed.

(** C4, as amended.  The district of a House term is ["1"] when the raw
    value is falsy (missing, [null], empty, zero); for a text holding a
    digit it is the first run of digits parsed and rendered, or ["1"]
    when that number is zero, whether or not the text also matches the
    at-large pattern, the run being read as [parseInt] reads it: exactly
    below 2^53, where the rendering is the decimal digits of the number,
    and rounded to the nearest double beyond; for a non-empty text
    without a digit it is ["1"] when the text matches the at-large
    pattern and the text itself otherwise; for a non-zero number it is
    the number rendered. *)
Theorem C4_normDistrict_cases (raw : JsVal) :
  (truthy raw = false -> normDistrict raw = Ok "1") /\
  (forall s m0, raw = VStr s -> match_digits s = Some m0 ->
     0 <= digitsValue 0 m0 /\
     parseInt m0 = roundDouble (digitsValue 0 m0) /\
     normDistrict raw =
       Ok (if digitsValue 0 m0 =? 0 then "1" else NumToString (parseInt m0)) /\
     (digitsValue 0 m0 < two53 ->
      parseInt m0 = Num (digitsValue 0 m0) /\
      allChars isDigit (NumToString (parseInt m0)) = true /\
      digitsValue 0 (NumToString (parseInt m0)) = digitsValue 0 m0)) /\
  (forall s, raw = VStr s -> match_digits s = None -> isEmpty s = false ->
     normDistrict raw = Ok (if test_at_large s then "1" else s)) /\
  (forall n, raw = VNum n -> truthy raw = true -> normDistrict raw = Ok (NumToString n)).
Proof.
  split; [|split; [|split]].
  - apply normDistrict_falsy.
  - intros s m0 -> Hm. destruct (normDistrict_digits s m0 Hm) as (Hv & Hp & Hn).
    repeat (split; [assumption|]). intros Hsmall.
    rewrite Hp, (roundDouble_small _ Hsmall). split; [reflexivity|].
    now apply render_digits.
  - intros s -> Hm Hne. now apply normDistrict_text.
  - intros n -> Ht. now apply normDistrict_number.
Qed.

Lemma C4_witness :
  normDistrict VUndef = Ok "1" /\
  normDistrict (VStr "District 07") = Ok "7" /\
  parseInt "07" = Num 7 /\
  normDistrict (VStr "At Large") = Ok "1" /\
  normDistrict (VNum (Num 13)) = Ok "13".
Proof.
  split; [|split; [|split; [|split]]].
  - apply (C4_normDistrict_cases VUndef). reflexivity.
  - apply (proj1 (proj2 (C4_normDistrict_cases (VStr "District 07")))
             "District 07" "07" eq_refl eq_refl).
  - apply (proj1 (proj2 (C4_normDistrict_cases (VStr "District 07")))
             "District 07" "07" eq_refl eq_refl). reflexivity.
  - apply (proj1 (proj2 (proj2 (C4_normDistrict_cases (VStr "At Large"))))
             "At Large" eq_refl eq_refl eq_refl).
  - apply (proj2 (proj2 (proj2 (C4_normDistrict_cases (VNum (Num 13)))))
             (Num 13) eq_refl eq_refl).
Defined.

(** C4 as stated fails on the text ["2 at large"]: the text matches the
    at-large pattern, yet the district is ["2"], not ["1"]; and on
    ["north"], which has no digits to extract and is kept as it is.  A
    run of digits from 2^53 on is read as the nearest double. *)
Lemma C4_counterexample :
  test_at_large "2 at large" = true /\
  normDistrict (VStr "2 at large") = Ok "2" /\
  normDistrict (VStr "2 at large") <> Ok "1" /\
  match_digits "north" = None /\
  normDistrict (VStr "north") = Ok "north" /\
  normDistrict (VStr "9007199254740993") = Ok "9007199254740992".
Proof. repeat split. discriminate. Qed.

(** X1.  Normalizing the district of a text twice gives what normalizing
    it once gives, when the digits of the text, if it has any, are
    those of a number below 2^53; the normalization of a text never
    throws. *)
Theorem normDistrict_idempotent (s : string) :
  (forall m0, match_digits s = Some m0 -> digitsValue 0 m0 < two53) ->
  exists d, normDistrict (VStr s) = Ok d /\ normDistrict (VStr d) = Ok d.
Proof.
  intros Hsmall. destruct (match_digits s) as [m0|] eqn:Hm.
  - destruct (normDistrict_digits s m0 Hm) as (Hn & Hp & ->).
    eexists. split; [reflexivity|].
    destruct (Z.eqb_spec (digitsValue 0 m0) 0) as [E|E]; [reflexivity|].
    rewrite Hp, (roundDouble_small _ (Hsmall m0 eq_refl)).
    set (n := digitsValue 0 m0) in *.
    assert (Hb : 0 <= n < two53) by (split; [exact Hn|exact (Hsmall m0 eq_refl)]).
    destruct (render_digits n Hb) as (Hne & Hall & Hval).
    destruct (normDistrict_digits _ _ (match_digits_all _ Hne Hall)) as (_ & Hp' & ->).
    rewrite Hval. destruct (Z.eqb_spec n 0); [contradiction|].
    rewrite Hp', Hval, (roundDouble_small n (proj2 Hb)). reflexivity.
  - destruct (isEmpty s) eqn:Hs.
    + destruct s; [|discriminate]. exists "1". split; reflexivity.
    + rewrite (normDistrict_text s Hm Hs). eexists. split; [reflexivity|].
      destruct (test_at_large s) eqn:Ha; [reflexivity|].
      rewrite (normDistrict_text s Hm Hs). now rewrite Ha.
Qed.

Lemma normDistrict_idempotent_witness :
  normDistrict (VStr "District 07") = Ok "7" /\ normDistrict (VStr "7") = Ok "7".
Proof.
  destruct (normDistrict_idempotent "District 07") as (d & H1 & H2).
  - intros m0 [= <-]. reflexivity.
  - assert (E : d = "7") by (vm_compute in H1; now injection H1).
    subst d. split; [exact H1|exact H2].
Defined.

(* ================================================================= *)
(** ** Facts about values, objects and loops *)

Lemma truthy_not_nullish (v : JsVal) : truthy v = true -> nullish v = false.
Proof. destruct v; simpl; auto; discriminate. Qed.

Lemma get_defined (v : JsVal) (k : string) :
  nullish v = false -> get v k = Ok (get_opt v k).
Proof. intros H. unfold get_opt, get. rewrite H. reflexivity. Qed.

Lemma get_nullish (v : JsVal) (k : string) :
  nullish v = true -> get v k = Throw (cannotRead v k).
Proof. intros H. unfold get. now rewrite H. Qed.

Lemma get_obj (fs : list (string * JsVal)) (k : string) :
  get (VObj fs) k = Ok (field fs k).
Proof.
  unfold get, field. cbn [nullish own_props].
  destruct (assoc k fs); [reflexivity|]. now destruct (k =? "length")%string.
Qed.

Lemma get_opt_obj (fs : list (string * JsVal)) (k : string) :
  get_opt (VObj fs) k = field fs k.
Proof. unfold get_opt. now rewrite get_obj. Qed.

Lemma assoc_in_keys {A} (k : string) (l : list (string * A)) (v : A) :
  assoc k l = Some v -> In k (map fst l).
Proof.
  induction l as [|[k' v'] rest IH]; simpl; [discriminate|].
  destruct (String.eqb_spec k k') as [->|_]; [now left|]. intros H. right. auto.
Qed.

Lemma assoc_in {A} (k : string) (l : list (string * A)) (v : A) :
  assoc k l = Some v -> In (k, v) l.
Proof.
  induction l as [|[k' v'] rest IH]; simpl; [discriminate|].
  destruct (String.eqb_spec k k') as [->|_].
  - intros [= ->]. now left.
  - intros H. right. auto.
Qed.

Lemma assoc_none_not_key {A} (k : string) (l : list (string * A)) :
  assoc k l = None -> ~ In k (map fst l).
Proof.
  induction l as [|[k' v'] rest IH]; simpl; [tauto|].
  destruct (String.eqb_spec k k') as [->|Hn]; [discriminate|].
  intros E [H|H]; [now elim Hn|]. now apply IH.
Qed.

Lemma assoc_none_keys {A} (k : string) (l : list (string * A)) :
  ~ In k (map fst l) -> assoc k l = None.
Proof.
  intros H. destruct (assoc k l) eqn:E; [|reflexivity].
  elim H. eapply assoc_in_keys; eauto.
Qed.

Lemma assoc_assign_same {A} (k : string) (v : A) (l : list (string * A)) :
  assoc k (assign k v l) = Some v.
Proof.
  induction l as [|[k' v'] rest IH]; simpl.
  - now rewrite String.eqb_refl.
  - destruct (String.eqb_spec k k') as [->|Hn]; simpl.
    + now rewrite String.eqb_refl.
    + destruct (String.eqb_spec k k'); [contradiction|exact IH].
Qed.

Lemma assoc_assign_other {A} (k k' : string) (v : A) (l : list (string * A)) :
  k' <> k -> assoc k' (assign k v l) = assoc k' l.
Proof.
  intros Hn. induction l as [|[k0 v0] rest IH]; simpl.
  - destruct (String.eqb_spec k' k); [contradiction|reflexivity].
  - destruct (String.eqb_spec k k0) as [->|Hk]; simpl.
    + destruct (String.eqb_spec k' k0); [contradiction|reflexivity].
    + destruct (String.eqb_spec k' k0); [reflexivity|exact IH].
Qed.

Lemma keys_assign {A} (k : string) (v : A) (l : list (string * A)) :
  map fst (assign k v l) =
    match assoc k l with
    | Some _ => map fst l
    | None => (map fst l ++ [k])%list
    end.
Proof.
  induction l as [|[k' v'] rest IH]; simpl; [reflexivity|].
  destruct (String.eqb_spec k k') as [->|Hn]; simpl; [reflexivity|].
  rewrite IH. now destruct (assoc k rest).
Qed.

Lemma keys_assign_NoDup {A} (k : string) (v : A) (l : list (string * A)) :
  NoDup (map fst l) -> NoDup (map fst (assign k v l)).
Proof.
  intros H. rewrite keys_assign. destruct (assoc k l) eqn:E; [exact H|].
  apply NoDup_app; [exact H|repeat constructor; simpl; tauto|].
  intros x Hx [<-|[]]. revert Hx. now apply assoc_none_not_key.
Qed.

Lemma foldM_app {S A} (f : S -> A -> Result S) (l1 l2 : list A) (s : S) :
  foldM f (l1 ++ l2) s = (s' <- foldM f l1 s ;; foldM f l2 s').
Proof.
  revert s. induction l1 as [|x rest IH]; intros s; simpl; [reflexivity|].
  destruct (f s x); simpl; auto.
Qed.

Lemma mapM_app {A B} (f : A -> Result B) (l1 l2 : list A) :
  mapM f (l1 ++ l2) = (a <- mapM f l1 ;; b <- mapM f l2 ;; Ok (a ++ b)%list).
Proof.
  induction l1 as [|x rest IH]; cbn [mapM app bind].
  - destruct (mapM f l2); reflexivity.
  - destruct (f x) as [y|e]; cbn [bind]; [|reflexivity]. rewrite IH.
    destruct (mapM f rest) as [ys|e]; cbn [bind]; [|reflexivity].
    destruct (mapM f l2); reflexivity.
Qed.

Lemma mapM_map {A B C} (g : A -> B) (f : B -> Result C) (l : list A) :
  mapM f (map g l) = mapM (fun x => f (g x)) l.
Proof.
  induction l as [|x rest IH]; cbn [mapM map]; [reflexivity|]. now rewrite IH.
Qed.

Lemma mapM_In {A B} (f : A -> Result B) (l : list A) (ys : list B) (y : B) :
  mapM f l = Ok ys -> In y ys -> exists x, In x l /\ f x = Ok y.
Proof.
  revert ys. induction l as [|x rest IH]; intros ys; cbn [mapM].
  - intros [= <-] [].
  - destruct (f x) as [y0|e] eqn:Hx; [|discriminate]. cbn [bind].
    destruct (mapM f rest) as [ys0|e]; [|discriminate]. cbn [bind].
    intros [= <-] [<-|Hin].
    + exists x. split; [now left|exact Hx].
    + destruct (IH ys0 eq_refl Hin) as (x' & Hx' & Hf). exists x'. split; [now right|exact Hf].
Qed.

Lemma mapM_each {A B} (f : A -> Result B) (l : list A) (ys : list B) (x : A) :
  mapM f l = Ok ys -> In x l -> exists y, f x = Ok y /\ In y ys.
Proof.
  revert ys. induction l as [|x0 rest IH]; intros ys; cbn [mapM]; [intros _ []|].
  destruct (f x0) as [y0|e] eqn:Hx; [|discriminate]. cbn [bind].
  destruct (mapM f rest) as [ys0|e]; [|discriminate]. cbn [bind].
  intros [= <-] [<-|Hin].
  - exists y0. split; [exact Hx|now left].
  - destruct (IH ys0 eq_refl Hin) as (y & Hy & Hin'). exists y. split; [exact Hy|now right].
Qed.

Lemma mapM_completes {A B} (f : A -> Result B) (l : list A) :
  (forall x, In x l -> completes (f x)) -> completes (mapM f l).
Proof.
  induction l as [|x rest IH]; intros H; cbn [mapM]; [now eexists|].
  destruct (H x (or_introl eq_refl)) as [y ->]. cbn [bind].
  destruct IH as [ys ->]; [intros x' Hx'; apply H; now right|]. now eexists.
Qed.

Lemma find_first {A} (p : A -> bool) (pre post : list A) (x : A) :
  (forall y, In y pre -> p y = false) -> p x = true ->
  find p (pre ++ x :: post) = Some x.
Proof.
  intros Hpre Hx. induction pre as [|y rest IH]; simpl.
  - now rewrite Hx.
  - rewrite (Hpre y (or_introl eq_refl)). apply IH. intros z Hz. apply Hpre. now right.
Qed.

Lemma find_nowhere {A} (p : A -> bool) (l : list A) :
  (forall y, In y l -> p y = false) -> find p l = None.
Proof.
  intros H. induction l as [|y rest IH]; simpl; [reflexivity|].
  rewrite (H y (or_introl eq_refl)). apply IH. intros z Hz. apply H. now right.
Qed.

Lemma completes_Ok {A} (a : A) : completes (Ok a).
Proof. now exists a. Qed.

Lemma not_completes_Throw {A} (e : string) : ~ completes (@Throw A e).
Proof. intros [a H]. discriminate. Qed.

Lemma completes_map {A B} (m : Result A) (f : A -> B) :
  completes (x <- m ;; Ok (f x)) <-> completes m.
Proof.
  destruct m as [a|e]; cbn [bind].
  - split; intros _; apply completes_Ok.
  - split; intros H; now apply not_completes_Throw in H.
Qed.

(** A value has a text exactly when it holds no mapping with an own
    property [toString], at the top or in a list. *)
Lemma ToString_plain : forall v : JsVal, completes (ToString v) <-> plain v = true.
Proof.
  fix IH 1. intros [| |[]|n|s|xs|fs]; cbn [plain];
    try (split; [reflexivity|intros _; cbn [ToString]; apply completes_Ok]).
  - cbn [ToString]. induction xs as [|x rest IHrest]; cbn [forallb].
    + split; [reflexivity|intros _; apply completes_Ok].
    + assert (Hx : completes match x with
                             | VUndef | VNull => Ok ""
                             | _ => ToString x
                             end <-> plain x = true).
      { pose proof (IH x) as H0.
        destruct x; try exact H0; (split; [reflexivity|intros _; apply completes_Ok]). }
      split.
      * intros [t Ht].
        destruct (match x with VUndef | VNull => Ok "" | _ => ToString x end) as [here|e]
          eqn:E; [|discriminate].
        rewrite (proj1 Hx (completes_Ok here)). cbn [bind andb] in Ht |- *.
        destruct rest as [|y more]; [reflexivity|].
        apply IHrest.
        match type of Ht with
        | (more' <- ?j ;; _) = _ => destruct j as [m|e]; [now exists m|discriminate]
        end.
      * intros H. apply andb_true_iff in H as [H1 H2].
        destruct (proj2 Hx H1) as [here ->]. cbn [bind].
        destruct rest as [|y more]; [apply completes_Ok|].
        destruct (proj2 IHrest H2) as [m Hm]. rewrite Hm. apply completes_Ok.
  - cbn [ToString]. destruct (assoc "toString" fs).
    + split; [intros H; now apply not_completes_Throw in H|discriminate].
    + split; [reflexivity|intros _; apply completes_Ok].
Qed.

Lemma ToString_throws (v : JsVal) (e : string) :
  ToString v = Throw e -> plain v = false.
Proof.
  intros H. destruct (plain v) eqn:Hp; [|reflexivity].
  apply ToString_plain in Hp as [t Ht]. congruence.
Qed.

Lemma falsy_plain (v : JsVal) : truthy v = false -> plain v = true.
Proof. destruct v; try reflexivity; discriminate. Qed.

Lemma normDistrict_completes (raw : JsVal) :
  completes (normDistrict raw) <-> plain raw = true.
Proof.
  unfold normDistrict.
  set (districtRaw := match raw with
                      | VStr s => match match_digits s with
                                  | Some m0 => VStr (NumToString (parseInt m0))
                                  | None => raw
                                  end
                      | _ => raw
                      end).
  assert (Hp : plain districtRaw = plain raw).
  { unfold districtRaw. destruct raw; try reflexivity. now destruct (match_digits s). }
  assert (Hf : truthy districtRaw = false -> plain raw = true).
  { intros H. rewrite <- Hp. now apply falsy_plain. }
  rewrite <- Hp.
  destruct (truthy districtRaw) eqn:Ht; cbn [bind].
  - destruct (ToString districtRaw) as [t|e] eqn:E; cbn [bind].
    + assert (plain districtRaw = true) as -> by (apply ToString_plain; now exists t).
      split; [reflexivity|intros _].
      destruct (isEmpty t || (t =? "0")%string); [apply completes_Ok|].
      cbn [bind]. apply completes_Ok.
    + rewrite (ToString_throws _ _ E).
      split; [intros H; now apply not_completes_Throw in H|discriminate].
  - rewrite Hp, (Hf eq_refl). split; [reflexivity|intros _; apply completes_Ok].
Qed.

(* ================================================================= *)
(** ** The district extractor: the district number *)












(* ================================================================= *)
(** ** The district extractor: locating the collection *)

Lemma known_spelling_absent (fs : list (string * JsVal)) (name : string) :
  (forall k, In k (map fst fs) -> mentionsCongress k = false) ->
  mentionsCongress name = true ->
  field fs name = VUndef.
Proof.
  intros Hno Hname. unfold field.
  destruct (assoc name fs) eqn:E; [|reflexivity].
  apply assoc_in_keys in E. apply Hno in E. congruence.
Qed.

Lemma scanCongress_first (fs : list (string * JsVal)) (pre post : list string) (k : string) :
  map fst fs = (pre ++ k :: post)%list ->
  (forall k', In k' pre -> mentionsCongress k' = false) ->
  mentionsCongress k = true ->
  scanCongress (VObj fs) = Ok (field fs k).
Proof.
  intros Hkeys Hpre Hk. unfold scanCongress.
  cbn [Object_keys nullish own_props bind]. rewrite Hkeys.
  rewrite (find_first _ pre post k Hpre Hk). apply get_obj.
Qed.

Lemma scanCongress_none (fs : list (string * JsVal)) :
  (forall k, In k (map fst fs) -> mentionsCongress k = false) ->
  scanCongress (VObj fs) = Ok VNull.
Proof.
  intros Hno. unfold scanCongress. cbn [Object_keys nullish own_props bind].
  now rewrite (find_nowhere _ _ Hno).
Qed.

Lemma knownSpellings_nothing (fs : list (string * JsVal)) :
  (forall k, In k (map fst fs) -> mentionsCongress k = false) ->
  knownSpellings (VObj fs) = Ok VUndef.
Proof.
  intros Hno. unfold knownSpellings. rewrite !get_obj.
  rewrite !(known_spelling_absent fs _ Hno) by reflexivity. reflexivity.
Qed.

(** The answer of the handler once the collection is located. *)
Lemma apiRep_located (index : list (string * JsVal)) (zip : string) (centroid : JsVal)
    (fs : list (string * JsVal)) (cdArray : JsVal) :
  locateDistricts (VObj fs) = Ok cdArray ->
  noDistricts cdArray = Ok true ->
  apiRep index zip centroid (VObj [("result", VObj [("geographies", VObj fs)])]) =
    Status 404 (errorBody "No Congressional Districts returned by Census for ZIP centroid").
Proof.
  intros Hloc Hnone. unfold apiRep.
  change (get_opt (get_opt (VObj [("result", VObj [("geographies", VObj fs)])]) "result")
            "geographies") with (VObj fs).
  cbn [or_chain bind truthy negb]. rewrite Hloc. cbn [bind]. rewrite Hnone. reflexivity.
Qed.

(** C5, as amended.  The collection is the value of the first key of
    the geography mapping whose name contains "congress" in any case,
    when that value is a non-empty collection.  The fixed spellings are
    consulted when no key matches and also when the first matching key
    holds nothing or an empty collection; when no key matches they find
    nothing either.  A collection that is missing or empty after both
    steps is answered by the "No Congressional Districts" error, with no
    keys. *)
Theorem C5_locate (fs : list (string * JsVal)) :
  (forall pre k post,
      map fst fs = (pre ++ k :: post)%list ->
      (forall k', In k' pre -> mentionsCongress k' = false) ->
      mentionsCongress k = true ->
      (noDistricts (field fs k) = Ok false -> locateDistricts (VObj fs) = Ok (field fs k)) /\
      (noDistricts (field fs k) = Ok true ->
       locateDistricts (VObj fs) = knownSpellings (VObj fs))) /\
  ((forall k, In k (map fst fs) -> mentionsCongress k = false) ->
      locateDistricts (VObj fs) = Ok VUndef) /\
  (forall index zip centroid cdArray,
      locateDistricts (VObj fs) = Ok cdArray ->
      noDistricts cdArray = Ok true ->
      apiRep index zip centroid (VObj [("result", VObj [("geographies", VObj fs)])]) =
        Status 404
          (errorBody "No Congressional Districts returned by Census for ZIP centroid")) /\
  mentionsCongress "119th CONGRESSional Districts" = true.
Proof.
  split; [|split; [|split; [|reflexivity]]].
  - intros pre k post Hkeys Hpre Hk. unfold locateDistricts.
    rewrite (scanCongress_first fs pre post k Hkeys Hpre Hk). cbn [bind].
    split; intros ->; reflexivity.
  - intros Hno. unfold locateDistricts. rewrite (scanCongress_none fs Hno).
    cbn [bind noDistricts truthy negb]. now apply knownSpellings_nothing.
  - intros index zip centroid cdArray. apply apiRep_located.
Qed.

Lemma C5_witness :
  locateDistricts
    (VObj [("States", VArr []); ("119th CONGRESSional Districts", VArr [Samples.district12])])
    = Ok (VArr [Samples.district12]) /\
  locateDistricts (VObj [("States", VArr [])]) = Ok VUndef /\
  apiRep [] "94110" VNull
    (VObj [("result", VObj [("geographies", VObj [("States", VArr [])])])]) =
    Status 404 (errorBody "No Congressional Districts returned by Census for ZIP centroid").
Proof.
  split; [|split].
  - apply (proj1 (C5_locate [("States", VArr []);
                             ("119th CONGRESSional Districts", VArr [Samples.district12])])
             ["States"] "119th CONGRESSional Districts" [] eq_refl).
    + intros k' [<-|[]]. reflexivity.
    + reflexivity.
    + reflexivity.
  - apply (proj1 (proj2 (C5_locate [("States", VArr [])]))).
    intros k [<-|[]]. reflexivity.
  - apply (proj1 (proj2 (proj2 (C5_locate [("States", VArr [])]))) [] "94110" VNull VUndef).
    + reflexivity.
    + reflexivity.
Defined.

(** C5 as stated fails when the first key that mentions "congress"
    holds an empty collection: a key matches, yet the fixed spellings are
    consulted and the districts found under one of them are used. *)
Lemma C5_counterexample :
  find mentionsCongress ["116th Congressional Districts"; "Congressional Districts"]
    = Some "116th Congressional Districts" /\
  scanCongress Samples.twoCollections = Ok (VArr []) /\
  locateDistricts Samples.twoCollections = knownSpellings Samples.twoCollections /\
  locateDistricts Samples.twoCollections = Ok (VArr [Samples.district12]) /\
  resolveDistricts (VArr [Samples.district12]) = Ok ["CA-12"].
Proof. repeat split. Qed.

(* ================================================================= *)
(** ** The district extractor: the state and the key set *)

Lemma padStart2_nonempty (s : string) : isEmpty (padStart2 s) = false.
Proof. destruct s as [|a [|b r]]; reflexivity. Qed.




Lemma existsb_eqb_In (k : string) (keys : list string) :
  existsb (String.eqb k) keys = true <-> In k keys.
Proof.
  rewrite existsb_exists. split.
  - intros [x [Hx E]]. apply String.eqb_eq in E. now subst x.
  - intros H. exists k. split; [exact H|apply String.eqb_refl].
Qed.






Lemma addKey_NoDup (k : string) (set : list string) :
  NoDup set -> NoDup (addKey k set).
Proof.
  intros H. unfold addKey. destruct (existsb (String.eqb k) set) eqn:E; [exact H|].
  apply NoDup_app; [exact H|repeat constructor; simpl; tauto|].
  intros x Hx [<-|[]].
  assert (existsb (String.eqb k) set = true); [|congruence].
  now apply existsb_eqb_In.
Qed.

Lemma addKey_In (k k' : string) (set : list string) :
  In k' (addKey k set) <-> In k' set \/ k' = k.
Proof.
  unfold addKey. destruct (existsb (String.eqb k) set) eqn:E.
  - split; [now left|]. intros [H| ->]; [exact H|]. now apply existsb_eqb_In.
  - rewrite in_app_iff. simpl. split; intros [H|H]; auto; try (now right; left).
    destruct H as [<-|[]]. now right.
Qed.

Lemma addKey_present (k : string) (keys : list string) :
  In k keys -> addKey k keys = keys.
Proof. intros H. unfold addKey. apply existsb_eqb_In in H. now rewrite H. Qed.

Lemma addKey_absent (k : string) (keys : list string) :
  ~ In k keys -> addKey k keys = (keys ++ [k])%list.
Proof.
  intros H. unfold addKey. destruct (existsb (String.eqb k) keys) eqn:E; [|reflexivity].
  apply existsb_eqb_In in E. contradiction.
Qed.

(** The key set after the loop: no key twice, and exactly the keys the
    objects give. *)
Lemma foldM_cdStep (cds : list JsVal) :
  forall acc keys,
    foldM cdStep cds acc = Ok keys ->
    NoDup acc ->
    NoDup keys /\
    (forall k, In k keys <-> In k acc \/ exists cd, In cd cds /\ keyOf cd = Ok (Some k)).
Proof.
  induction cds as [|cd rest IH]; intros acc keys; simpl.
  - intros [= <-] Hnd. split; [exact Hnd|]. intros k. split; [now left|].
    intros [H|[cd [[] _]]]. exact H.
  - unfold cdStep at 1. destruct (keyOf cd) as [[key|]|e] eqn:Hk; cbn [bind];
      [| |discriminate].
    + intros Hfold Hnd.
      destruct (IH _ _ Hfold (addKey_NoDup key acc Hnd)) as [Hnd' Hin].
      split; [exact Hnd'|]. intros k. rewrite Hin, addKey_In. split.
      * intros [[H| ->]|[cd' [Hc Hk']]]; [now left| |].
        -- right. exists cd. split; [now left|exact Hk].
        -- right. exists cd'. split; [now right|exact Hk'].
      * intros [H|[cd' [[<-|Hc] Hk']]]; [now left; left| |].
        -- rewrite Hk in Hk'. injection Hk' as ->. now left; right.
        -- right. now exists cd'.
    + intros Hfold Hnd. destruct (IH _ _ Hfold Hnd) as [Hnd' Hin].
      split; [exact Hnd'|]. intros k. rewrite Hin. split.
      * intros [H|[cd' [Hc Hk']]]; [now left|]. right. exists cd'. split; [now right|exact Hk'].
      * intros [H|[cd' [[<-|Hc] Hk']]]; [now left| |].
        -- rewrite Hk in Hk'. discriminate.
        -- right. now exists cd'.
Qed.

Lemma resolveDistricts_keys (cdArray : JsVal) (cds : list JsVal) (keys : list string) :
  iter "cdArray" cdArray = Ok cds ->
  resolveDistricts cdArray = Ok keys ->
  NoDup keys /\
  (forall k, In k keys <-> exists cd, In cd cds /\ keyOf cd = Ok (Some k)).
Proof.
  intros Hiter Hres. unfold resolveDistricts in Hres. rewrite Hiter in Hres.
  cbn [bind] in Hres.
  destruct (foldM_cdStep cds [] keys Hres (NoDup_nil _)) as [Hnd Hin].
  split; [exact Hnd|]. intros k. rewrite Hin. split; [intros [[]|H]; exact H|now right].
Qed.






(* ================================================================= *)
(** ** The keys of the extraction *)

Lemma FIPS_values_plain (st : string) :
  isPostal st = true -> noDash st = true /\ isEmpty st = false /\ String.length st = 2%nat.
Proof.
  unfold isPostal. intros H. apply existsb_eqb_In in H.
  assert (F : Forall (fun st => noDash st = true /\ isEmpty st = false
                                /\ String.length st = 2%nat)
                (map snd FIPS_TO_STATE)) by (repeat constructor).
  rewrite Forall_forall in F. exact (F _ H).
Qed.

Lemma member_texts_plain (st : string) :
  isMemberText st = true -> noDash st = true /\ isEmpty st = false.
Proof.
  unfold isMemberText. intros H. apply existsb_eqb_In in H.
  assert (F : Forall (fun st => noDash st = true /\ isEmpty st = false)
                (map (fun km => memberText (snd km)) Object_prototype))
    by (repeat constructor).
  rewrite Forall_forall in F. exact (F _ H).
Qed.

Lemma atLargeDefault_range (districtNum : option string) :
  isEmpty (atLargeDefault districtNum) = false /\ atLargeDefault districtNum <> "0".
Proof.
  unfold atLargeDefault. destruct districtNum as [d|]; [|split; [reflexivity|discriminate]].
  destruct (isEmpty d) eqn:He; cbn [orb]; [split; [reflexivity|discriminate]|].
  destruct (String.eqb_spec d "0") as [E|E]; [split; [reflexivity|discriminate]|].
  split; [exact He|exact E].
Qed.

(** The state of line 318 is a postal code of the table or the text of
    an inherited member. *)
Lemma stateOfFips_range (fips : option string) (st : string) :
  stateOfFips fips = Some st -> isPostal st = true \/ isMemberText st = true.
Proof.
  unfold stateOfFips. destruct fips as [code|]; [|discriminate].
  destruct (isEmpty code); [discriminate|].
  destruct (assoc code FIPS_TO_STATE) as [st'|] eqn:E.
  - destruct (isEmpty st'); [discriminate|]. intros [= <-]. left.
    unfold isPostal. apply existsb_eqb_In. apply assoc_in in E.
    apply in_map_iff. now exists (code, st').
  - destruct (assoc code Object_prototype) as [member|] eqn:Em; [|discriminate].
    intros [= <-]. right. unfold isMemberText. apply existsb_eqb_In.
    apply assoc_in in Em. apply in_map_iff. now exists (code, member).
Qed.

Lemma keyOf_shape (cd : JsVal) (key : string) :
  keyOf cd = Ok (Some key) ->
  exists st d,
    key = st ++ "-" ++ d /\ (isPostal st = true \/ isMemberText st = true) /\
    noDash st = true /\ isEmpty d = false /\ d <> "0".
Proof.
  unfold keyOf. destruct (districtNumOf cd) as [dn|e]; [|discriminate]. cbn [bind].
  destruct (stateFipsOf cd) as [f|e]; [|discriminate]. cbn [bind].
  destruct (stateOfFips f) as [st|] eqn:Hst; [|discriminate]. intros [= <-].
  exists st, (atLargeDefault dn). split; [reflexivity|].
  destruct (atLargeDefault_range dn) as [Hne Hnz].
  pose proof (stateOfFips_range f st Hst) as Hr. split; [exact Hr|].
  split; [|split; assumption].
  destruct Hr as [Hp|Hm]; [now apply FIPS_values_plain|now apply member_texts_plain].
Qed.

Lemma extraction_keys_shape (cdArray : JsVal) (keys : list string) (k : string) :
  resolveDistricts cdArray = Ok keys -> In k keys ->
  exists st d,
    k = st ++ "-" ++ d /\ (isPostal st = true \/ isMemberText st = true) /\
    noDash st = true /\ isEmpty d = false /\ d <> "0".
Proof.
  intros Hres Hin. unfold resolveDistricts in Hres.
  destruct (iter "cdArray" cdArray) as [cds|e]; [|discriminate]. cbn [bind] in Hres.
  destruct (foldM_cdStep cds [] keys Hres (NoDup_nil _)) as [_ Hmem].
  apply Hmem in Hin as [[]|(cd & _ & Hk)]. now apply keyOf_shape with (cd := cd).
Qed.

Lemma split_dash_plain (d : string) : noDash d = true -> split_dash d = [d].
Proof.
  induction d as [|c r IH]; simpl; [reflexivity|]. intros H.
  apply andb_true_iff in H as [Hc Hr]. apply negb_true_iff in Hc.
  now rewrite Hc, (IH Hr).
Qed.

Lemma split_dash_head (st d : string) :
  noDash st = true -> split_dash (st ++ "-" ++ d) = st :: split_dash d.
Proof.
  intros Hst. change (st ++ "-" ++ d) with (st ++ String "-" d).
  induction st as [|c r IH]; cbn [append split_dash].
  - reflexivity.
  - cbn [noDash allChars] in Hst. apply andb_true_iff in Hst as [Hc Hr].
    apply negb_true_iff in Hc. now rewrite Hc, (IH Hr).
Qed.

Lemma split_dash_key (st d : string) :
  noDash st = true -> noDash d = true -> split_dash (st ++ "-" ++ d) = [st; d].
Proof. intros Hst Hd. now rewrite (split_dash_head st d Hst), (split_dash_plain d Hd). Qed.

Lemma noDash_count (s : string) : noDash s = true <-> countDash s = 0%nat.
Proof.
  induction s as [|c r IH]; cbn [noDash allChars countDash]; [tauto|].
  fold (noDash r). destruct (Ascii.eqb c "-"); cbn [negb andb]; [|exact IH].
  split; discriminate.
Qed.

Lemma countDash_key (st d : string) :
  countDash (st ++ "-" ++ d) = (countDash st + S (countDash d))%nat.
Proof.
  change (st ++ "-" ++ d) with (st ++ String "-" d).
  induction st as [|c r IH]; cbn [append countDash]; [reflexivity|].
  destruct (Ascii.eqb c "-"); rewrite IH; reflexivity.
Qed.

(** A key with one hyphen only has a district without a hyphen. *)
Lemma one_dash_district (st d : string) :
  noDash st = true -> countDash (st ++ "-" ++ d) = 1%nat -> noDash d = true.
Proof.
  intros Hst H. rewrite countDash_key in H. apply noDash_count in Hst.
  apply noDash_count. lia.
Qed.



(* ================================================================= *)
(** ** The resolution service *)


Lemma resolveOne_parts (index : list (string * JsVal)) (k : string) (r : JsVal) :
  resolveOne index k = Ok r ->
  get_opt r "state" = part 0 (split_dash k) /\
  get_opt r "district" = part 1 (split_dash k).
Proof.
  unfold resolveOne. destruct (truthy (entryAt index k)) eqn:Hrep.
  - rewrite !(get_defined _ _ (truthy_not_nullish _ Hrep)). cbn [bind].
    destruct (truthy (get_opt (entryAt index k) "bioguide")).
    + destruct (ToString (get_opt (entryAt index k) "bioguide")); cbn [bind];
        [|discriminate]. intros [= <-]. split; reflexivity.
    + cbn [bind]. intros [= <-]. split; reflexivity.
  - intros [= <-]. split; reflexivity.
Qed.

(** The join throws on a key only when the key has an entry whose
    bioguide has no text. *)
Lemma resolveOne_throws (index : list (string * JsVal)) (k err : string) :
  resolveOne index k = Throw err ->
  exists entry,
    assoc k index = Some entry /\
    truthy (get_opt entry "bioguide") = true /\ plain (get_opt entry "bioguide") = false.
Proof.
  unfold resolveOne. destruct (truthy (entryAt index k)) eqn:Hrep; [|discriminate].
  rewrite !(get_defined _ _ (truthy_not_nullish _ Hrep)). cbn [bind].
  destruct (truthy (get_opt (entryAt index k) "bioguide")) eqn:Hb; [|discriminate].
  destruct (ToString (get_opt (entryAt index k) "bioguide")) as [s|e] eqn:Hs; cbn [bind];
    [discriminate|]. intros _. apply ToString_throws in Hs.
  unfold entryAt in *. destruct (assoc k index) as [entry|]; [now exists entry|].
  destruct (assoc k Object_prototype) as [[name|]|]; discriminate.
Qed.


Lemma resolveRepresentatives_each (index : list (string * JsVal)) (keys : list string) :
  forall reps,
    resolveRepresentatives index keys = Ok reps ->
    Forall2 (fun k r => resolveOne index k = Ok r) keys reps.
Proof.
  induction keys as [|k rest IH]; intros reps; cbn [resolveRepresentatives].
  - intros [= <-]. constructor.
  - destruct (resolveOne index k) as [r|e] eqn:Hr; [|discriminate]. cbn [bind].
    destruct (resolveRepresentatives index rest) as [rs|e]; [|discriminate]. cbn [bind].
    intros [= <-]. constructor; [exact Hr|now apply IH].
Qed.

Lemma resolveRepresentatives_throws (index : list (string * JsVal)) (keys : list string)
    (err : string) :
  resolveRepresentatives index keys = Throw err ->
  exists k, In k keys /\ resolveOne index k = Throw err.
Proof.
  induction keys as [|k rest IH]; cbn [resolveRepresentatives]; [discriminate|].
  destruct (resolveOne index k) as [r|e] eqn:Hr; cbn [bind].
  - destruct (resolveRepresentatives index rest) as [rs|e]; [discriminate|]. cbn [bind].
    intros [= ->]. destruct (IH eq_refl) as (k' & Hin & Hk'). exists k'. split; [now right|auto].
  - intros [= ->]. exists k. split; [now left|exact Hr].
Qed.


(** The record of a key of the extraction carries the state of the
    key, and its district when that holds no hyphen. *)
Lemma resolveOne_carries (index : list (string * JsVal)) (st d : string) (r : JsVal) :
  noDash st = true ->
  resolveOne index (st ++ "-" ++ d) = Ok r ->
  get_opt r "state" = VStr st /\ (noDash d = true -> get_opt r "district" = VStr d).
Proof.
  intros Hst Hr. destruct (resolveOne_parts _ _ _ Hr) as [-> ->].
  rewrite (split_dash_head st d Hst). split; [reflexivity|].
  intros Hd. now rewrite (split_dash_plain d Hd).
Qed.




Lemma Forall2_NoDup {A B} (R : A -> B -> Prop) (xs : list A) (ys : list B) :
  (forall x x' y, R x y -> R x' y -> x = x') ->
  Forall2 R xs ys -> NoDup xs -> NoDup ys.
Proof.
  intros Hinj H. induction H as [|x y xs ys Hxy Hrest IH]; intros Hnd; [constructor|].
  inversion Hnd as [|? ? Hnotin Hnd']; subst. constructor; [|now apply IH].
  intros Hin. apply Hnotin. clear IH Hnd Hnd' Hnotin.
  induction Hrest as [|x' y' xs ys Hx'y' Hrest IH]; [destruct Hin|].
  destruct Hin as [->|Hin]; [left; now apply (Hinj x' x y)|right; now apply IH].
Qed.

Lemma Forall2_impl {A B} (R S : A -> B -> Prop) (xs : list A) (ys : list B) :
  (forall x y, In x xs -> R x y -> S x y) -> Forall2 R xs ys -> Forall2 S xs ys.
Proof.
  intros Himp H. induction H as [|x y xs ys Hxy Hrest IH]; constructor.
  - apply Himp; [now left|exact Hxy].
  - apply IH. intros x' y' Hin. apply Himp. now right.
Qed.

Lemma carries_one_key (k k' : string) (r : JsVal) :
  countDash k = 1%nat -> countDash k' = 1%nat -> carries k r -> carries k' r -> k = k'.
Proof.
  intros Hk Hk' (st & d & -> & Hst & Hs & Hd) (st' & d' & -> & Hst' & Hs' & Hd').
  rewrite Hs in Hs'. injection Hs' as <-.
  rewrite (Hd (one_dash_district st d Hst Hk)) in Hd'.
  specialize (Hd' (one_dash_district st d' Hst' Hk')). now injection Hd' as <-.
Qed.

(** The answer of the handler when the extraction gives keys. *)
Lemma apiRep_found (index : list (string * JsVal)) (zip : string) (centroid : JsVal)
    (fs : list (string * JsVal)) (cdArray : JsVal) (keys : list string)
    (reps : list JsVal) :
  locateDistricts (VObj fs) = Ok cdArray ->
  noDistricts cdArray = Ok false ->
  resolveDistricts cdArray = Ok keys ->
  keys <> [] ->
  resolveRepresentatives index keys = Ok reps ->
  apiRep index zip centroid (VObj [("result", VObj [("geographies", VObj fs)])]) =
    Status 200 (VObj [("zip", VStr zip); ("centroid", centroid);
                      ("districts", VArr (map VStr keys));
                      ("representatives", VArr reps)]).
Proof.
  intros Hloc Hsome Hkeys Hne Hreps. unfold apiRep.
  change (get_opt (get_opt (VObj [("result", VObj [("geographies", VObj fs)])]) "result")
            "geographies") with (VObj fs).
  cbn [or_chain bind truthy negb]. rewrite Hloc. cbn [bind]. rewrite Hsome, Hkeys.
  cbn [bind]. destruct keys as [|k rest]; [contradiction|].
  cbn [List.length Nat.eqb]. now rewrite Hreps.
Qed.

Lemma apiRep_failed (index : list (string * JsVal)) (zip : string) (centroid : JsVal)
    (fs : list (string * JsVal)) (cdArray : JsVal) (keys : list string) (err : string) :
  locateDistricts (VObj fs) = Ok cdArray ->
  noDistricts cdArray = Ok false ->
  resolveDistricts cdArray = Ok keys ->
  keys <> [] ->
  resolveRepresentatives index keys = Throw err ->
  apiRep index zip centroid (VObj [("result", VObj [("geographies", VObj fs)])]) =
    Status 500 (VObj [("error", VStr "Lookup failed"); ("details", VStr err)]).
Proof.
  intros Hloc Hsome Hkeys Hne Hreps. unfold apiRep.
  change (get_opt (get_opt (VObj [("result", VObj [("geographies", VObj fs)])]) "result")
            "geographies") with (VObj fs).
  cbn [or_chain bind truthy negb]. rewrite Hloc. cbn [bind]. rewrite Hsome, Hkeys.
  cbn [bind]. destruct keys as [|k rest]; [contradiction|].
  cbn [List.length Nat.eqb]. now rewrite Hreps.
Qed.

(** C9, as amended.  The key set of the extraction holds no key twice
    and holds exactly the keys the district objects give.  When the join
    completes it answers with one record per key of the set, in the
    order of the set, each carrying the state of its key, and its
    district when that holds no hyphen, so that no record comes twice
    when every key has one hyphen only; these are the [districts] and
    the [representatives] of the answer.  The join throws only when a
    key has an entry whose bioguide has no text, and the answer is then
    500 with no record at all. *)
Theorem C9_one_record_per_key (index : list (string * JsVal)) (cdArray : JsVal)
    (cds : list JsVal) (keys : list string) :
  iter "cdArray" cdArray = Ok cds ->
  resolveDistricts cdArray = Ok keys ->
  NoDup keys /\
  (forall k, In k keys <-> exists cd, In cd cds /\ keyOf cd = Ok (Some k)) /\
  (forall reps,
     resolveRepresentatives index keys = Ok reps ->
     List.length reps = List.length keys /\
     Forall2 (fun k r => resolveOne index k = Ok r /\ carries k r) keys reps /\
     (forallb (fun k => (countDash k =? 1)%nat) keys = true -> NoDup reps) /\
     (forall zip centroid fs,
        locateDistricts (VObj fs) = Ok cdArray ->
        noDistricts cdArray = Ok false ->
        keys <> [] ->
        apiRep index zip centroid (VObj [("result", VObj [("geographies", VObj fs)])]) =
          Status 200 (VObj [("zip", VStr zip); ("centroid", centroid);
                            ("districts", VArr (map VStr keys));
                            ("representatives", VArr reps)]))) /\
  (forall err,
     resolveRepresentatives index keys = Throw err ->
     (exists k entry,
        In k keys /\ assoc k index = Some entry /\
        truthy (get_opt entry "bioguide") = true /\
        plain (get_opt entry "bioguide") = false) /\
     (forall zip centroid fs,
        locateDistricts (VObj fs) = Ok cdArray ->
        noDistricts cdArray = Ok false ->
        keys <> [] ->
        apiRep index zip centroid (VObj [("result", VObj [("geographies", VObj fs)])]) =
          Status 500 (VObj [("error", VStr "Lookup failed"); ("details", VStr err)]))).
Proof.
  intros Hiter Hres.
  destruct (resolveDistricts_keys cdArray cds keys Hiter Hres) as [Hnd Hin].
  split; [exact Hnd|]. split; [exact Hin|]. split.
  - intros reps Hreps.
    pose proof (resolveRepresentatives_each index keys reps Hreps) as Hall.
    assert (Hcar : Forall2 (fun k r => resolveOne index k = Ok r /\ carries k r) keys reps).
    { apply (Forall2_impl (fun k r => resolveOne index k = Ok r)); [|exact Hall].
      intros k r Hk Hr. split; [exact Hr|].
      destruct (extraction_keys_shape cdArray keys k Hres Hk)
        as (st & d & -> & _ & Hst & _).
      exists st, d. split; [reflexivity|]. split; [exact Hst|].
      now apply resolveOne_carries with (index := index). }
    split; [symmetry; exact (Forall2_length Hall)|]. split; [exact Hcar|]. split.
    + intros Hone. rewrite forallb_forall in Hone.
      apply (Forall2_NoDup (fun k r => countDash k = 1%nat /\ carries k r) keys reps);
        [| |exact Hnd].
      * intros k k' r [Hk Hc] [Hk' Hc']. now apply (carries_one_key k k' r).
      * apply (Forall2_impl (fun k r => resolveOne index k = Ok r /\ carries k r));
          [|exact Hcar].
        intros k r Hk [_ Hc]. split; [|exact Hc]. apply Nat.eqb_eq. now apply Hone.
    + intros zip centroid fs Hloc Hsome Hne.
      now apply apiRep_found with (cdArray := cdArray).
  - intros err Hthrow. split.
    + destruct (resolveRepresentatives_throws index keys err Hthrow) as (k & Hk & Hr).
      destruct (resolveOne_throws index k err Hr) as (entry & He & Ht & Hp).
      now exists k, entry.
    + intros zip centroid fs Hloc Hsome Hne.
      now apply apiRep_failed with (cdArray := cdArray) (keys := keys).
Qed.

Lemma C9_witness :
  iter "cdArray" (VArr [Samples.district12; Samples.atLarge; Samples.district12]) =
    Ok [Samples.district12; Samples.atLarge; Samples.district12] /\
  resolveDistricts (VArr [Samples.district12; Samples.atLarge; Samples.district12]) =
    Ok ["CA-12"; "AK-1"] /\
  NoDup ["CA-12"; "AK-1"] /\
  exists reps,
    resolveRepresentatives (INDEX Samples.running) ["CA-12"; "AK-1"] = Ok reps /\
    List.length reps = 2%nat /\ NoDup reps.
Proof.
  split; [reflexivity|]. split; [reflexivity|].
  destruct (C9_one_record_per_key (INDEX Samples.running)
              (VArr [Samples.district12; Samples.atLarge; Samples.district12])
              [Samples.district12; Samples.atLarge; Samples.district12]
              ["CA-12"; "AK-1"] eq_refl eq_refl) as (Hnd & _ & Hjoin & _).
  split; [exact Hnd|]. eexists. split; [reflexivity|].
  destruct (Hjoin _ eq_refl) as (Hlen & _ & Hdup & _). split; [exact Hlen|].
  apply Hdup. reflexivity.
Defined.

(** C9 as stated fails on the keys of an extraction of which one has an
    entry with a bioguide without a text: the join throws and gives no
    record for any key.  Two keys whose districts are below zero get the
    same record. *)
Lemma C9_counterexample :
  buildIndex IsoDate.parse Samples.today (VArr [Samples.masked])
    = Ok [("CA-12", Samples.maskedEntry)] /\
  resolveDistricts (VArr [Samples.district12; Samples.atLarge]) = Ok ["CA-12"; "AK-1"] /\
  resolveRepresentatives [("CA-12", Samples.maskedEntry)] ["CA-12"; "AK-1"]
    = Throw noPrimitive /\
  resolveDistricts (VArr [Samples.below "-3"; Samples.below "-4"]) = Ok ["CA--3"; "CA--4"] /\
  resolveRepresentatives [] ["CA--3"; "CA--4"]
    = Ok [placeholder (VStr "CA") (VStr ""); placeholder (VStr "CA") (VStr "")].
Proof. repeat split. Qed.

(** X7.  Every key of the extraction is a state, a hyphen and a district
    that is neither empty nor ["0"]; the state holds no hyphen and is a
    postal code of the FIPS table or, for a code that is the name of an
    inherited member, the text of that member; the record the join gives
    for the key, found or missing, carries that state. *)
Theorem extracted_keys_carry_state (cdArray : JsVal) (keys : list string) (k : string) :
  resolveDistricts cdArray = Ok keys ->
  In k keys ->
  exists st d,
    k = st ++ "-" ++ d /\ (isPostal st = true \/ isMemberText st = true) /\
    noDash st = true /\ isEmpty d = false /\ d <> "0" /\
    forall index r, resolveOne index k = Ok r -> get_opt r "state" = VStr st.
Proof.
  intros Hres Hin.
  destruct (extraction_keys_shape cdArray keys k Hres Hin)
    as (st & d & -> & Hr & Hst & Hne & Hnz).
  exists st, d. repeat (split; [assumption || reflexivity|]).
  intros index r Hrec. now destruct (resolveOne_carries index st d r Hst Hrec).
Qed.

Lemma extracted_keys_carry_state_witness :
  resolveDistricts (VArr [Samples.district12; Samples.inheritedState])
    = Ok ["CA-12"; "function Object() { [native code] }-4"] /\
  exists st d,
    "function Object() { [native code] }-4" = st ++ "-" ++ d /\
    (isPostal st = true \/ isMemberText st = true) /\
    forall r, resolveOne [] "function Object() { [native code] }-4" = Ok r ->
              get_opt r "state" = VStr st.
Proof.
  split; [reflexivity|].
  destruct (extracted_keys_carry_state (VArr [Samples.district12; Samples.inheritedState])
              ["CA-12"; "function Object() { [native code] }-4"]
              "function Object() { [native code] }-4" eq_refl
              (or_intror (or_introl eq_refl)))
    as (st & d & Hk & Hr & _ & _ & _ & Hstate).
  exists st, d. split; [exact Hk|]. split; [exact Hr|]. intros r. apply Hstate.
Defined.

Lemma foldM_cdStep_each (cds : list JsVal) :
  forall acc keys,
    foldM cdStep cds acc = Ok keys ->
    forall cd, In cd cds -> exists k, keyOf cd = Ok k.
Proof.
  induction cds as [|cd0 rest IH]; intros acc keys; cbn [foldM]; [intros _ cd []|].
  unfold cdStep at 1. destruct (keyOf cd0) as [k0|e] eqn:Hk; [|discriminate]. cbn [bind].
  intros Hfold cd [<-|Hin]; [now exists k0|].
  destruct k0; eapply IH; eauto.
Qed.

Lemma foldM_cdStep_known (extra : list JsVal) (keys : list string) :
  (forall cd, In cd extra ->
     keyOf cd = Ok None \/ exists k, keyOf cd = Ok (Some k) /\ In k keys) ->
  foldM cdStep extra keys = Ok keys.
Proof.
  induction extra as [|cd rest IH]; intros H; cbn [foldM]; [reflexivity|].
  unfold cdStep at 1.
  destruct (H cd (or_introl eq_refl)) as [->|(k & -> & Hin)]; cbn [bind].
  - apply IH. intros cd' Hcd'. apply H. now right.
  - rewrite (addKey_present k keys Hin). apply IH. intros cd' Hcd'. apply H. now right.
Qed.

(** X8.  The key set has the semantics of a set: district objects that
    are met again later in the collection change nothing, neither the
    keys nor their order, nor whether the extraction completes. *)
Theorem extraction_ignores_repeats (cds extra : list JsVal) :
  (forall cd, In cd extra -> In cd cds) ->
  resolveDistricts (VArr (cds ++ extra)) = resolveDistricts (VArr cds).
Proof.
  intros Hsub. unfold resolveDistricts. cbn [iter bind]. rewrite foldM_app.
  destruct (foldM cdStep cds []) as [keys|e] eqn:Hfold; [|reflexivity]. cbn [bind].
  apply foldM_cdStep_known. intros cd Hcd. apply Hsub in Hcd.
  destruct (foldM_cdStep_each cds [] keys Hfold cd Hcd) as [[k|] Hk]; [right|now left].
  exists k. split; [exact Hk|].
  apply (proj2 (foldM_cdStep cds [] keys Hfold (NoDup_nil _))). right. now exists cd.
Qed.

Lemma extraction_ignores_repeats_witness :
  resolveDistricts
    (VArr [Samples.district12; Samples.atLarge; Samples.atLarge; Samples.district12])
  = Ok ["CA-12"; "AK-1"].
Proof.
  change (resolveDistricts
            (VArr ([Samples.district12; Samples.atLarge]
                   ++ [Samples.atLarge; Samples.district12])%list)
          = Ok ["CA-12"; "AK-1"]).
  rewrite (extraction_ignores_repeats [Samples.district12; Samples.atLarge]
             [Samples.atLarge; Samples.district12]).
  - reflexivity.
  - intros cd [<-|[<-|[]]]; [right; now left|now left].
Defined.

(* ================================================================= *)
(** ** When the extraction completes *)

Lemma field_plain (fs : list (string * JsVal)) (k : string) :
  forallb (fun kv => plain (snd kv)) fs = true -> completes (ToString (field fs k)).
Proof.
  intros H. apply ToString_plain. unfold field.
  destruct (assoc k fs) as [v|] eqn:E; [|reflexivity].
  apply assoc_in in E. rewrite forallb_forall in H. exact (H _ E).
Qed.

Lemma trailingNumber_completes (v : JsVal) :
  completes (ToString v) -> completes (trailingNumber v).
Proof.
  intros [s Hs]. unfold trailingNumber. rewrite Hs. cbn [bind].
  destruct (match_trailing_digits s); apply completes_Ok.
Qed.

Lemma scanFields_completes (fs : list (string * JsVal)) (keys : list string) :
  forallb (fun kv => plain (snd kv)) fs = true -> completes (scanFields (VObj fs) keys).
Proof.
  intros Hfs. induction keys as [|k rest [d IH]]; cbn [scanFields]; [apply completes_Ok|].
  rewrite get_obj. cbn [bind]. destruct (field_plain fs k Hfs) as [s Hs].
  unfold ruleCD, ruleName. rewrite Hs.
  destruct (test_cd_key k && truthy (field fs k)); cbn [bind]; [apply completes_Ok|].
  destruct (includes (toLowerCase k) "name" && truthy (field fs k)); cbn [bind];
    [|now exists d].
  destruct (test_ci "district" s); cbn [bind]; [|now exists d].
  destruct (trailingNumber_completes (field fs k)) as [[m|] ->]; [now exists s| |];
    cbn [bind]; [apply completes_Ok|now exists d].
Qed.

Lemma keyOf_readable (cd : JsVal) : readable cd = true -> completes (keyOf cd).
Proof.
  destruct cd as [| |b|n|s|xs|fs]; try discriminate. cbn [readable]. intros Hfs.
  unfold keyOf, districtNumOf. cbn [Object_keys nullish own_props bind].
  destruct (scanFields_completes fs (map fst fs) Hfs) as [d ->]. cbn [bind].
  assert (D : completes
                (if unset d
                 then name <- get (VObj fs) "NAME" ;;
                      (if truthy name
                       then m <- trailingNumber name ;;
                            match m with
                            | Some d0 => Ok (Some d0)
                            | None => Ok d
                            end
                       else Ok d)
                 else Ok d)).
  { destruct (unset d); [|apply completes_Ok]. rewrite get_obj. cbn [bind].
    destruct (truthy (field fs "NAME")); [|apply completes_Ok].
    destruct (trailingNumber_completes (field fs "NAME") (field_plain fs "NAME" Hfs))
      as [[m|] ->]; cbn [bind]; apply completes_Ok. }
  destruct D as [dn ->]. cbn [bind]. unfold stateFipsOf. cbn [or_chain].
  rewrite !get_obj. cbn [bind].
  assert (S : forall v, completes (ToString v) ->
                completes ((if truthy v then s <- ToString v ;; Ok (Some (padStart2 s))
                            else Ok None) : Result (option string))).
  { intros v [s Hs]. rewrite Hs. destruct (truthy v); apply completes_Ok. }
  assert (K : forall f : Result (option string), completes f ->
                completes (stateFips <- f ;;
                           match stateOfFips stateFips with
                           | Some st => Ok (Some (st ++ "-" ++ atLargeDefault dn))
                           | None => Ok None
                           end)).
  { intros f [x ->]. cbn [bind]. destruct (stateOfFips x); apply completes_Ok. }
  destruct (truthy (field fs "STATE")) eqn:H1; cbn [bind].
  { apply K. rewrite <- H1. apply S. now apply field_plain. }
  destruct (truthy (field fs "STATEFP")) eqn:H2; cbn [bind].
  { apply K. rewrite <- H2. apply S. now apply field_plain. }
  destruct (truthy (field fs "GEOID")) eqn:H3; cbn [bind].
  - destruct (field_plain fs "GEOID" Hfs) as [s ->]. cbn [bind].
    apply K. apply S. apply completes_Ok.
  - apply K. rewrite H3. apply completes_Ok.
Qed.

Lemma keyOf_nullish (cd : JsVal) : nullish cd = true -> ~ completes (keyOf cd).
Proof.
  intros Hcd [k Hk]. unfold keyOf, districtNumOf, Object_keys in Hk.
  rewrite Hcd in Hk. discriminate.
Qed.

Lemma foldM_cdStep_completes (cds : list JsVal) :
  forall acc,
    completes (foldM cdStep cds acc) <-> forall cd, In cd cds -> completes (keyOf cd).
Proof.
  induction cds as [|cd rest IH]; intros acc; cbn [foldM].
  - split; [intros _ cd []|intros _; apply completes_Ok].
  - unfold cdStep at 1. destruct (keyOf cd) as [k|e] eqn:Hk; cbn [bind].
    + assert (R : forall acc', completes (foldM cdStep rest acc') <->
                    forall cd', In cd' (cd :: rest) -> completes (keyOf cd')).
      { intros acc'. rewrite IH. split.
        - intros H cd' [<-|Hin]; [rewrite Hk; apply completes_Ok|now apply H].
        - intros H cd' Hin. apply H. now right. }
      destruct k; apply R.
    + split; [intros H; now apply not_completes_Throw in H|].
      intros H. specialize (H cd (or_introl eq_refl)). rewrite Hk in H.
      now apply not_completes_Throw in H.
Qed.

(** X9.  The extraction completes exactly when every object of the
    collection gives a key or is passed over; it does on a collection
    of records whose values all have a text, and it throws as soon as
    one element is [null] or [undefined], whatever the other elements
    are. *)
Theorem extraction_completes (cds : list JsVal) :
  (completes (resolveDistricts (VArr cds)) <->
   forall cd, In cd cds -> completes (keyOf cd)) /\
  (forallb readable cds = true -> completes (resolveDistricts (VArr cds))) /\
  (forall cd, In cd cds -> nullish cd = true ->
     ~ completes (resolveDistricts (VArr cds))).
Proof.
  unfold resolveDistricts. cbn [iter bind].
  split; [apply foldM_cdStep_completes|]. split.
  - intros H. apply foldM_cdStep_completes. intros cd Hin.
    apply keyOf_readable. rewrite forallb_forall in H. now apply H.
  - intros cd Hin Hnull Hc.
    apply (keyOf_nullish cd Hnull).
    exact (proj1 (foldM_cdStep_completes cds []) Hc cd Hin).
Qed.

Lemma extraction_completes_witness :
  completes (resolveDistricts (VArr [Samples.district12; Samples.unknownState])) /\
  ~ completes (resolveDistricts (VArr [Samples.district12; VNull])).
Proof.
  split.
  - apply (proj1 (proj2 (extraction_completes [Samples.district12; Samples.unknownState]))).
    reflexivity.
  - apply (proj2 (proj2 (extraction_completes [Samples.district12; VNull])) VNull).
    + right. now left.
    + reflexivity.
Defined.

(* ================================================================= *)
(** ** The index builder: the candidate lists *)

Section BuilderFacts.

Variable Date_parse : string -> JsNum.
Variable today : Z.

Lemma dateOf_completes (field : JsVal) :
  completes (dateOf Date_parse field) <-> plain field = true.
Proof.
  unfold dateOf. destruct (truthy field) eqn:Ht.
  - rewrite completes_map.
    destruct field as [| |b|n|s|xs|fs]; cbn [new_Date];
      try (split; [reflexivity|intros _; apply completes_Ok]);
      rewrite completes_map; apply ToString_plain.
  - rewrite (falsy_plain _ Ht). split; [reflexivity|intros _; apply completes_Ok].
Qed.

(** What the body of the inner loop computes when it completes. *)
Lemma termCandidate_inv (p t : JsVal) (key : string) (c : Candidate) :
  termCandidate Date_parse today p t = Ok (key, c) ->
  nullish t = false /\
  exists st d s e,
    ToString (get_opt t "state") = Ok st /\
    normDistrict (get_opt t "district") = Ok d /\
    dateOf Date_parse (get_opt t "start") = Ok s /\
    dateOf Date_parse (get_opt t "end") = Ok e /\
    key = st ++ "-" ++ d /\
    c = {| person := p; term := t; isCurrent := currentAt today s e;
           start := match s with Some x => x | None => Num 0 end |}.
Proof.
  unfold termCandidate. destruct (nullish t) eqn:Ht.
  { rewrite (get_nullish _ _ Ht). discriminate. }
  rewrite !(get_defined _ _ Ht). cbn [bind].
  destruct (normDistrict (get_opt t "district")) as [d|e1]; [|discriminate]. cbn [bind].
  destruct (dateOf Date_parse (get_opt t "start")) as [s|e2]; [|discriminate]. cbn [bind].
  destruct (dateOf Date_parse (get_opt t "end")) as [e|e3]; [|discriminate]. cbn [bind].
  destruct (ToString (get_opt t "state")) as [st|e4]; [|discriminate]. cbn [bind].
  intros [= <- <-]. split; [reflexivity|]. exists st, d, s, e. repeat split.
Qed.

Lemma termCandidate_fields (p t : JsVal) (key : string) (c : Candidate) :
  termCandidate Date_parse today p t = Ok (key, c) -> person c = p /\ term c = t.
Proof.
  intros H. destruct (termCandidate_inv p t key c H)
    as (_ & st & d & s & e & _ & _ & _ & _ & _ & ->). split; reflexivity.
Qed.

(** The body of the inner loop completes exactly on a term that has
    properties and whose state, district, start and end have a text. *)
Lemma termCandidate_completes (p t : JsVal) :
  completes (termCandidate Date_parse today p t) <->
  nullish t = false /\ termSound t = true.
Proof.
  split.
  - intros [[key c] H].
    destruct (termCandidate_inv p t key c H)
      as (Ht & st & d & s & e & Hst & Hd & Hs & He & _).
    split; [exact Ht|]. unfold termSound.
    rewrite (proj1 (ToString_plain _) (ex_intro _ st Hst)).
    rewrite (proj1 (normDistrict_completes _) (ex_intro _ d Hd)).
    rewrite (proj1 (dateOf_completes _) (ex_intro _ s Hs)).
    now rewrite (proj1 (dateOf_completes _) (ex_intro _ e He)).
  - intros [Ht Hs]. unfold termSound in Hs.
    apply andb_true_iff in Hs as [Hs H4]. apply andb_true_iff in Hs as [Hs H3].
    apply andb_true_iff in Hs as [H1 H2].
    apply ToString_plain in H1 as [st Hst]. apply normDistrict_completes in H2 as [d Hd].
    apply dateOf_completes in H3 as [s Hs']. apply dateOf_completes in H4 as [e He].
    unfold termCandidate. rewrite !(get_defined _ _ Ht). cbn [bind].
    rewrite Hd. cbn [bind]. rewrite Hs'. cbn [bind]. rewrite He. cbn [bind].
    rewrite Hst. cbn [bind]. apply completes_Ok.
Qed.

Lemma filterM_isRep (ts : list JsVal) :
  forallb (fun t => negb (nullish t)) ts = true ->
  filterM isRep ts = Ok (filter (fun t => is_str (get_opt t "type") "rep") ts).
Proof.
  induction ts as [|t rest IH]; cbn [filterM forallb filter]; [reflexivity|]. intros H.
  apply andb_true_iff in H as [Ht Hr]. apply negb_true_iff in Ht.
  unfold isRep at 1. rewrite (get_defined _ _ Ht). cbn [bind]. now rewrite (IH Hr).
Qed.

Lemma filterM_isRep_inv (ts kept : list JsVal) :
  filterM isRep ts = Ok kept ->
  forallb (fun t => negb (nullish t)) ts = true.
Proof.
  revert kept. induction ts as [|t rest IH]; cbn [filterM forallb]; intros kept;
    [reflexivity|].
  destruct (nullish t) eqn:Ht.
  - unfold isRep. rewrite (get_nullish _ _ Ht). discriminate.
  - unfold isRep at 1. rewrite (get_defined _ _ Ht). cbn [bind negb andb].
    destruct (filterM isRep rest) as [kept'|e] eqn:E; [|discriminate].
    intros _. now apply (IH kept').
Qed.

Lemma repTerms_ok (p : JsVal) :
  personOk p = true -> repTerms p = Ok (houseTerms p).
Proof.
  unfold personOk, repTerms, houseTerms, termsOk. intros H.
  apply andb_true_iff in H as [Hp Ht]. apply negb_true_iff in Hp.
  cbn [or_chain]. rewrite (get_defined _ _ Hp). cbn [bind].
  destruct (truthy (get_opt p "terms")) eqn:Htr.
  - destruct (get_opt p "terms"); try discriminate. now apply filterM_isRep.
  - cbn [bind filterM]. destruct (get_opt p "terms"); try reflexivity. discriminate.
Qed.

Lemma repTerms_inv (p : JsVal) (ts : list JsVal) :
  repTerms p = Ok ts -> personOk p = true /\ ts = houseTerms p.
Proof.
  intros H. assert (Hok : personOk p = true).
  { unfold personOk, termsOk. unfold repTerms in H. cbn [or_chain] in H.
    destruct (nullish p) eqn:Hp; [rewrite (get_nullish _ _ Hp) in H; discriminate|].
    rewrite (get_defined _ _ Hp) in H. cbn [bind negb andb] in H |- *.
    destruct (truthy (get_opt p "terms")) eqn:Htr; [|reflexivity].
    cbn [bind] in H. destruct (get_opt p "terms"); try discriminate.
    now apply (filterM_isRep_inv _ ts). }
  split; [exact Hok|]. rewrite (repTerms_ok p Hok) in H. now injection H.
Qed.

Lemma personOk_defined (p : JsVal) : personOk p = true -> nullish p = false.
Proof.
  unfold personOk. intros H. apply andb_true_iff in H as [H _].
  now apply negb_true_iff in H.
Qed.

Lemma houseTerms_defined (p t : JsVal) :
  personOk p = true -> In t (houseTerms p) -> nullish t = false.
Proof.
  unfold personOk, houseTerms, termsOk. intros H Hin.
  apply andb_true_iff in H as [_ Ht].
  destruct (get_opt p "terms") as [| | | | |ts|]; try destruct Hin.
  cbn [truthy] in Ht. apply filter_In in Hin as [Hin _].
  rewrite forallb_forall in Ht. apply negb_true_iff. now apply Ht.
Qed.

Lemma houseTerms_rep (p t : JsVal) :
  In t (houseTerms p) -> is_str (get_opt t "type") "rep" = true.
Proof.
  unfold houseTerms. destruct (get_opt p "terms"); try (intros []).
  intros H. now apply filter_In in H.
Qed.

Lemma assoc_push_same (key : string) (c : Candidate) (byKey : list (string * list Candidate)) :
  assoc key (push key c byKey) =
    Some (match assoc key byKey with Some arr => arr ++ [c] | None => [c] end)%list.
Proof.
  unfold push. destruct (assoc key byKey); apply assoc_assign_same.
Qed.

Lemma assoc_push_other (key key' : string) (c : Candidate)
    (byKey : list (string * list Candidate)) :
  key' <> key -> assoc key' (push key c byKey) = assoc key' byKey.
Proof.
  intros Hn. unfold push. destruct (assoc key byKey); now apply assoc_assign_other.
Qed.

Lemma push_keeps (key key' : string) (c c' : Candidate) (arr : list Candidate)
    (byKey : list (string * list Candidate)) :
  assoc key' byKey = Some arr -> In c' arr ->
  exists arr', assoc key' (push key c byKey) = Some arr' /\ In c' arr'.
Proof.
  intros Harr Hin. destruct (String.eqb_spec key' key) as [->|Hn].
  - rewrite assoc_push_same, Harr. eexists. split; [reflexivity|].
    apply in_or_app. now left.
  - rewrite (assoc_push_other _ _ _ _ Hn). now exists arr.
Qed.

Lemma push_wellFiled (key : string) (c : Candidate) (byKey : list (string * list Candidate)) :
  wellFiled Date_parse today byKey -> filed Date_parse today key c ->
  wellFiled Date_parse today (push key c byKey).
Proof.
  intros [Hnd Hall] Hc. split.
  - unfold push. destruct (assoc key byKey); now apply keys_assign_NoDup.
  - intros key' arr' Harr'. destruct (String.eqb_spec key' key) as [->|Hn].
    + rewrite assoc_push_same in Harr'. injection Harr' as <-.
      destruct (assoc key byKey) as [arr|] eqn:E.
      * destruct (Hall _ _ E) as [_ Hf]. split; [now destruct arr|].
        intros c' Hin. apply in_app_or in Hin as [Hin|[<-|[]]]; auto.
      * split; [discriminate|]. intros c' [<-|[]]. exact Hc.
    + rewrite (assoc_push_other _ _ _ _ Hn) in Harr'. now apply Hall.
Qed.

(** The loop over the House terms of one roster entry. *)
Lemma foldM_termStep (p : JsVal) (Hp : nullish p = false) (ts : list JsVal) :
  forall byKey byKey',
    foldM (termStep Date_parse today p) ts byKey = Ok byKey' ->
    wellFiled Date_parse today byKey ->
    wellFiled Date_parse today byKey' /\
    (forall key arr c, assoc key byKey = Some arr -> In c arr ->
       exists arr', assoc key byKey' = Some arr' /\ In c arr') /\
    (forall t, In t ts ->
       exists key c arr,
         termCandidate Date_parse today p t = Ok (key, c) /\
         assoc key byKey' = Some arr /\ In c arr).
Proof.
  induction ts as [|t rest IH]; intros byKey byKey'; cbn [foldM].
  - intros [= <-] Hwf. split; [exact Hwf|]. split.
    + intros key arr c Harr Hin. now exists arr.
    + intros t [].
  - unfold termStep at 1.
    destruct (termCandidate Date_parse today p t) as [[key c]|e] eqn:Hc; [|discriminate].
    cbn [bind fst snd]. intros Hfold Hwf.
    set (byKey1 := push key c byKey) in *.
    assert (Hwf1 : wellFiled Date_parse today byKey1).
    { apply push_wellFiled; [exact Hwf|].
      destruct (termCandidate_fields p t key c Hc) as [Ep Et].
      split; rewrite Ep; [exact Hp|]. now rewrite Et. }
    destruct (IH byKey1 byKey' Hfold Hwf1) as (Hwf' & Hkeep & Hnew).
    split; [exact Hwf'|]. split.
    + intros key0 arr c0 Harr Hin.
      destruct (push_keeps key key0 c c0 arr byKey Harr Hin) as (arr1 & Harr1 & Hin1).
      exact (Hkeep key0 arr1 c0 Harr1 Hin1).
    + intros t' [<-|Hin]; [|now apply Hnew].
      destruct (Hkeep key _ c (assoc_push_same _ _ _)) as (arr' & Harr' & Hin').
      { destruct (assoc key byKey); [apply in_or_app; right|]; now left. }
      now exists key, c, arr'.
Qed.

(** The loop over the roster. *)
Lemma foldM_personStep (persons : list JsVal) :
  forall byKey byKey',
    foldM (personStep Date_parse today) persons byKey = Ok byKey' ->
    wellFiled Date_parse today byKey ->
    forallb personOk persons = true /\
    wellFiled Date_parse today byKey' /\
    (forall key arr c, assoc key byKey = Some arr -> In c arr ->
       exists arr', assoc key byKey' = Some arr' /\ In c arr') /\
    (forall p t, In p persons -> In t (houseTerms p) ->
       exists key c arr,
         termCandidate Date_parse today p t = Ok (key, c) /\
         assoc key byKey' = Some arr /\ In c arr).
Proof.
  induction persons as [|p rest IH]; intros byKey byKey'; cbn [foldM forallb].
  - intros [= <-] Hwf. split; [reflexivity|]. split; [exact Hwf|]. split.
    + intros key arr c Harr Hin. now exists arr.
    + intros p t [].
  - unfold personStep at 1.
    destruct (repTerms p) as [ts|e] eqn:Hts; [|discriminate]. cbn [bind].
    destruct (repTerms_inv p ts Hts) as [Hp ->].
    destruct (foldM (termStep Date_parse today p) (houseTerms p) byKey)
      as [byKey1|e] eqn:Hfold1; [|discriminate]. cbn [bind].
    intros Hfold Hwf.
    destruct (foldM_termStep p (personOk_defined p Hp) (houseTerms p) byKey byKey1
                Hfold1 Hwf) as (Hwf1 & Hkeep1 & Hnew1).
    destruct (IH byKey1 byKey' Hfold Hwf1) as (Hok & Hwf' & Hkeep & Hnew).
    rewrite Hp, Hok. split; [reflexivity|]. split; [exact Hwf'|]. split.
    + intros key arr c Harr Hin.
      destruct (Hkeep1 key arr c Harr Hin) as (arr1 & Harr1 & Hin1).
      exact (Hkeep key arr1 c Harr1 Hin1).
    + intros p' t [<-|Hin] Ht; [|now apply Hnew].
      destruct (Hnew1 t Ht) as (key & c & arr1 & Hc & Harr1 & Hin1).
      destruct (Hkeep key arr1 c Harr1 Hin1) as (arr' & Harr' & Hin').
      now exists key, c, arr'.
Qed.

Lemma wellFiled_nil : wellFiled Date_parse today [].
Proof. split; [constructor|]. intros key arr. discriminate. Qed.

(** What the first loop of [loadIndex] leaves in [map] when it
    completes. *)
Lemma collect_spec (docs : JsVal) (byKey : list (string * list Candidate)) :
  collect Date_parse today docs = Ok byKey ->
  exists persons,
    iter "docs" docs = Ok persons /\
    forallb personOk persons = true /\
    wellFiled Date_parse today byKey /\
    (forall p t, In p persons -> In t (houseTerms p) ->
       exists key c arr,
         termCandidate Date_parse today p t = Ok (key, c) /\
         assoc key byKey = Some arr /\ In c arr).
Proof.
  unfold collect. destruct (iter "docs" docs) as [persons|e]; [|discriminate]. cbn [bind].
  intros H. exists persons. split; [reflexivity|].
  destruct (foldM_personStep persons [] byKey H wellFiled_nil) as (Hok & Hwf & _ & Hnew).
  auto.
Qed.

Lemma collect_wellFiled (docs : JsVal) (byKey : list (string * list Candidate)) :
  collect Date_parse today docs = Ok byKey -> wellFiled Date_parse today byKey.
Proof. intros H. now destruct (collect_spec docs byKey H) as (persons & _ & _ & Hwf & _). Qed.

Lemma foldM_termStep_completes (p : JsVal) (ts : list JsVal) :
  (forall t, In t ts -> nullish t = false /\ termSound t = true) ->
  forall byKey, completes (foldM (termStep Date_parse today p) ts byKey).
Proof.
  induction ts as [|t rest IH]; intros H byKey; cbn [foldM]; [apply completes_Ok|].
  unfold termStep at 1.
  destruct (proj2 (termCandidate_completes p t) (H t (or_introl eq_refl))) as [kc ->].
  cbn [bind]. apply IH. intros t' Hin. apply H. now right.
Qed.

Lemma foldM_personStep_completes (persons : list JsVal) :
  forallb personOk persons = true ->
  (forall p t, In p persons -> In t (houseTerms p) -> termSound t = true) ->
  forall byKey, completes (foldM (personStep Date_parse today) persons byKey).
Proof.
  induction persons as [|p rest IH]; intros Hok Hs byKey; cbn [foldM];
    [apply completes_Ok|].
  cbn [forallb] in Hok. apply andb_true_iff in Hok as [Hp Hrest].
  unfold personStep at 1. rewrite (repTerms_ok p Hp). cbn [bind].
  destruct (foldM_termStep_completes p (houseTerms p)) with (byKey := byKey) as [byKey1 ->].
  { intros t Ht. split; [now apply houseTerms_defined with (p := p)|].
    apply (Hs p t); [now left|exact Ht]. }
  cbn [bind]. apply IH; [exact Hrest|]. intros p' t Hin. apply Hs. now right.
Qed.

(** The first loop completes exactly on a roster it can walk whose
    House terms have the texts it prints. *)
Lemma collect_completes (docs : JsVal) :
  completes (collect Date_parse today docs) <->
  exists persons,
    iter "docs" docs = Ok persons /\ forallb personOk persons = true /\
    forall p t, In p persons -> In t (houseTerms p) -> termSound t = true.
Proof.
  split.
  - intros [byKey H]. destruct (collect_spec docs byKey H) as (persons & Hi & Hok & _ & Hnew).
    exists persons. split; [exact Hi|]. split; [exact Hok|].
    intros p t Hp Ht. destruct (Hnew p t Hp Ht) as (key & c & arr & Hc & _).
    apply (termCandidate_completes p t). now exists (key, c).
  - intros (persons & Hi & Hok & Hs). unfold collect. rewrite Hi. cbn [bind].
    now apply foldM_personStep_completes.
Qed.

End BuilderFacts.

(* ================================================================= *)
(** ** The index builder: the selection and the entries *)

Lemma or_chain_completes (alts : list (Result JsVal)) (last : Result JsVal) :
  Forall completes alts -> completes last -> completes (or_chain alts last).
Proof.
  intros Halts Hlast. induction Halts as [|a rest [v ->] _ IH]; cbn [or_chain bind];
    [exact Hlast|].
  destruct (truthy v); [now exists v|exact IH].
Qed.

Lemma or_chain_default (alts : list (Result JsVal)) (d v : JsVal) :
  or_chain alts (Ok d) = Ok v -> truthy v = true \/ v = d.
Proof.
  induction alts as [|a rest IH]; cbn [or_chain].
  - intros [= ->]. now right.
  - destruct a as [x|e]; cbn [bind]; [|discriminate].
    destruct (truthy x) eqn:Hx; [|exact IH]. intros [= <-]. now left.
Qed.

Lemma get_completes (v : JsVal) (k : string) : nullish v = false -> completes (get v k).
Proof. intros H. rewrite (get_defined _ _ H). now eexists. Qed.

Lemma text_truthy_or_empty (s : string) :
  truthy (VStr s) = true \/ VStr s = VStr "".
Proof. destruct s; [now right|now left]. Qed.

(** [join] completes exactly when the parts have a text. *)
Lemma joinTruthy_completes (parts : list JsVal) :
  completes (joinTruthy parts) <-> forallb plain parts = true.
Proof.
  unfold joinTruthy. rewrite completes_map.
  induction parts as [|x rest IH]; cbn [filter forallb mapM].
  - split; [reflexivity|intros _; apply completes_Ok].
  - destruct (truthy x) eqn:Hx.
    + cbn [mapM]. destruct (ToString x) as [s|e] eqn:Hs; cbn [bind].
      * rewrite (proj1 (ToString_plain x) (ex_intro _ s Hs)). cbn [andb].
        rewrite completes_map. exact IH.
      * rewrite (ToString_throws x e Hs).
        split; [intros H; now apply not_completes_Throw in H|discriminate].
    + now rewrite (falsy_plain x Hx).
Qed.

(** [normalizeName] completes exactly when the parts it joins have a
    text. *)
Lemma normalizeName_completes (p : JsVal) :
  completes (normalizeName p) <-> forallb plain (nameParts p) = true.
Proof.
  unfold normalizeName, nameParts. destruct (truthy p) eqn:Hp; cbn [negb];
    [|split; [reflexivity|intros _; apply completes_Ok]].
  pose proof (truthy_not_nullish _ Hp) as Hd.
  rewrite (get_defined _ _ Hd). cbn [bind].
  destruct (truthy (get_opt p "name") && typeof_object (get_opt p "name")) eqn:Hn.
  - apply andb_true_iff in Hn as [Hn _]. apply truthy_not_nullish in Hn.
    rewrite !(get_defined _ _ Hn). cbn [bind]. rewrite completes_map.
    apply joinTruthy_completes.
  - cbn [or_chain]. rewrite !(get_defined _ _ Hd). cbn [bind].
    destruct (truthy (get_opt p "first_name")) eqn:H1; cbn [bind orb]; rewrite ?H1.
    { rewrite completes_map. apply joinTruthy_completes. }
    destruct (truthy (get_opt p "last_name")) eqn:H2; cbn [bind]; rewrite ?H2.
    { rewrite completes_map. apply joinTruthy_completes. }
    split; [reflexivity|intros _].
    destruct (truthy (get_opt p "name")); [apply completes_Ok|].
    destruct (truthy (get_opt p "full_name")); apply completes_Ok.
Qed.

Lemma normalizeName_range (p name : JsVal) :
  normalizeName p = Ok name -> truthy name = true \/ name = VStr "".
Proof.
  unfold normalizeName. destruct (truthy p) eqn:Hp; cbn [negb];
    [|intros [= <-]; now right].
  pose proof (truthy_not_nullish _ Hp) as Hd.
  rewrite (get_defined _ _ Hd). cbn [bind].
  destruct (truthy (get_opt p "name") && typeof_object (get_opt p "name")) eqn:Hn.
  - apply andb_true_iff in Hn as [Hn _]. apply truthy_not_nullish in Hn.
    rewrite !(get_defined _ _ Hn). cbn [bind].
    destruct (joinTruthy _) as [joined|e]; cbn [bind]; [|discriminate].
    intros [= <-]. apply text_truthy_or_empty.
  - cbn [or_chain]. rewrite !(get_defined _ _ Hd). cbn [bind].
    destruct (truthy (get_opt p "first_name")) eqn:H1; cbn [bind]; rewrite ?H1.
    { destruct (joinTruthy _) as [joined|e]; cbn [bind]; [|discriminate].
      intros [= <-]. apply text_truthy_or_empty. }
    destruct (truthy (get_opt p "last_name")) eqn:H2; cbn [bind]; rewrite ?H2.
    { destruct (joinTruthy _) as [joined|e]; cbn [bind]; [|discriminate].
      intros [= <-]. apply text_truthy_or_empty. }
    destruct (truthy (get_opt p "name")) eqn:H3; [intros [= <-]; now left|].
    destruct (truthy (get_opt p "full_name")) eqn:H4; intros [= <-]; [now left|now right].
Qed.

(** X3.  [normalizeName] completes exactly when the parts it joins have
    a text, so on every value without a mapping that has a property
    [toString] among them, [null] and [undefined] included, which give
    the empty text; the name it gives is a truthy value or the empty
    text, never [null] or [undefined]; and a [name] record decides
    alone, whatever [first_name], [last_name] and [full_name] hold. *)
Theorem normalizeName_cases (person : JsVal) :
  (completes (normalizeName person) <-> forallb plain (nameParts person) = true) /\
  (truthy person = false -> normalizeName person = Ok (VStr "")) /\
  (forall name, normalizeName person = Ok name -> truthy name = true \/ name = VStr "") /\
  (forall n, get_opt person "name" = VObj n -> truthy person = true ->
     normalizeName person =
       (joined <- joinTruthy [field n "first"; field n "middle"; field n "last"] ;;
        Ok (VStr joined))).
Proof.
  split; [apply normalizeName_completes|]. split; [|split].
  - intros Hf. unfold normalizeName. now rewrite Hf.
  - apply normalizeName_range.
  - intros n Hname Hp. unfold normalizeName. rewrite Hp. cbn [negb].
    rewrite (get_defined _ _ (truthy_not_nullish _ Hp)). cbn [bind].
    rewrite Hname. cbn [truthy typeof_object andb]. rewrite !get_obj. reflexivity.
Qed.

Lemma normalizeName_cases_witness :
  get_opt Samples.jane "name" = VObj [("first", VStr "Jane"); ("last", VStr "Doe")] /\
  normalizeName Samples.jane = Ok (VStr "Jane Doe") /\
  normalizeName VNull = Ok (VStr "") /\
  ~ completes (normalizeName (VObj [("name", VObj [("first", Samples.textless)])])).
Proof.
  split; [reflexivity|].
  destruct (normalizeName_cases Samples.jane) as (_ & _ & _ & Hrec).
  destruct (normalizeName_cases VNull) as (_ & Hnull & _).
  destruct (normalizeName_cases (VObj [("name", VObj [("first", Samples.textless)])]))
    as (Hiff & _).
  split; [exact (eq_trans (Hrec _ eq_refl eq_refl) eq_refl)|].
  split; [exact (Hnull eq_refl)|].
  intros H. apply Hiff in H. discriminate.
Defined.

Lemma entryOf_completes (c : Candidate) :
  nullish (person c) = false -> nullish (term c) = false ->
  completes (normalizeName (person c)) -> completes (entryOf c).
Proof.
  intros Hp Ht [name Hname]. unfold entryOf. rewrite Hname. cbn [bind].
  assert (G : forall v k, nullish v = false -> completes (get v k))
    by exact get_completes.
  assert (E : completes (Ok (VStr ""))) by now eexists.
  destruct (or_chain_completes [get (term c) "party"; get (person c) "party"]
              (Ok (VStr ""))) as [party ->]; [repeat constructor; auto|exact E|].
  destruct (or_chain_completes
              [or_chain [get (term c) "phone"; get (person c) "phone"] (Ok (VStr ""))]
              (Ok (VStr ""))) as [phone ->];
    [repeat constructor; apply or_chain_completes; [repeat constructor; auto|exact E]
    |exact E|].
  destruct (or_chain_completes
              [or_chain [get (term c) "url"; get (person c) "url"; get (person c) "website"]
                        (Ok (VStr ""))]
              (Ok (VStr ""))) as [url ->];
    [repeat constructor; apply or_chain_completes; [repeat constructor; auto|exact E]
    |exact E|].
  destruct (or_chain_completes
              [id <- get (person c) "id" ;;
               if truthy id then get id "bioguide" else Ok id]
              (Ok VNull)) as [bioguide ->]; [|now eexists|].
  - repeat constructor. rewrite (get_defined _ _ Hp). cbn [bind].
    destruct (truthy (get_opt (person c) "id")) eqn:Hid; [|now eexists].
    apply G. now apply truthy_not_nullish.
  - cbn [bind]. now eexists.
Qed.

(** The record of lines 68-76. *)
Lemma entryOf_shape (c : Candidate) (entry : JsVal) :
  entryOf c = Ok entry ->
  exists name party phone url bioguide,
    entry = VObj [("name", name); ("party", party); ("phone", phone); ("url", url);
                  ("bioguide", bioguide); ("raw_person", person c);
                  ("raw_term", term c)] /\
    normalizeName (person c) = Ok name /\
    (truthy party = true \/ party = VStr "") /\
    (truthy phone = true \/ phone = VStr "") /\
    (truthy url = true \/ url = VStr "") /\
    (truthy bioguide = true \/ bioguide = VNull).
Proof.
  unfold entryOf.
  destruct (normalizeName (person c)) as [name|e] eqn:Hname; [|discriminate]. cbn [bind].
  destruct (or_chain [get (term c) "party"; get (person c) "party"] (Ok (VStr "")))
    as [party|e] eqn:Hparty; [|discriminate]. cbn [bind].
  destruct (or_chain [or_chain [get (term c) "phone"; get (person c) "phone"] (Ok (VStr ""))]
                     (Ok (VStr ""))) as [phone|e] eqn:Hphone; [|discriminate]. cbn [bind].
  destruct (or_chain
              [or_chain [get (term c) "url"; get (person c) "url"; get (person c) "website"]
                        (Ok (VStr ""))] (Ok (VStr "")))
    as [url|e] eqn:Hurl; [|discriminate]. cbn [bind].
  destruct (or_chain [id <- get (person c) "id" ;;
                      if truthy id then get id "bioguide" else Ok id] (Ok VNull))
    as [bioguide|e] eqn:Hbio; [|discriminate]. cbn [bind].
  intros [= <-]. exists name, party, phone, url, bioguide.
  split; [reflexivity|]. split; [reflexivity|].
  split; [exact (or_chain_default _ _ _ Hparty)|].
  split; [exact (or_chain_default _ _ _ Hphone)|].
  split; [exact (or_chain_default _ _ _ Hurl)|exact (or_chain_default _ _ _ Hbio)].
Qed.

(** The scan for the candidate with the greatest start, on candidates
    whose start epochs are numbers. *)
Lemma latest_spec (arr : list Candidate) :
  forall best,
    forallb (fun c => numeric (start c)) arr = true ->
    numeric (start best) = true ->
    let chosen :=
      fold_left (fun best cur => if gt (start cur) (orZero (start best)) then cur else best)
                arr best in
    (chosen = best /\ forall c, In c arr -> le (start c) (start best) = true) \/
    (exists pre post,
        arr = (pre ++ chosen :: post)%list /\
        gt (start chosen) (start best) = true /\
        (forall c, In c pre -> gt (start chosen) (start c) = true) /\
        (forall c, In c post -> le (start c) (start chosen) = true)).
Proof.
  assert (Z0 : forall n, numeric n = true -> orZero n = n).
  { intros [|z|b]; try discriminate. intros _. unfold orZero. cbn [truthy].
    destruct (Z.eqb_spec z 0) as [->|_]; reflexivity. }
  induction arr as [|cur rest IH]; intros best Hall Hbest; cbn [fold_left].
  - left. split; [reflexivity|]. intros c [].
  - cbn [forallb] in Hall. apply andb_true_iff in Hall as [Hcur Hrest].
    rewrite (Z0 _ Hbest).
    destruct (start cur) as [|zc|] eqn:Ec; try discriminate.
    destruct (start best) as [|zb|] eqn:Eb; try discriminate.
    cbn [gt]. destruct (Z.ltb_spec zb zc) as [Hlt|Hge].
    + right. destruct (IH cur Hrest) as [[Hch Hle]|(pre & post & Harr & Hgt & Hpre & Hpost)].
      { now rewrite Ec. }
      * exists [], rest. cbn zeta in Hch. rewrite Hch. split; [reflexivity|].
        rewrite Ec. cbn [gt le]. split; [now apply Z.ltb_lt|]. split; [intros c []|].
        intros c Hc. specialize (Hle c Hc). now rewrite Ec in Hle.
      * cbn zeta in *. set (chosen := fold_left _ rest cur) in *.
        assert (Hnc : numeric (start chosen) = true).
        { rewrite forallb_forall in Hrest. apply Hrest. rewrite Harr. apply in_elt. }
        exists (cur :: pre), post. split; [now rewrite Harr|].
        destruct (start chosen) as [|zz|] eqn:Ez; try discriminate.
        rewrite Ec in Hgt. cbn [gt] in Hgt. apply Z.ltb_lt in Hgt.
        cbn [gt]. split; [apply Z.ltb_lt; lia|]. split; [|exact Hpost].
        intros c [<-|Hc]; [|now apply Hpre]. rewrite Ec. cbn [gt]. apply Z.ltb_lt. lia.
    + destruct (IH best Hrest) as [[Hch Hle]|(pre & post & Harr & Hgt & Hpre & Hpost)].
      { now rewrite Eb. }
      * left. cbn zeta in Hch. split; [exact Hch|].
        intros c [<-|Hc]; [|rewrite <- Eb; now apply Hle].
        rewrite Ec. cbn [le]. apply Z.leb_le. lia.
      * right. cbn zeta in *. set (chosen := fold_left _ rest best) in *.
        assert (Hnc : numeric (start chosen) = true).
        { rewrite forallb_forall in Hrest. apply Hrest. rewrite Harr. apply in_elt. }
        exists (cur :: pre), post. split; [now rewrite Harr|].
        destruct (start chosen) as [|zz|] eqn:Ez; try discriminate.
        rewrite Eb in Hgt. cbn [gt] in Hgt |- *. apply Z.ltb_lt in Hgt.
        split; [now apply Z.ltb_lt|]. split; [|exact Hpost].
        intros c [<-|Hc]; [|now apply Hpre]. rewrite Ec. cbn [gt]. apply Z.ltb_lt. lia.
Qed.

Lemma choose_in (arr : list Candidate) (chosen : Candidate) :
  choose arr = Some chosen -> In chosen arr.
Proof.
  unfold choose. destruct (find isCurrent arr) as [c|] eqn:Hf.
  - intros [= <-]. now apply find_some in Hf.
  - destruct arr as [|a0 rest]; [discriminate|]. intros [= <-].
    set (f := fun best cur : Candidate =>
                if gt (start cur) (orZero (start best)) then cur else best).
    assert (G : forall l b, In (fold_left f l b) l \/ fold_left f l b = b).
    { induction l as [|x l IH]; intros b; cbn [fold_left]; [now right|].
      destruct (IH (f b x)) as [H|H]; [left; now right|].
      rewrite H. unfold f. destruct (gt (start x) (orZero (start b))); [left|right]; auto.
      now left. }
    destruct (G (a0 :: rest) a0) as [H|H]; [exact H|].
    change (In (fold_left f (a0 :: rest) a0) (a0 :: rest)). rewrite H. now left.
Qed.

Lemma choose_some (arr : list Candidate) :
  arr <> [] -> exists chosen, choose arr = Some chosen.
Proof.
  intros Hne. unfold choose. destruct (find isCurrent arr) as [c|]; [now exists c|].
  destruct arr as [|a0 rest]; [contradiction|]. now eexists.
Qed.

Lemma choose_current (arr : list Candidate) (chosen : Candidate) :
  choose arr = Some chosen ->
  existsb isCurrent arr = true ->
  isCurrent chosen = true /\
  exists pre post,
    arr = (pre ++ chosen :: post)%list /\ forall c, In c pre -> isCurrent c = false.
Proof.
  intros Hch Hex. unfold choose in Hch.
  destruct (find isCurrent arr) as [c|] eqn:Hf.
  - injection Hch as ->. split; [now apply find_some in Hf|].
    clear Hex. induction arr as [|a rest IH]; [discriminate|].
    cbn [find] in Hf. destruct (isCurrent a) eqn:Ha.
    + injection Hf as ->. exists [], rest. split; [reflexivity|]. intros c [].
    + destruct (IH Hf) as (pre & post & -> & Hpre). exists (a :: pre), post.
      split; [reflexivity|]. intros c [<-|Hc]; auto.
  - apply existsb_exists in Hex as [c [Hin Hc]].
    now rewrite (find_none _ _ Hf c Hin) in Hc.
Qed.

Lemma choose_latest (arr : list Candidate) (chosen : Candidate) :
  choose arr = Some chosen ->
  existsb isCurrent arr = false ->
  forallb (fun c => numeric (start c)) arr = true ->
  exists pre post,
    arr = (pre ++ chosen :: post)%list /\
    (forall c, In c pre -> gt (start chosen) (start c) = true) /\
    (forall c, In c post -> le (start c) (start chosen) = true).
Proof.
  intros Hch Hex Hnum. unfold choose in Hch.
  destruct (find isCurrent arr) as [c|] eqn:Hf.
  - apply find_some in Hf as [Hin Hc].
    assert (existsb isCurrent arr = true) by (apply existsb_exists; eauto). congruence.
  - destruct arr as [|a0 rest]; [discriminate|].
    assert (Hc : fold_left
                   (fun best cur => if gt (start cur) (orZero (start best)) then cur else best)
                   (a0 :: rest) a0 = chosen) by congruence.
    clear Hch. pose proof Hnum as Hall. cbn [forallb] in Hnum.
    apply andb_true_iff in Hnum as [H0 Hrest].
    pose proof (latest_spec (a0 :: rest) a0 Hall H0) as L. cbn zeta in L.
    rewrite Hc in L.
    destruct L as [[Hbest Hle]|(pre & post & Harr & Hgt & Hpre & Hpost)].
    + rewrite Hbest. exists [], rest. split; [reflexivity|]. split; [intros c []|].
      intros c Hin. apply Hle. now right.
    + exists pre, post. auto.
Qed.

Section Materialize.

Variable byKey : list (string * list Candidate).

(** The second loop of [loadIndex], over the keys still to visit. *)
Lemma foldM_keyStep (keys : list string) :
  forall outIndex outIndex',
    foldM (keyStep byKey) keys outIndex = Ok outIndex' ->
    NoDup keys ->
    (forall key, ~ In key keys -> assoc key outIndex' = assoc key outIndex) /\
    (forall key, In key keys ->
       exists arr chosen entry,
         assoc key byKey = Some arr /\
         choose arr = Some chosen /\ In chosen arr /\ entryOf chosen = Ok entry /\
         assoc key outIndex' = Some entry).
Proof.
  induction keys as [|key rest IH]; intros outIndex outIndex'; cbn [foldM].
  - intros [= <-] _. split; [reflexivity|]. intros key [].
  - unfold keyStep at 1.
    destruct (assoc key byKey) as [arr|] eqn:Harr; [|discriminate].
    destruct (choose arr) as [chosen|] eqn:Hch; [|discriminate].
    destruct (entryOf chosen) as [entry|e] eqn:He; [|discriminate]. cbn [bind].
    intros Hfold Hnd. inversion Hnd as [|? ? Hnotin Hnd']; subst.
    destruct (IH (assign key entry outIndex) outIndex' Hfold Hnd') as (Hout & Hin').
    split.
    + intros k Hk. rewrite Hout by (intros H; apply Hk; now right).
      apply assoc_assign_other. intros ->. apply Hk. now left.
    + intros k [<-|Hk]; [|now apply Hin'].
      exists arr, chosen, entry. repeat (split; [assumption|]).
      split; [now apply choose_in|]. split; [exact He|].
      rewrite (Hout key Hnotin). apply assoc_assign_same.
Qed.

(** What the second loop leaves in [outIndex] when it completes. *)
Lemma materialize_spec (outIndex : list (string * JsVal)) :
  materialize byKey = Ok outIndex ->
  NoDup (map fst byKey) ->
  forall key,
    match assoc key byKey with
    | Some arr =>
        exists chosen entry,
          choose arr = Some chosen /\ In chosen arr /\ entryOf chosen = Ok entry /\
          assoc key outIndex = Some entry
    | None => assoc key outIndex = None
    end.
Proof.
  unfold materialize. intros Hfold Hnd key.
  destruct (foldM_keyStep (map fst byKey) [] outIndex Hfold Hnd) as (Hout & Hin).
  destruct (assoc key byKey) as [arr|] eqn:E.
  - destruct (Hin key (assoc_in_keys _ _ _ E))
      as (arr' & chosen & entry & Harr & Hch & Hc & He & Ho).
    rewrite E in Harr. injection Harr as <-. now exists chosen, entry.
  - rewrite Hout; [reflexivity|]. now apply assoc_none_not_key.
Qed.

Lemma foldM_keyStep_completes (keys : list string) :
  (forall key, In key keys ->
     exists arr, assoc key byKey = Some arr /\ arr <> [] /\
                 forall c, In c arr -> completes (entryOf c)) ->
  forall outIndex, completes (foldM (keyStep byKey) keys outIndex).
Proof.
  induction keys as [|key rest IH]; intros H outIndex; cbn [foldM]; [apply completes_Ok|].
  destruct (H key (or_introl eq_refl)) as (arr & Harr & Hne & Hall).
  unfold keyStep at 1. rewrite Harr.
  destruct (choose_some arr Hne) as [chosen Hch]. rewrite Hch.
  destruct (Hall chosen (choose_in _ _ Hch)) as [entry ->]. cbn [bind].
  apply IH. intros k Hk. apply H. now right.
Qed.

End Materialize.

(* ================================================================= *)
(** ** The candidate lists as a grouping of the roster *)

Lemma keys_push (k : string) (c : Candidate) (byKey : list (string * list Candidate)) :
  map fst (push k c byKey) = addKey k (map fst byKey).
Proof.
  unfold push. destruct (assoc k byKey) as [arr|] eqn:E; rewrite keys_assign, E.
  - symmetry. apply addKey_present. now apply assoc_in_keys in E.
  - symmetry. apply addKey_absent. now apply assoc_none_not_key.
Qed.

Lemma candidatesAt_push (key k : string) (c : Candidate)
    (byKey : list (string * list Candidate)) :
  candidatesAt key (push k c byKey) =
    if String.eqb key k then (candidatesAt key byKey ++ [c])%list
    else candidatesAt key byKey.
Proof.
  unfold candidatesAt. destruct (String.eqb_spec key k) as [->|Hn].
  - rewrite assoc_push_same. now destruct (assoc k byKey).
  - now rewrite (assoc_push_other _ _ _ _ Hn).
Qed.

Lemma distinctKeys_snoc (keys : list string) (k : string) :
  distinctKeys (keys ++ [k]) = addKey k (distinctKeys keys).
Proof. unfold distinctKeys. now rewrite fold_left_app. Qed.

Lemma distinctKeys_NoDup (keys : list string) : NoDup (distinctKeys keys).
Proof.
  unfold distinctKeys.
  assert (G : forall acc, NoDup acc -> NoDup (fold_left (fun acc k => addKey k acc) keys acc)).
  { induction keys as [|k rest IH]; intros acc Hacc; cbn [fold_left]; [exact Hacc|].
    apply IH. now apply addKey_NoDup. }
  apply G. constructor.
Qed.

Lemma groups_push (key : string) (c : Candidate) (byKey : list (string * list Candidate))
    (seen : list (string * Candidate)) :
  groups byKey seen -> groups (push key c byKey) (seen ++ [(key, c)]).
Proof.
  intros [Hat Hkeys]. split.
  - intros key'. rewrite candidatesAt_push. unfold filedUnder. rewrite filter_app, map_app.
    cbn [filter fst]. fold (filedUnder key' seen). rewrite <- Hat.
    destruct (String.eqb key' key); [reflexivity|]. cbn [map]. now rewrite app_nil_r.
  - rewrite keys_push, map_app. cbn [map fst].
    rewrite distinctKeys_snoc, Hkeys. reflexivity.
Qed.

Section Grouping.

Variable Date_parse : string -> JsNum.
Variable today : Z.

Lemma groups_terms (p : JsVal) (ts : list JsVal) :
  forall byKey byKey' seen,
    foldM (termStep Date_parse today p) ts byKey = Ok byKey' ->
    groups byKey seen ->
    exists filedTerms,
      mapM (termCandidate Date_parse today p) ts = Ok filedTerms /\
      groups byKey' (seen ++ filedTerms).
Proof.
  induction ts as [|t rest IH]; intros byKey byKey' seen; cbn [foldM mapM].
  - intros [= <-] Hg. exists []. rewrite app_nil_r. auto.
  - unfold termStep at 1.
    destruct (termCandidate Date_parse today p t) as [[key c]|e]; [|discriminate].
    cbn [bind fst snd]. intros Hfold Hg.
    destruct (IH _ _ _ Hfold (groups_push key c byKey seen Hg)) as (more & -> & Hg').
    cbn [bind]. exists ((key, c) :: more). split; [reflexivity|].
    now rewrite <- app_assoc in Hg'.
Qed.

Lemma groups_persons (persons : list JsVal) :
  forall byKey byKey' seen,
    foldM (personStep Date_parse today) persons byKey = Ok byKey' ->
    groups byKey seen ->
    exists all,
      fileAll Date_parse today persons = Ok all /\ groups byKey' (seen ++ all).
Proof.
  unfold fileAll.
  induction persons as [|p rest IH]; intros byKey byKey' seen;
    cbn [foldM houseTermsOf flat_map].
  - intros [= <-] Hg. exists []. rewrite app_nil_r. auto.
  - unfold personStep at 1.
    destruct (repTerms p) as [ts|e] eqn:Hts; [|discriminate]. cbn [bind].
    destruct (repTerms_inv p ts Hts) as [_ ->].
    destruct (foldM (termStep Date_parse today p) (houseTerms p) byKey)
      as [byKey1|e] eqn:Hfold1; [|discriminate]. cbn [bind].
    intros Hfold Hg.
    destruct (groups_terms p (houseTerms p) byKey byKey1 seen Hfold1 Hg)
      as (mine & Hmine & Hg1).
    destruct (IH byKey1 byKey' _ Hfold Hg1) as (others & Hothers & Hg').
    exists (mine ++ others)%list. split; [|now rewrite app_assoc].
    rewrite mapM_app, mapM_map. cbn [fst snd].
    fold (houseTermsOf rest). rewrite Hothers.
    change (fun x : JsVal => termCandidate Date_parse today p x)
      with (termCandidate Date_parse today p).
    now rewrite Hmine.
Qed.

(** The candidates of a completed first loop come from the House terms
    of the roster. *)
Lemma fileAll_In (persons : list JsVal) (all : list (string * Candidate))
    (key : string) (c : Candidate) :
  fileAll Date_parse today persons = Ok all ->
  In (key, c) all ->
  exists p t,
    In p persons /\ In t (houseTerms p) /\
    termCandidate Date_parse today p t = Ok (key, c).
Proof.
  intros Hall Hin. destruct (mapM_In _ _ _ _ Hall Hin) as ([p t] & Hpt & Hc).
  unfold houseTermsOf in Hpt. apply in_flat_map in Hpt as (p' & Hp' & Hpt).
  apply in_map_iff in Hpt as (t' & [= <- <-] & Ht'). now exists p', t'.
Qed.

Lemma filedUnder_In (key : string) (all : list (string * Candidate)) (c : Candidate) :
  In c (filedUnder key all) <-> In (key, c) all.
Proof.
  unfold filedUnder. rewrite in_map_iff. split.
  - intros ([k c'] & <- & Hin). apply filter_In in Hin as [Hin Hk].
    cbn [fst snd] in *. apply String.eqb_eq in Hk. now subst k.
  - intros Hin. exists (key, c). split; [reflexivity|]. apply filter_In.
    split; [exact Hin|apply String.eqb_refl].
Qed.

(** The candidate lists of a completed first loop group the House
    terms of the roster. *)
Lemma collect_groups (docs : JsVal) (persons : list JsVal)
    (byKey : list (string * list Candidate)) :
  iter "docs" docs = Ok persons ->
  collect Date_parse today docs = Ok byKey ->
  exists all, fileAll Date_parse today persons = Ok all /\ groups byKey all.
Proof.
  intros Hiter Hc. unfold collect in Hc. rewrite Hiter in Hc. cbn [bind] in Hc.
  destruct (groups_persons persons [] byKey [] Hc) as (all & Hall & Hg).
  { split; [reflexivity|reflexivity]. }
  now exists all.
Qed.

(** X2.  When the first loop of [loadIndex] completes, it has grouped
    the House terms of the roster by key: every House term has its key
    and candidate, the list of a key holds the candidates of exactly the
    House terms with that key, in roster order, and the keys come in the
    order in which the roster first shows them. *)
Theorem collect_groups_by_key (docs : JsVal) (persons : list JsVal)
    (byKey : list (string * list Candidate)) :
  iter "docs" docs = Ok persons ->
  collect Date_parse today docs = Ok byKey ->
  exists all,
    fileAll Date_parse today persons = Ok all /\
    (forall key, candidatesAt key byKey = filedUnder key all) /\
    map fst byKey = distinctKeys (map fst all).
Proof.
  intros Hiter Hc.
  destruct (collect_groups docs persons byKey Hiter Hc) as (all & Hall & Hat & Hkeys).
  exists all. auto.
Qed.

End Grouping.

Lemma collect_groups_by_key_witness :
  iter "docs" Samples.roster = Ok [Samples.jane; Samples.malformed] /\
  exists byKey,
    collect IsoDate.parse Samples.today Samples.roster = Ok byKey /\
    map fst byKey = ["CA-12"; "undefined-5"; "TX-7"] /\
    candidatesAt "TX-7" byKey = [Samples.candidate Samples.malformed Samples.undated].
Proof.
  split; [reflexivity|]. eexists. split; [reflexivity|].
  destruct (collect_groups_by_key IsoDate.parse Samples.today Samples.roster
              [Samples.jane; Samples.malformed] _ eq_refl eq_refl)
    as (all & Hall & Hat & Hkeys).
  assert (E : all = [("CA-12", Samples.candidate Samples.jane
                                 (VObj [("type", VStr "rep"); ("state", VStr "CA");
                                        ("district", VStr "12");
                                        ("start", VStr "2021-01-03");
                                        ("party", VStr "Democrat")]));
                     ("undefined-5", Samples.candidate Samples.malformed Samples.stateless);
                     ("TX-7", Samples.candidate Samples.malformed Samples.undated)]).
  { vm_compute in Hall. injection Hall as <-. reflexivity. }
  subst all. split.
  - rewrite Hkeys. reflexivity.
  - rewrite Hat. reflexivity.
Defined.

(* ================================================================= *)
(** ** The index builder: what a build keeps and selects *)

Section BuildProperties.

Variable Date_parse : string -> JsNum.
Variable today : Z.

Lemma buildIndex_collect (docs : JsVal) (outIndex : list (string * JsVal)) :
  buildIndex Date_parse today docs = Ok outIndex ->
  exists byKey, collect Date_parse today docs = Ok byKey /\ materialize byKey = Ok outIndex.
Proof.
  unfold buildIndex. destruct (collect Date_parse today docs) as [byKey|e]; [|discriminate].
  cbn [bind]. intros H. now exists byKey.
Qed.

Lemma buildIndex_spec (docs : JsVal) (byKey : list (string * list Candidate))
    (outIndex : list (string * JsVal)) :
  collect Date_parse today docs = Ok byKey ->
  buildIndex Date_parse today docs = Ok outIndex ->
  forall key,
    match assoc key byKey with
    | Some arr =>
        exists chosen entry,
          choose arr = Some chosen /\ In chosen arr /\ entryOf chosen = Ok entry /\
          assoc key outIndex = Some entry
    | None => assoc key outIndex = None
    end.
Proof.
  intros Hc Hb. unfold buildIndex in Hb. rewrite Hc in Hb. cbn [bind] in Hb.
  apply (materialize_spec byKey outIndex Hb).
  exact (proj1 (collect_wellFiled Date_parse today docs byKey Hc)).
Qed.

(** Every candidate of the candidate lists is the candidate of a House
    term of the roster. *)
Lemma collect_sources (docs : JsVal) (persons : list JsVal)
    (byKey : list (string * list Candidate)) (key : string) (arr : list Candidate)
    (c : Candidate) :
  iter "docs" docs = Ok persons ->
  collect Date_parse today docs = Ok byKey ->
  assoc key byKey = Some arr -> In c arr ->
  In (person c) persons /\ In (term c) (houseTerms (person c)) /\
  termCandidate Date_parse today (person c) (term c) = Ok (key, c).
Proof.
  intros Hiter Hc Harr Hin.
  destruct (collect_groups Date_parse today docs persons byKey Hiter Hc)
    as (all & Hall & Hat & _).
  specialize (Hat key). unfold candidatesAt in Hat. rewrite Harr in Hat.
  rewrite Hat in Hin. apply filedUnder_In in Hin.
  destruct (fileAll_In Date_parse today persons all key c Hall Hin) as (p & t & Hp & Ht & Hpt).
  destruct (termCandidate_fields Date_parse today p t key c Hpt) as [-> ->]. auto.
Qed.

(** A build completes on a roster it can walk whose name parts and
    House terms have the texts it prints; neither the dates nor the
    states of the terms matter. *)
Lemma buildIndex_completes (docs : JsVal) (persons : list JsVal) :
  iter "docs" docs = Ok persons ->
  forallb personSound persons = true ->
  exists byKey outIndex,
    collect Date_parse today docs = Ok byKey /\
    buildIndex Date_parse today docs = Ok outIndex.
Proof.
  intros Hiter Hs. rewrite forallb_forall in Hs.
  assert (Hparts : forall p, In p persons ->
            personOk p = true /\ forallb plain (nameParts p) = true
            /\ forallb termSound (houseTerms p) = true).
  { intros p Hp. specialize (Hs p Hp). unfold personSound in Hs.
    apply andb_true_iff in Hs as [Hs H3]. now apply andb_true_iff in Hs as [H1 H2]. }
  destruct (proj2 (collect_completes Date_parse today docs)) as [byKey Hc].
  { exists persons. split; [exact Hiter|]. split.
    - apply forallb_forall. intros p Hp. now destruct (Hparts p Hp).
    - intros p t Hp Ht. destruct (Hparts p Hp) as (_ & _ & H3).
      rewrite forallb_forall in H3. now apply H3. }
  destruct (collect_wellFiled Date_parse today docs byKey Hc) as [Hnd Hwf].
  exists byKey. unfold buildIndex. rewrite Hc. cbn [bind].
  destruct (foldM_keyStep_completes byKey (map fst byKey)) with (outIndex := @nil (string * JsVal))
    as [outIndex Ho].
  { intros key Hk. destruct (assoc key byKey) as [arr|] eqn:E;
      [|now apply assoc_none_not_key in E].
    exists arr. split; [reflexivity|]. destruct (Hwf key arr E) as [Hne Hf].
    split; [exact Hne|]. intros c Hc'. destruct (Hf c Hc') as [Hp Ht].
    apply entryOf_completes; [exact Hp| |].
    - destruct (termCandidate_inv Date_parse today _ _ _ _ Ht) as [Hn _]. exact Hn.
    - apply normalizeName_completes. apply (Hparts (person c)).
      now destruct (collect_sources docs persons byKey key arr c Hiter Hc E Hc'). }
  exists outIndex. split; [reflexivity|exact Ho].
Qed.

(** A House term with a state, a district, a start or an end that has
    no text stops the build. *)
Lemma buildIndex_unsound (docs : JsVal) (persons : list JsVal) (p t : JsVal) :
  iter "docs" docs = Ok persons ->
  In p persons -> In t (houseTerms p) -> termSound t = false ->
  exists err, buildIndex Date_parse today docs = Throw err.
Proof.
  intros Hiter Hp Ht Hs.
  destruct (buildIndex Date_parse today docs) as [outIndex|err] eqn:Hb; [|now exists err].
  destruct (buildIndex_collect docs outIndex Hb) as (byKey & Hc & _).
  destruct (proj1 (collect_completes Date_parse today docs) (ex_intro _ byKey Hc))
    as (persons' & Hiter' & _ & Hsound).
  rewrite Hiter in Hiter'. injection Hiter' as <-.
  rewrite (Hsound p t Hp Ht) in Hs. discriminate.
Qed.

Lemma unparseable_not_current (p t : JsVal) (key : string) (c : Candidate) (s : string) :
  termCandidate Date_parse today p t = Ok (key, c) ->
  get_opt t "start" = VStr s \/ get_opt t "end" = VStr s ->
  isEmpty s = false -> Date_parse s = NaN ->
  isCurrent c = false.
Proof.
  intros Hc Hfield Hs Hnan.
  destruct (termCandidate_inv Date_parse today p t key c Hc)
    as (_ & st & d & s0 & e0 & _ & _ & Hs0 & He0 & _ & ->). cbn [isCurrent].
  unfold currentAt.
  destruct Hfield as [Hf | Hf]; rewrite Hf in *.
  - unfold dateOf in Hs0. cbn [truthy new_Date ToString bind] in Hs0.
    rewrite Hs, Hnan in Hs0. cbn in Hs0. injection Hs0 as <-. reflexivity.
  - unfold dateOf in He0. cbn [truthy new_Date ToString bind] in He0.
    rewrite Hs, Hnan in He0. cbn in He0. injection He0 as <-. apply andb_false_r.
Qed.

(** C1, as amended.  On a roster whose entries have properties, whose
    [terms] are lists of records, and whose name parts and House-term
    states, districts, starts and ends have a text, the build completes
    whatever the dates and states of the terms are, and no House term is
    left out: each one contributes its candidate, and its key gets an
    entry of the index.  A term without a state is filed under a key
    that starts with "undefined-"; a term whose start or end date does
    not parse gives a candidate that is not current.  A House term whose
    state, district, start or end has no text stops the whole build. *)
Theorem C1_terms_are_kept (docs : JsVal) (persons : list JsVal) :
  iter "docs" docs = Ok persons ->
  (forallb personSound persons = true ->
   exists byKey outIndex,
     collect Date_parse today docs = Ok byKey /\
     buildIndex Date_parse today docs = Ok outIndex /\
     (forall p t, In p persons -> In t (houseTerms p) ->
        exists key c arr entry,
          termCandidate Date_parse today p t = Ok (key, c) /\
          person c = p /\ term c = t /\
          assoc key byKey = Some arr /\ In c arr /\
          assoc key outIndex = Some entry) /\
     (forall p t key c,
        termCandidate Date_parse today p t = Ok (key, c) ->
        get_opt t "state" = VUndef ->
        exists d, normDistrict (get_opt t "district") = Ok d /\ key = "undefined-" ++ d) /\
     (forall p t key c s,
        termCandidate Date_parse today p t = Ok (key, c) ->
        get_opt t "start" = VStr s \/ get_opt t "end" = VStr s ->
        isEmpty s = false -> Date_parse s = NaN ->
        isCurrent c = false)) /\
  (forall p t, In p persons -> In t (houseTerms p) -> termSound t = false ->
     exists err, buildIndex Date_parse today docs = Throw err).
Proof.
  intros Hiter. split; [|intros p t; now apply buildIndex_unsound].
  intros Hok.
  destruct (buildIndex_completes docs persons Hiter Hok) as (byKey & outIndex & Hc & Hb).
  exists byKey, outIndex. split; [exact Hc|]. split; [exact Hb|]. split; [|split].
  - intros p t Hp Ht.
    destruct (collect_spec Date_parse today docs byKey Hc) as (persons' & Hiter' & _ & _ & Hnew).
    rewrite Hiter in Hiter'. injection Hiter' as <-.
    destruct (Hnew p t Hp Ht) as (key & c & arr & Hpt & Harr & Hin).
    pose proof (buildIndex_spec docs byKey outIndex Hc Hb key) as Hall.
    rewrite Harr in Hall. destruct Hall as (chosen & entry & _ & _ & _ & He).
    destruct (termCandidate_fields Date_parse today p t key c Hpt) as [Hpc Htc].
    exists key, c, arr, entry. auto 10.
  - intros p t key c Hpt Hst.
    destruct (termCandidate_inv Date_parse today p t key c Hpt)
      as (_ & st & d & s0 & e0 & Hst' & Hd & _ & _ & -> & _).
    rewrite Hst in Hst'. cbn [ToString] in Hst'. injection Hst' as <-. now exists d.
  - apply unparseable_not_current.
Qed.

(** C3, as amended.  Every key of the candidate lists has a candidate,
    each marked current when its start is absent or not after now and
    its end is absent or not before now, and its entry is built from one
    of them: the first current candidate when there is one, hence the
    only current one when there is exactly one; and, when none is
    current and every start date is absent or parses, so that the start
    epochs are numbers, the first candidate among those with the
    greatest start epoch. *)
Theorem C3_selection (docs : JsVal) (byKey : list (string * list Candidate))
    (outIndex : list (string * JsVal)) (key : string) (arr : list Candidate) :
  collect Date_parse today docs = Ok byKey ->
  buildIndex Date_parse today docs = Ok outIndex ->
  assoc key byKey = Some arr ->
  arr <> [] /\
  (forall c, In c arr ->
     exists s e,
       dateOf Date_parse (get_opt (term c) "start") = Ok s /\
       dateOf Date_parse (get_opt (term c) "end") = Ok e /\
       isCurrent c = currentAt today s e) /\
  exists chosen entry,
    choose arr = Some chosen /\ In chosen arr /\
    entryOf chosen = Ok entry /\ assoc key outIndex = Some entry /\
    (existsb isCurrent arr = true ->
       isCurrent chosen = true /\
       exists pre post,
         arr = (pre ++ chosen :: post)%list /\ forall c, In c pre -> isCurrent c = false) /\
    (forall c, In c arr -> isCurrent c = true ->
       (forall c', In c' arr -> isCurrent c' = true -> c' = c) -> chosen = c) /\
    (existsb isCurrent arr = false ->
     forallb (fun c => numeric (start c)) arr = true ->
       exists pre post,
         arr = (pre ++ chosen :: post)%list /\
         (forall c, In c pre -> gt (start chosen) (start c) = true) /\
         (forall c, In c post -> le (start c) (start chosen) = true)).
Proof.
  intros Hc Hb Harr.
  destruct (collect_wellFiled Date_parse today docs byKey Hc) as [_ Hwf].
  destruct (Hwf key arr Harr) as [Hne Hfiled].
  pose proof (buildIndex_spec docs byKey outIndex Hc Hb key) as Hall.
  rewrite Harr in Hall.
  destruct Hall as (chosen & entry & Hch & Hin & He & Hout).
  split; [exact Hne|]. split.
  - intros c Hc'. destruct (Hfiled c Hc') as [_ Hpt].
    destruct (termCandidate_inv Date_parse today _ _ _ _ Hpt)
      as (_ & st & d & s & e & _ & _ & Hs & He' & _ & Heq).
    exists s, e. split; [exact Hs|]. split; [exact He'|]. rewrite Heq at 1. reflexivity.
  - exists chosen, entry. repeat (split; [assumption|]). split; [|split].
    + now apply choose_current.
    + intros c Hc' Hcur Honly.
      assert (Hex : existsb isCurrent arr = true) by (apply existsb_exists; eauto).
      destruct (choose_current arr chosen Hch Hex) as [Hcc _]. now apply Honly.
    + now apply choose_latest.
Qed.

Variable yaml_load : string -> Result JsVal.
Variable LEG_FILE : string.

(** The index is assigned once, from a build that completed. *)
Lemma loadIndex_publishes (file : Result string) (st st' : Process) :
  loadIndex Date_parse yaml_load LEG_FILE file today st = (Ok tt, st') ->
  exists raw docs,
    file = Ok raw /\ yaml_load raw = Ok docs /\
    buildIndex Date_parse today docs = Ok (INDEX st').
Proof.
  unfold loadIndex, bindM, lift, set_INDEX, get_INDEX, console_log, buildIndex.
  destruct file as [raw|e]; [|discriminate].
  destruct (yaml_load raw) as [docs|e] eqn:Hy; [|discriminate].
  destruct (collect Date_parse today docs) as [byKey|e] eqn:Hc; [|discriminate].
  destruct (materialize byKey) as [outIndex|e] eqn:Hm; [|discriminate].
  cbn [INDEX console]. intros [= <-]. exists raw, docs. rewrite Hc.
  cbn [bind INDEX]. auto.
Qed.

Lemma loadIndex_completes (file : Result string) (st : Process) (raw : string)
    (docs : JsVal) (outIndex : list (string * JsVal)) :
  file = Ok raw -> yaml_load raw = Ok docs ->
  buildIndex Date_parse today docs = Ok outIndex ->
  exists st', loadIndex Date_parse yaml_load LEG_FILE file today st = (Ok tt, st') /\
              INDEX st' = outIndex.
Proof.
  intros -> Hy Hb.
  unfold loadIndex, bindM, lift, set_INDEX, get_INDEX, console_log. rewrite Hy.
  unfold buildIndex in Hb.
  destruct (collect Date_parse today docs) as [byKey|e]; [|discriminate].
  cbn [bind] in Hb. rewrite Hb. eexists. split; reflexivity.
Qed.

Lemma loadIndex_throws (file : Result string) (st st' : Process) (err : string) :
  loadIndex Date_parse yaml_load LEG_FILE file today st = (Throw err, st') -> st' = st.
Proof.
  unfold loadIndex, bindM, lift, set_INDEX, get_INDEX, console_log.
  destruct file as [raw|e]; [|now intros [= _ <-]].
  destruct (yaml_load raw) as [docs|e]; [|now intros [= _ <-]].
  destruct (collect Date_parse today docs) as [byKey|e]; [|now intros [= _ <-]].
  destruct (materialize byKey) as [outIndex|e]; [discriminate|now intros [= _ <-]].
Qed.

(** C8.  A rebuild depends on the roster and on the evaluation instant
    only: from any two process states, such as the one before a build
    and the one after it, the same roster at the same instant gives the
    same outcome and, when the build completes, indexes that agree key
    by key. *)
Theorem C8_rebuild_deterministic (file : Result string) (st1 st2 : Process) :
  fst (loadIndex Date_parse yaml_load LEG_FILE file today st1) =
  fst (loadIndex Date_parse yaml_load LEG_FILE file today st2) /\
  (forall st1',
     loadIndex Date_parse yaml_load LEG_FILE file today st1 = (Ok tt, st1') ->
     (exists st2',
        loadIndex Date_parse yaml_load LEG_FILE file today st2 = (Ok tt, st2') /\
        forall key, assoc key (INDEX st2') = assoc key (INDEX st1')) /\
     (exists st1'',
        loadIndex Date_parse yaml_load LEG_FILE file today st1' = (Ok tt, st1'') /\
        forall key, assoc key (INDEX st1'') = assoc key (INDEX st1'))).
Proof.
  split.
  - unfold loadIndex, bindM, lift, set_INDEX, get_INDEX, console_log.
    destruct file as [raw|e]; [|reflexivity].
    destruct (yaml_load raw) as [docs|e]; [|reflexivity].
    destruct (collect Date_parse today docs) as [byKey|e]; [|reflexivity].
    destruct (materialize byKey) as [outIndex|e]; reflexivity.
  - intros st1' H1.
    destruct (loadIndex_publishes file st1 st1' H1) as (raw & docs & Hf & Hy & Hb).
    split.
    + destruct (loadIndex_completes file st2 raw docs _ Hf Hy Hb) as (st2' & H2 & Hi).
      exists st2'. split; [exact H2|]. intros key. now rewrite Hi.
    + destruct (loadIndex_completes file st1' raw docs _ Hf Hy Hb) as (st1'' & H2 & Hi).
      exists st1''. split; [exact H2|]. intros key. now rewrite Hi.
Qed.

(** C10.  A rebuild that throws, at the read of the file, at the parse
    or partway through the build, leaves the process state as it was,
    and the reload handler answers 500 with the index untouched; the
    index changes only by the assignment that follows a completed
    build. *)
Theorem C10_failed_rebuild_keeps_index (file : Result string) (st : Process) :
  (forall err st',
     loadIndex Date_parse yaml_load LEG_FILE file today st = (Throw err, st') ->
     st' = st /\
     adminReload Date_parse yaml_load LEG_FILE file today st =
       (Status 500 (errorBody err), st)) /\
  (forall st',
     loadIndex Date_parse yaml_load LEG_FILE file today st = (Ok tt, st') ->
     exists raw docs,
       file = Ok raw /\ yaml_load raw = Ok docs /\
       buildIndex Date_parse today docs = Ok (INDEX st')).
Proof.
  split.
  - intros err st' H. pose proof (loadIndex_throws file st st' err H) as ->.
    split; [reflexivity|]. unfold adminReload. now rewrite H.
  - intros st'. apply loadIndex_publishes.
Qed.

End BuildProperties.

(* ================================================================= *)
(** ** The builder on the sample rosters *)

Lemma C1_witness :
  iter "docs" Samples.roster = Ok [Samples.jane; Samples.malformed] /\
  forallb personSound [Samples.jane; Samples.malformed] = true /\
  exists byKey outIndex,
    collect IsoDate.parse Samples.today Samples.roster = Ok byKey /\
    buildIndex IsoDate.parse Samples.today Samples.roster = Ok outIndex /\
    exists c arr entry,
      termCandidate IsoDate.parse Samples.today Samples.malformed Samples.stateless
        = Ok ("undefined-5", c) /\
      assoc "undefined-5" byKey = Some arr /\ In c arr /\
      assoc "undefined-5" outIndex = Some entry.
Proof.
  split; [reflexivity|]. split; [reflexivity|].
  destruct (proj1 (C1_terms_are_kept IsoDate.parse Samples.today Samples.roster
                     [Samples.jane; Samples.malformed] eq_refl) eq_refl)
    as (byKey & outIndex & Hc & Hb & Hterms & _).
  exists byKey, outIndex. split; [exact Hc|]. split; [exact Hb|].
  destruct (Hterms Samples.malformed Samples.stateless)
    as (key & c & arr & entry & Hpt & _ & _ & Harr & Hin & He).
  - right. now left.
  - now left.
  - assert (E : key = "undefined-5") by (vm_compute in Hpt; now injection Hpt as <- _).
    subst key. now exists c, arr, entry.
Defined.

(** C1 as stated fails on the sample roster: the House term without a
    state and the one whose start is no date are not skipped, each has
    its candidate and its entry in the index.  And a House term whose
    state is a mapping with a key [toString] aborts the whole build. *)
Lemma C1_counterexample :
  get_opt Samples.stateless "state" = VUndef /\
  IsoDate.parse "not a date" = NaN /\
  (exists byKey outIndex,
     collect IsoDate.parse Samples.today Samples.roster = Ok byKey /\
     buildIndex IsoDate.parse Samples.today Samples.roster = Ok outIndex /\
     map fst byKey = ["CA-12"; "undefined-5"; "TX-7"] /\
     map fst outIndex = ["CA-12"; "undefined-5"; "TX-7"] /\
     option_map (fun e => get_opt e "raw_term") (assoc "undefined-5" outIndex)
       = Some Samples.stateless /\
     option_map (fun e => get_opt e "raw_term") (assoc "TX-7" outIndex)
       = Some Samples.undated) /\
  In Samples.veiled [Samples.jane; Samples.veiled] /\
  buildIndex IsoDate.parse Samples.today (VArr [Samples.jane; Samples.veiled])
    = Throw noPrimitive.
Proof.
  split; [reflexivity|]. split; [reflexivity|]. split.
  - eexists. eexists. split; [vm_compute; reflexivity|].
    split; [vm_compute; reflexivity|]. repeat split.
  - split; [right; now left|reflexivity].
Qed.

Lemma C3_witness :
  collect IsoDate.parse Samples.today (VArr [Samples.former])
    = Ok [("OH-3", Samples.formerCandidates)] /\
  buildIndex IsoDate.parse Samples.today (VArr [Samples.former])
    = Ok [("OH-3", Samples.formerEntry)] /\
  existsb isCurrent Samples.formerCandidates = false /\
  forallb (fun c => numeric (start c)) Samples.formerCandidates = true /\
  exists chosen pre post,
    choose Samples.formerCandidates = Some chosen /\
    get_opt (term chosen) "start" = VStr "1971-01-21" /\
    Samples.formerCandidates = (pre ++ chosen :: post)%list /\
    (forall c, In c pre -> gt (start chosen) (start c) = true) /\
    (forall c, In c post -> le (start c) (start chosen) = true).
Proof.
  split; [reflexivity|]. split; [reflexivity|]. split; [reflexivity|].
  split; [reflexivity|].
  destruct (C3_selection IsoDate.parse Samples.today (VArr [Samples.former])
              [("OH-3", Samples.formerCandidates)] [("OH-3", Samples.formerEntry)]
              "OH-3" Samples.formerCandidates eq_refl eq_refl eq_refl)
    as (_ & _ & chosen & entry & Hch & _ & _ & _ & _ & _ & Hlatest).
  destruct (Hlatest eq_refl eq_refl) as (pre & post & Hsplit & Hpre & Hpost).
  exists chosen, pre, post. split; [exact Hch|]. split; [|auto].
  assert (E : Some chosen
              = Some (Samples.candidate Samples.former
                        (Samples.seat "1971-01-21" "1973-01-03")))
    by (rewrite <- Hch; reflexivity).
  injection E as ->. reflexivity.
Defined.

(** C3 as stated fails on a key whose first candidate has a start that
    is no date: no candidate is current, the candidate chosen is the one
    without a start epoch, not the one that started in 1965. *)
Lemma C3_counterexample :
  let c1 := Samples.candidate Samples.garbled (Samples.seat "not a date" "1959-01-03") in
  let c2 := Samples.candidate Samples.garbled (Samples.seat "1965-01-04" "1967-01-03") in
  collect IsoDate.parse Samples.today (VArr [Samples.garbled]) = Ok [("OH-3", [c1; c2])] /\
  existsb isCurrent [c1; c2] = false /\
  start c1 = NaN /\
  start c2 = IsoDate.parse "1965-01-04" /\
  choose [c1; c2] = Some c1 /\
  le (start c2) (start c1) = false /\
  exists outIndex,
    buildIndex IsoDate.parse Samples.today (VArr [Samples.garbled]) = Ok outIndex /\
    option_map (fun e => get_opt e "raw_term") (assoc "OH-3" outIndex)
      = Some (Samples.seat "not a date" "1959-01-03").
Proof.
  cbv zeta. repeat (split; [reflexivity|]).
  eexists. split; [vm_compute; reflexivity|reflexivity].
Qed.

Lemma C8_witness :
  let load := loadIndex IsoDate.parse (fun _ => Ok Samples.roster)
                "legislators-current.yaml" (Ok "roster text") Samples.today in
  let st1 := snd (load {| INDEX := []; console := [] |}) in
  load {| INDEX := []; console := [] |} = (Ok tt, st1) /\
  exists st2,
    load st1 = (Ok tt, st2) /\ forall key, assoc key (INDEX st2) = assoc key (INDEX st1).
Proof.
  intros load st1. split; [reflexivity|].
  exact (proj2 (proj2 (C8_rebuild_deterministic IsoDate.parse Samples.today
                         (fun _ => Ok Samples.roster) "legislators-current.yaml"
                         (Ok "roster text") {| INDEX := []; console := [] |}
                         Samples.running)
                  st1 eq_refl)).
Defined.

Lemma C10_witness :
  loadIndex IsoDate.parse (fun _ => Ok (VArr [Samples.jane; VNull]))
    "legislators-current.yaml" (Ok "roster text") Samples.today Samples.running
    = (Throw "TypeError: Cannot read properties of null (reading 'terms')",
       Samples.running) /\
  adminReload IsoDate.parse (fun _ => Ok (VArr [Samples.jane; VNull]))
    "legislators-current.yaml" (Ok "roster text") Samples.today Samples.running
    = (Status 500 (errorBody "TypeError: Cannot read properties of null (reading 'terms')"),
       Samples.running).
Proof.
  split; [reflexivity|].
  apply (proj1 (C10_failed_rebuild_keeps_index IsoDate.parse Samples.today
                  (fun _ => Ok (VArr [Samples.jane; VNull])) "legislators-current.yaml"
                  (Ok "roster text") Samples.running)
           "TypeError: Cannot read properties of null (reading 'terms')" Samples.running).
  reflexivity.
Defined.

(* ================================================================= *)
(** ** The entries of the index *)

(** The keys of [outIndex] after the second loop. *)
Lemma foldM_keyStep_keys (byKey : list (string * list Candidate)) (keys : list string) :
  forall outIndex outIndex',
    foldM (keyStep byKey) keys outIndex = Ok outIndex' ->
    NoDup keys ->
    (forall k, In k keys -> ~ In k (map fst outIndex)) ->
    map fst outIndex' = (map fst outIndex ++ keys)%list.
Proof.
  induction keys as [|key rest IH]; intros outIndex outIndex'; cbn [foldM].
  - intros [= <-] _ _. now rewrite app_nil_r.
  - unfold keyStep at 1.
    destruct (assoc key byKey) as [arr|]; [|discriminate].
    destruct (choose arr) as [chosen|]; [|discriminate].
    destruct (entryOf chosen) as [entry|e]; [|discriminate]. cbn [bind].
    intros Hfold Hnd Hfresh. inversion Hnd as [|? ? Hnotin Hnd']; subst.
    assert (Hk : map fst (assign key entry outIndex) = (map fst outIndex ++ [key])%list).
    { rewrite keys_assign. rewrite (assoc_none_keys key outIndex); [reflexivity|].
      apply Hfresh. now left. }
    rewrite (IH _ _ Hfold Hnd').
    + rewrite Hk, <- app_assoc. reflexivity.
    + intros k Hin. rewrite Hk, in_app_iff. intros [H|[<-|[]]].
      * apply (Hfresh k); [now right|exact H].
      * contradiction.
Qed.

Section IndexContents.

Variable Date_parse : string -> JsNum.
Variable today : Z.

(** The entry of a key is the entry of a candidate filed under that
    key, the candidate of a House term of the roster. *)
Lemma index_entry_source (docs : JsVal) (persons : list JsVal)
    (outIndex : list (string * JsVal)) (key : string) (entry : JsVal) :
  iter "docs" docs = Ok persons ->
  buildIndex Date_parse today docs = Ok outIndex ->
  assoc key outIndex = Some entry ->
  exists chosen,
    In (person chosen) persons /\ In (term chosen) (houseTerms (person chosen)) /\
    termCandidate Date_parse today (person chosen) (term chosen) = Ok (key, chosen) /\
    entryOf chosen = Ok entry.
Proof.
  intros Hiter Hb Hentry.
  destruct (buildIndex_collect Date_parse today docs outIndex Hb) as (byKey & Hc & _).
  pose proof (buildIndex_spec Date_parse today docs byKey outIndex Hc Hb key) as Hall.
  destruct (assoc key byKey) as [arr|] eqn:Harr; [|congruence].
  destruct Hall as (chosen & entry' & _ & Hin & He & Hout).
  rewrite Hentry in Hout. injection Hout as <-.
  destruct (collect_sources Date_parse today docs persons byKey key arr chosen
              Hiter Hc Harr Hin) as (Hp & Ht & Hpt).
  exists chosen. auto.
Qed.

(** The keys of a built index are the keys of the House terms of the
    roster, in the order in which the roster first shows them. *)
Lemma index_keys (docs : JsVal) (persons : list JsVal)
    (outIndex : list (string * JsVal)) :
  iter "docs" docs = Ok persons ->
  buildIndex Date_parse today docs = Ok outIndex ->
  (exists all,
     fileAll Date_parse today persons = Ok all /\
     map fst outIndex = distinctKeys (map fst all)) /\
  NoDup (map fst outIndex).
Proof.
  intros Hiter Hb.
  destruct (buildIndex_collect Date_parse today docs outIndex Hb) as (byKey & Hc & Hm).
  destruct (collect_groups Date_parse today docs persons byKey Hiter Hc)
    as (all & Hall & _ & Hkeys).
  destruct (collect_wellFiled Date_parse today docs byKey Hc) as [Hnd _].
  assert (Hk : map fst outIndex = map fst byKey).
  { unfold materialize in Hm.
    exact (foldM_keyStep_keys byKey (map fst byKey) [] outIndex Hm Hnd (fun k _ H => H)). }
  split; [exists all; split; [exact Hall|now rewrite Hk]|now rewrite Hk].
Qed.

(** X4.  Every entry of a built index is the entry of a House term of
    the roster, filed under the key of that term: the entry carries the
    roster entry and the term, the type of the term is ["rep"], and the
    key is the state of the term, a hyphen and a district that is
    neither empty nor ["0"]. *)
Theorem index_entries_are_house_terms (docs : JsVal) (persons : list JsVal)
    (outIndex : list (string * JsVal)) (key : string) (entry : JsVal) :
  iter "docs" docs = Ok persons ->
  buildIndex Date_parse today docs = Ok outIndex ->
  assoc key outIndex = Some entry ->
  exists p t st d,
    In p persons /\ In t (houseTerms p) /\
    is_str (get_opt t "type") "rep" = true /\
    get_opt entry "raw_person" = p /\ get_opt entry "raw_term" = t /\
    ToString (get_opt t "state") = Ok st /\
    normDistrict (get_opt t "district") = Ok d /\
    key = st ++ "-" ++ d /\
    isEmpty d = false /\ d <> "0".
Proof.
  intros Hiter Hb Hentry.
  destruct (index_entry_source docs persons outIndex key entry Hiter Hb Hentry)
    as (chosen & Hp & Ht & Hpt & He).
  destruct (termCandidate_inv Date_parse today _ _ _ _ Hpt)
    as (_ & st & d & s & e & Hst & Hd & _ & _ & Hkey & _).
  destruct (entryOf_shape _ _ He) as (name & party & phone & url & bio & -> & _).
  destruct (normDistrict_never_zero _ d Hd) as [Hne Hnz].
  exists (person chosen), (term chosen), st, d.
  split; [exact Hp|]. split; [exact Ht|].
  split; [now apply houseTerms_rep with (p := person chosen)|].
  split; [reflexivity|]. split; [reflexivity|]. auto.
Qed.

(** X5.  A built index has one entry per key of the roster, in the order
    in which the roster first shows the keys, and no key twice; each
    entry has the seven fields of the record, with a party, a phone and
    a url that are a truthy value or the empty text and a bioguide that
    is a truthy value or [null]. *)
Theorem index_keys_and_fields (docs : JsVal) (persons : list JsVal)
    (outIndex : list (string * JsVal)) :
  iter "docs" docs = Ok persons ->
  buildIndex Date_parse today docs = Ok outIndex ->
  (exists all,
     fileAll Date_parse today persons = Ok all /\
     map fst outIndex = distinctKeys (map fst all)) /\
  NoDup (map fst outIndex) /\
  forall key entry, assoc key outIndex = Some entry ->
    exists name party phone url bioguide raw_person raw_term,
      entry = VObj [("name", name); ("party", party); ("phone", phone); ("url", url);
                    ("bioguide", bioguide); ("raw_person", raw_person);
                    ("raw_term", raw_term)] /\
      (truthy party = true \/ party = VStr "") /\
      (truthy phone = true \/ phone = VStr "") /\
      (truthy url = true \/ url = VStr "") /\
      (truthy bioguide = true \/ bioguide = VNull).
Proof.
  intros Hiter Hb.
  destruct (index_keys docs persons outIndex Hiter Hb) as [Hkeys Hnd].
  split; [exact Hkeys|]. split; [exact Hnd|].
  intros key entry Hentry.
  destruct (index_entry_source docs persons outIndex key entry Hiter Hb Hentry)
    as (chosen & _ & _ & _ & He).
  destruct (entryOf_shape _ _ He) as (name & party & phone & url & bio & -> & _ & H).
  exists name, party, phone, url, bio, (person chosen), (term chosen).
  split; [reflexivity|exact H].
Qed.

End IndexContents.

Lemma index_entries_are_house_terms_witness :
  let outIndex := [("CA-12", Samples.janeEntry)] in
  iter "docs" (VArr [Samples.jane]) = Ok [Samples.jane] /\
  buildIndex IsoDate.parse Samples.today (VArr [Samples.jane]) = Ok outIndex /\
  assoc "CA-12" outIndex = Some Samples.janeEntry /\
  is_str (get_opt (get_opt Samples.janeEntry "raw_term") "type") "rep" = true.
Proof.
  cbv zeta. split; [reflexivity|]. split; [reflexivity|]. split; [reflexivity|].
  destruct (index_entries_are_house_terms IsoDate.parse Samples.today (VArr [Samples.jane])
              [Samples.jane] [("CA-12", Samples.janeEntry)] "CA-12" Samples.janeEntry
              eq_refl eq_refl eq_refl) as (p & t & st & d & _ & _ & Hrep & _ & <- & _).
  exact Hrep.
Defined.

Lemma index_keys_and_fields_witness :
  iter "docs" (VArr [Samples.jane]) = Ok [Samples.jane] /\
  buildIndex IsoDate.parse Samples.today (VArr [Samples.jane])
    = Ok [("CA-12", Samples.janeEntry)] /\
  NoDup (map fst [("CA-12", Samples.janeEntry)]).
Proof.
  split; [reflexivity|]. split; [reflexivity|].
  exact (proj1 (proj2 (index_keys_and_fields IsoDate.parse Samples.today
                         (VArr [Samples.jane]) [Samples.jane]
                         [("CA-12", Samples.janeEntry)] eq_refl eq_refl))).
Defined.

(* ================================================================= *)
(** ** The join over a built index *)

Lemma built_entry (Date_parse : string -> JsNum) (today : Z) (docs : JsVal)
    (outIndex : list (string * JsVal)) (key : string) (entry : JsVal) :
  buildIndex Date_parse today docs = Ok outIndex ->
  assoc key outIndex = Some entry ->
  exists chosen, entryOf chosen = Ok entry.
Proof.
  intros Hb Hentry.
  destruct (buildIndex_collect Date_parse today docs outIndex Hb) as (byKey & Hc & _).
  pose proof (buildIndex_spec Date_parse today docs byKey outIndex Hc Hb key) as Hall.
  destruct (assoc key byKey) as [arr|]; [|congruence].
  destruct Hall as (chosen & entry' & _ & _ & He & Hout).
  rewrite Hentry in Hout. injection Hout as <-. now exists chosen.
Qed.

(** X6.  Over a built index, for a key that is no name of a member
    every object inherits, such as every key with a hyphen: the join
    gives a record exactly when the bioguide of the entry of the key, if
    there is one, has a text, and throws otherwise; the record is marked
    missing exactly when the key has no entry; the record of a key that
    has one copies the name, party, phone, url, bioguide, roster entry
    and term of the entry, and its photo is the bioguide photo address
    when the entry has a bioguide and [null] when it has none. *)
Theorem join_over_built_index (Date_parse : string -> JsNum) (today : Z) (docs : JsVal)
    (outIndex : list (string * JsVal)) (k : string) :
  buildIndex Date_parse today docs = Ok outIndex ->
  assoc k Object_prototype = None ->
  (completes (resolveOne outIndex k) <->
   forall entry, assoc k outIndex = Some entry ->
     plain (get_opt entry "bioguide") = true) /\
  forall r, resolveOne outIndex k = Ok r ->
    (get_opt r "missing" = VBool true <-> assoc k outIndex = None) /\
    (forall entry, assoc k outIndex = Some entry ->
       get_opt r "name" = get_opt entry "name" /\
       get_opt r "party" = get_opt entry "party" /\
       get_opt r "phone" = get_opt entry "phone" /\
       get_opt r "url" = get_opt entry "url" /\
       get_opt r "bioguide" = get_opt entry "bioguide" /\
       get_opt r "raw_person" = get_opt entry "raw_person" /\
       get_opt r "raw_term" = get_opt entry "raw_term" /\
       (if truthy (get_opt entry "bioguide")
        then exists text,
               ToString (get_opt entry "bioguide") = Ok text /\
               get_opt r "photo" =
                 VStr ("https://bioguide.congress.gov/photo/" ++ text ++ ".jpg")
        else get_opt r "photo" = VNull) /\
       (get_opt r "photo" = VNull <-> get_opt entry "bioguide" = VNull)).
Proof.
  intros Hb Hown. destruct (assoc k outIndex) as [entry|] eqn:Hentry.
  - destruct (built_entry Date_parse today docs outIndex k entry Hb Hentry) as [chosen He].
    destruct (entryOf_shape _ _ He)
      as (name & party & phone & url & bio & -> & _ & _ & _ & _ & Hbio).
    unfold resolveOne, entryAt. rewrite Hentry. cbn [truthy]. rewrite !get_obj. cbn [bind].
    change (field _ "bioguide") with bio. split.
    + split.
      * intros [r Hr] entry' [= <-]. rewrite get_opt_obj. change (field _ "bioguide") with bio.
        destruct (truthy bio) eqn:Ht; [|now apply falsy_plain].
        destruct (ToString bio) as [text|e] eqn:Htext; [|discriminate].
        apply ToString_plain. now exists text.
      * intros Hplain. specialize (Hplain _ eq_refl). rewrite get_opt_obj in Hplain.
        change (field _ "bioguide") with bio in Hplain.
        destruct (truthy bio); [|now eexists].
        apply ToString_plain in Hplain as [text ->]. now eexists.
    + intros r Hr. split.
      * split; [|discriminate]. intros Hm. exfalso.
        destruct (truthy bio); [destruct (ToString bio); [|discriminate]|];
          cbn [bind] in Hr; injection Hr as <-; discriminate.
      * intros entry' [= <-]. rewrite !get_opt_obj.
        change (field _ "bioguide") with bio.
        destruct Hbio as [Ht| ->]; [rewrite Ht in *|cbn [truthy] in *].
        -- destruct (ToString bio) as [text|e] eqn:Htext; [|discriminate].
           cbn [bind] in Hr. injection Hr as <-. rewrite !get_opt_obj.
           repeat (split; [reflexivity|]). split.
           ++ exists text. split; reflexivity.
           ++ split; [discriminate|]. intros E. rewrite E in Ht. discriminate.
        -- cbn [bind] in Hr. injection Hr as <-. rewrite !get_opt_obj.
           repeat split.
  - unfold resolveOne, entryAt. rewrite Hentry, Hown. cbn [truthy]. split.
    + split; [discriminate|]. intros _. now eexists.
    + intros r [= <-]. split.
      * split; reflexivity.
      * intros entry. discriminate.
Qed.

Lemma join_over_built_index_witness :
  let outIndex := [("CA-12", Samples.janeEntry)] in
  buildIndex IsoDate.parse Samples.today (VArr [Samples.jane]) = Ok outIndex /\
  assoc "CA-12" Object_prototype = None /\
  exists r,
    resolveOne outIndex "CA-12" = Ok r /\
    get_opt r "name" = VStr "Jane Doe" /\
    get_opt r "photo" = VStr "https://bioguide.congress.gov/photo/D000001.jpg" /\
    get_opt r "missing" <> VBool true.
Proof.
  cbv zeta. split; [reflexivity|]. split; [reflexivity|].
  destruct (join_over_built_index IsoDate.parse Samples.today (VArr [Samples.jane])
              [("CA-12", Samples.janeEntry)] "CA-12" eq_refl eq_refl)
    as [Hcompletes Hrecord].
  destruct (proj2 Hcompletes) as [r Hr].
  { intros entry [= <-]. reflexivity. }
  destruct (Hrecord r Hr) as [Hmiss Hcopy].
  destruct (Hcopy Samples.janeEntry eq_refl)
    as (Hn & _ & _ & _ & _ & _ & _ & (text & Htext & Hphoto) & _).
  exists r. split; [exact Hr|]. split; [exact Hn|]. split.
  - rewrite Hphoto. cbn in Htext. injection Htext as <-. reflexivity.
  - intros E. apply Hmiss in E. discriminate.
Defined.

(* ================================================================= *)
(** ** The [/api/rep] handler *)

(** The answers of the second half of the handler. *)
Lemma apiRep_answers (index : list (string * JsVal)) (zip : string)
    (centroid geoJson : JsVal) :
  statusOf (apiRep index zip centroid geoJson) = 404 \/
  statusOf (apiRep index zip centroid geoJson) = 500 \/
  exists keys reps,
    apiRep index zip centroid geoJson =
      Status 200 (VObj [("zip", VStr zip); ("centroid", centroid);
                        ("districts", VArr (map VStr keys));
                        ("representatives", VArr reps)]) /\
    keys <> [] /\ NoDup keys /\
    Forall2 (fun k r => resolveOne index k = Ok r) keys reps.
Proof.
  unfold apiRep.
  destruct (or_chain [Ok (get_opt (get_opt geoJson "result") "geographies");
                      Ok (get_opt geoJson "geographies")]
                     (Ok (get_opt geoJson "result"))) as [geogs|e];
    [|right; now left]. cbn [bind].
  destruct (truthy geogs); cbn [negb]; [|now left].
  destruct (locateDistricts geogs) as [cdArray|e]; [|right; now left]. cbn [bind].
  destruct (noDistricts cdArray) as [[|]|e]; [now left| |right; now left]. cbn [bind].
  destruct (resolveDistricts cdArray) as [keys|e] eqn:Hkeys; [|right; now left].
  cbn [bind]. destruct keys as [|k rest]; [now left|]. cbn [List.length Nat.eqb].
  destruct (resolveRepresentatives index (k :: rest)) as [reps|e] eqn:Hreps;
    [|right; now left].
  cbn [bind]. right. right. exists (k :: rest), reps.
  split; [reflexivity|]. split; [discriminate|].
  split; [|now apply resolveRepresentatives_each].
  unfold resolveDistricts in Hkeys.
  destruct (iter "cdArray" cdArray) as [cds|e]; [|discriminate]. cbn [bind] in Hkeys.
  exact (proj1 (foldM_cdStep cds [] _ Hkeys (NoDup_nil _))).
Qed.

Section HandlerFacts.

Variable fetch : string -> Result FetchResponse.
Variable parseFloat : string -> JsVal.
Variable encodeURIComponent : JsVal -> string.

(** The answers of the [try] block. *)
Lemma lookup_answers (index : list (string * JsVal)) (zip : string) (r : Response) :
  lookup fetch parseFloat encodeURIComponent index zip = Ok r ->
  statusOf r = 404 \/ statusOf r = 500 \/ statusOf r = 502 \/
  exists lat lon keys reps,
    r = Status 200 (VObj [("zip", VStr zip);
                          ("centroid", VObj [("lat", lat); ("lon", lon)]);
                          ("districts", VArr (map VStr keys));
                          ("representatives", VArr reps)]) /\
    keys <> [] /\ NoDup keys /\
    Forall2 (fun k rep => resolveOne index k = Ok rep) keys reps.
Proof.
  unfold lookup.
  destruct (fetch ("https://api.zippopotam.us/us/" ++ zip)) as [zipResp|e];
    [|discriminate]. cbn [bind].
  destruct (ok zipResp); cbn [negb]; [|intros [= <-]; right; right; now left].
  destruct (json zipResp) as [zipJson|e]; [|discriminate]. cbn [bind].
  destruct (placeOf zipJson) as [place|e]; [|discriminate]. cbn [bind].
  destruct (noCoordinates place) as [[|]|e]; [| |discriminate]; cbn [bind].
  { intros [= <-]. right; right; now left. }
  destruct (get place "latitude") as [latitude|e]; [|discriminate]. cbn [bind].
  destruct (ToString latitude) as [latText|e]; [|discriminate]. cbn [bind].
  destruct (get place "longitude") as [longitude|e]; [|discriminate]. cbn [bind].
  destruct (ToString longitude) as [lonText|e]; [|discriminate]. cbn [bind].
  cbv zeta.
  match goal with
  | |- context [fetch ?url] => destruct (fetch url) as [geoResp|e]; [|discriminate]
  end. cbn [bind].
  destruct (ok geoResp); cbn [negb]; [|intros [= <-]; right; right; now left].
  destruct (json geoResp) as [geoJson|e]; [|discriminate]. cbn [bind].
  intros [= <-].
  destruct (apiRep_answers index zip
              (VObj [("lat", parseFloat latText); ("lon", parseFloat lonText)]) geoJson)
    as [H|[H|(keys & reps & H & Hne & Hnd & Hall)]]; [now left|right; now left|].
  right; right; right. exists (parseFloat latText), (parseFloat lonText), keys, reps.
  auto.
Qed.

(** X10.  A zip parameter that is a text, or is absent, always gets an
    answer, and the answer is 400 exactly when the text without the
    white space around it is not five digits; a zip parameter that is a
    list or a record makes the handler throw before its [try] block. *)
Theorem handler_zip_validation (index : list (string * JsVal)) (zipParam : JsVal) :
  (forall s,
     zipParam = VStr s \/ (truthy zipParam = false /\ s = "") ->
     exists r,
       apiRepHandler fetch parseFloat encodeURIComponent index zipParam = Ok r /\
       (statusOf r = 400 <-> test_zip5 (trim s) = false)) /\
  (truthy zipParam = true -> (forall s, zipParam <> VStr s) ->
     exists err,
       apiRepHandler fetch parseFloat encodeURIComponent index zipParam = Throw err).
Proof.
  split.
  - intros s Hs.
    assert (Hq : zipQueryOf zipParam = Ok (trim s)).
    { unfold zipQueryOf. destruct Hs as [->|[Hf ->]].
      - destruct s; reflexivity.
      - now rewrite Hf. }
    unfold apiRepHandler. rewrite Hq. cbn [bind].
    destruct (test_zip5 (trim s)) eqn:Hz; cbn [negb].
    + assert (He : isEmpty (trim s) = false) by (now destruct (trim s)).
      rewrite He. cbn [orb]. eexists. split; [reflexivity|].
      split; [|discriminate]. intros H400. exfalso.
      destruct (lookup fetch parseFloat encodeURIComponent index (trim s)) as [r|e] eqn:Hl;
        [|discriminate].
      destruct (lookup_answers index (trim s) r Hl)
        as [H|[H|[H|(lat & lon & keys & reps & -> & _)]]];
        try (rewrite H in H400; discriminate). discriminate.
    + rewrite orb_true_r. eexists. split; [reflexivity|]. split; reflexivity.
  - intros Ht Hns. unfold apiRepHandler, zipQueryOf. rewrite Ht.
    destruct zipParam as [| |b|n|s|xs|fs]; try (now eexists).
    now elim (Hns s).
Qed.

(** X11.  Every answer of the handler has status 200, 400, 404, 500 or
    502; an answer 200 is for a five-digit ZIP code and carries the
    centroid, at least one district key, no key twice, and one
    representative record per key, in the order of the keys. *)
Theorem handler_answers (index : list (string * JsVal)) (zipParam : JsVal) (r : Response) :
  apiRepHandler fetch parseFloat encodeURIComponent index zipParam = Ok r ->
  In (statusOf r) [200; 400; 404; 500; 502] /\
  (statusOf r = 200 ->
   exists zip lat lon keys reps,
     test_zip5 zip = true /\
     bodyOf r = VObj [("zip", VStr zip);
                      ("centroid", VObj [("lat", lat); ("lon", lon)]);
                      ("districts", VArr (map VStr keys));
                      ("representatives", VArr reps)] /\
     keys <> [] /\ NoDup keys /\
     Forall2 (fun k rep => resolveOne index k = Ok rep) keys reps).
Proof.
  unfold apiRepHandler. destruct (zipQueryOf zipParam) as [zip|e]; [|discriminate].
  cbn [bind]. destruct (isEmpty zip || negb (test_zip5 zip)) eqn:Hbad.
  - intros [= <-]. split; [cbn; tauto|]. discriminate.
  - apply orb_false_iff in Hbad as [_ Hz]. apply negb_false_iff in Hz.
    destruct (lookup fetch parseFloat encodeURIComponent index zip) as [r'|e] eqn:Hl.
    + intros [= <-].
      destruct (lookup_answers index zip r' Hl)
        as [H|[H|[H|(lat & lon & keys & reps & -> & Hne & Hnd & Hall)]]].
      * rewrite H. split; [cbn; tauto|discriminate].
      * rewrite H. split; [cbn; tauto|discriminate].
      * rewrite H. split; [cbn; tauto|discriminate].
      * split; [cbn; tauto|]. intros _. exists zip, lat, lon, keys, reps. auto.
    + intros [= <-]. split; [cbn; tauto|discriminate].
Qed.

End HandlerFacts.

Lemma handler_zip_validation_witness :
  (exists r,
     apiRepHandler SampleServices.fetch SampleServices.parseFloat
       SampleServices.encodeURIComponent (INDEX Samples.running) (VStr " 9411 ") = Ok r /\
     statusOf r = 400) /\
  (exists err,
     apiRepHandler SampleServices.fetch SampleServices.parseFloat
       SampleServices.encodeURIComponent (INDEX Samples.running)
       (VArr [VStr "94110"; VStr "10001"]) = Throw err).
Proof.
  destruct (handler_zip_validation SampleServices.fetch SampleServices.parseFloat
              SampleServices.encodeURIComponent (INDEX Samples.running) (VStr " 9411 "))
    as [Htext _].
  destruct (handler_zip_validation SampleServices.fetch SampleServices.parseFloat
              SampleServices.encodeURIComponent (INDEX Samples.running)
              (VArr [VStr "94110"; VStr "10001"])) as [_ Hlist].
  split.
  - destruct (Htext " 9411 " (or_introl eq_refl)) as (r & Hr & H400).
    exists r. split; [exact Hr|]. now apply H400.
  - apply Hlist; [reflexivity|]. intros s. discriminate.
Defined.

Lemma handler_answers_witness :
  exists r,
    apiRepHandler SampleServices.fetch SampleServices.parseFloat
      SampleServices.encodeURIComponent (INDEX Samples.running) (VStr "94110") = Ok r /\
    statusOf r = 200 /\
    get_opt (bodyOf r) "districts" = VArr [VStr "CA-12"; VStr "AK-1"] /\
    In (statusOf r) [200; 400; 404; 500; 502].
Proof.
  eexists. split; [reflexivity|]. split; [reflexivity|]. split; [reflexivity|].
  apply (handler_answers SampleServices.fetch SampleServices.parseFloat
           SampleServices.encodeURIComponent (INDEX Samples.running) (VStr "94110")).
  reflexivity.
Defined.

(* ================================================================= *)
(** ** The page script *)

Lemma escapeChar_safe (c : ascii) :
  allChars (fun c => negb (Ascii.eqb c "<" || Ascii.eqb c ">" || Ascii.eqb c "034"
                           || Ascii.eqb c "'")) (escapeChar c) = true.
Proof. each_char c. Qed.

Lemma escapeChar_plain (c : ascii) :
  isMarkup c = false -> escapeChar c = String c EmptyString.
Proof.
  unfold isMarkup, escapeChar. intros H.
  repeat (apply orb_false_iff in H as [H ?]).
  now repeat match goal with E : Ascii.eqb _ _ = false |- _ => rewrite E; clear E end.
Qed.

Lemma escapeChar_length (c : ascii) : (1 <= String.length (escapeChar c))%nat.
Proof.
  unfold escapeChar.
  repeat match goal with |- context [if ?b then _ else _] => destruct b end;
    cbn [String.length]; lia.
Qed.

Lemma escapeText_safe (s : string) :
  allChars (fun c => negb (Ascii.eqb c "<" || Ascii.eqb c ">" || Ascii.eqb c "034"
                           || Ascii.eqb c "'")) (escapeText s) = true.
Proof.
  induction s as [|c r IH]; cbn [escapeText]; [reflexivity|].
  now rewrite allChars_append, escapeChar_safe, IH.
Qed.

Lemma unescape_escape (s : string) :
  forall fuel, (String.length (escapeText s) <= fuel)%nat ->
    unescapeText fuel (escapeText s) = s.
Proof.
  induction s as [|c r IH]; intros fuel Hfuel.
  - destruct fuel; reflexivity.
  - cbn [escapeText] in *. rewrite length_append in Hfuel.
    pose proof (escapeChar_length c) as Hc.
    destruct fuel as [|fuel]; [lia|].
    destruct (isMarkup c) eqn:Hm.
    + unfold isMarkup in Hm. unfold escapeChar in *.
      destruct (Ascii.eqb_spec c "&") as [->|N1].
      { cbn. rewrite IH; [reflexivity|cbn in Hfuel; lia]. }
      destruct (Ascii.eqb_spec c "<") as [->|N2].
      { cbn. rewrite IH; [reflexivity|cbn in Hfuel; lia]. }
      destruct (Ascii.eqb_spec c ">") as [->|N3].
      { cbn. rewrite IH; [reflexivity|cbn in Hfuel; lia]. }
      destruct (Ascii.eqb_spec c "034") as [->|N4].
      { cbn. rewrite IH; [reflexivity|cbn in Hfuel; lia]. }
      destruct (Ascii.eqb_spec c "'") as [->|N5].
      { cbn. rewrite IH; [reflexivity|cbn in Hfuel; lia]. }
      discriminate.
    + rewrite (escapeChar_plain c Hm) in *. cbn [append String.length] in *.
      assert (Hamp : Ascii.eqb "&" c = false).
      { unfold isMarkup in Hm. repeat (apply orb_false_iff in Hm as [Hm ?]).
        now rewrite Ascii.eqb_sym. }
      cbn [unescapeText dropPrefix]. rewrite Hamp. rewrite IH; [reflexivity|lia].
Qed.

Lemma escapeHtml_text (s : string) : escapeHtml (VStr s) = Ok (escapeText s).
Proof. unfold escapeHtml. destruct s; reflexivity. Qed.

(** X12.  [escapeHtml] gives a text for exactly the values that have
    one; the text it gives holds no [<], no [>] and no quote of either
    kind; a text that holds none of the five characters it replaces
    comes back as it is; a falsy value, zero included, gives the empty
    text; and the original can be read back from the result, so that
    two texts are never escaped to the same text. *)
Theorem escapeHtml_safe_and_faithful (v : JsVal) :
  (completes (escapeHtml v) <-> plain v = true) /\
  (forall out, escapeHtml v = Ok out ->
     allChars (fun c => negb (Ascii.eqb c "<" || Ascii.eqb c ">" || Ascii.eqb c "034"
                              || Ascii.eqb c "'")) out = true) /\
  (truthy v = false -> escapeHtml v = Ok "") /\
  (forall s, v = VStr s -> allChars (fun c => negb (isMarkup c)) s = true ->
     escapeHtml v = Ok s) /\
  (forall s, v = VStr s ->
     exists out, escapeHtml v = Ok out /\ unescapeText (String.length out) out = s) /\
  (forall s s', v = VStr s -> escapeHtml (VStr s') = escapeHtml v -> s' = s).
Proof.
  split; [|split; [|split; [|split; [|split]]]].
  - unfold escapeHtml. destruct (truthy v) eqn:Ht.
    + rewrite completes_map. apply ToString_plain.
    + rewrite (falsy_plain v Ht). split; [reflexivity|]. intros _. now eexists.
  - intros out. unfold escapeHtml.
    destruct (ToString (if truthy v then v else VStr "")) as [text|e]; [|discriminate].
    cbn [bind]. intros [= <-]. apply escapeText_safe.
  - intros Hf. unfold escapeHtml. now rewrite Hf.
  - intros s -> Hs. rewrite escapeHtml_text. f_equal.
    induction s as [|c r IH]; cbn [escapeText]; [reflexivity|].
    cbn [allChars] in Hs. apply andb_true_iff in Hs as [Hc Hr].
    apply negb_true_iff in Hc. now rewrite (escapeChar_plain c Hc), (IH Hr).
  - intros s ->. rewrite escapeHtml_text. exists (escapeText s).
    split; [reflexivity|]. now apply unescape_escape.
  - intros s s' -> E. rewrite !escapeHtml_text in E. injection E as E.
    rewrite <- (unescape_escape s (String.length (escapeText s)) (le_n _)).
    rewrite <- (unescape_escape s' (String.length (escapeText s')) (le_n _)).
    now rewrite E.
Qed.

Lemma escapeHtml_safe_and_faithful_witness :
  escapeHtml (VNum (Num 0)) = Ok "" /\
  escapeHtml (VStr "Jane Doe") = Ok "Jane Doe" /\
  (exists out,
     escapeHtml (VStr "<b>R&D</b>") = Ok out /\
     unescapeText (String.length out) out = "<b>R&D</b>") /\
  ~ completes (escapeHtml Samples.textless).
Proof.
  split; [|split; [|split]].
  - apply (proj1 (proj2 (proj2 (escapeHtml_safe_and_faithful (VNum (Num 0)))))). reflexivity.
  - apply (proj1 (proj2 (proj2 (proj2 (escapeHtml_safe_and_faithful (VStr "Jane Doe")))))
             "Jane Doe" eq_refl). reflexivity.
  - apply (proj1 (proj2 (proj2 (proj2 (proj2
             (escapeHtml_safe_and_faithful (VStr "<b>R&D</b>"))))))
             "<b>R&D</b>" eq_refl).
  - intros H. apply (proj1 (escapeHtml_safe_and_faithful Samples.textless)) in H.
    discriminate.
Defined.

Lemma trimStart_spaces (ws s : string) :
  allChars isSpace ws = true -> trimStart (ws ++ s) = trimStart s.
Proof.
  induction ws as [|c r IH]; cbn [append allChars trimStart]; [reflexivity|].
  intros H. apply andb_true_iff in H as [Hc Hr]. now rewrite Hc, (IH Hr).
Qed.

Lemma trimStart_all_spaces (ws : string) :
  allChars isSpace ws = true -> trimStart ws = "".
Proof.
  induction ws as [|c r IH]; cbn [allChars trimStart]; [reflexivity|].
  intros H. apply andb_true_iff in H as [Hc Hr]. now rewrite Hc, (IH Hr).
Qed.

(** X13.  [partyClass] classifies exactly the values that have a text,
    gives D, R or I, and white space in front of the party makes no
    difference. *)
Theorem partyClass_classes (p : JsVal) :
  (completes (partyClass p) <-> plain p = true) /\
  (forall c, partyClass p = Ok c -> In c ["D"; "R"; "I"]) /\
  (forall ws s, p = VStr s -> allChars isSpace ws = true ->
     partyClass (VStr (ws ++ s)) = partyClass p).
Proof.
  split; [|split].
  - unfold partyClass. destruct (truthy p) eqn:Ht; cbn [negb].
    + split.
      * intros [c Hc]. apply ToString_plain.
        destruct (ToString p) as [s|e]; [now exists s|discriminate].
      * intros Hp. apply ToString_plain in Hp as [s ->]. cbn [bind].
        destruct (prefix "D" (trim s)); now eexists.
    + rewrite (falsy_plain p Ht). split; [reflexivity|]. intros _. now eexists.
  - intros c. unfold partyClass. destruct (truthy p); cbn [negb].
    + destruct (ToString p) as [s|e]; [|discriminate]. cbn [bind].
      destruct (prefix "D" (trim s)); [intros [= <-]; cbn; tauto|].
      destruct (prefix "R" (trim s)); intros [= <-]; cbn; tauto.
    + intros [= <-]. cbn; tauto.
  - intros ws s -> Hws. unfold partyClass. cbn [ToString truthy bind].
    destruct s as [|c r].
    + rewrite append_empty. unfold trim. rewrite (trimStart_all_spaces ws Hws).
      cbn. now destruct (isEmpty ws).
    + assert (Hne : isEmpty (ws ++ String c r) = false) by (now destruct ws).
      rewrite Hne. cbn [isEmpty negb]. unfold trim.
      now rewrite (trimStart_spaces ws _ Hws).
Qed.

Lemma partyClass_classes_witness :
  partyClass (VStr "  Republican") = partyClass (VStr "Republican") /\
  partyClass (VStr "Republican") = Ok "R".
Proof.
  split; [|reflexivity].
  apply (proj2 (proj2 (partyClass_classes (VStr "Republican"))) "  " "Republican" eq_refl).
  reflexivity.
Defined.

(* ================================================================= *)
(** ** The life of the process *)

Section LifeFacts.

Variable Date_parse : string -> JsNum.
Variable yaml_load : string -> Result JsVal.
Variable LEG_FILE : string.

Lemma adminReload_index (file : Result string) (today : Z) (st : Process) :
  INDEX (snd (adminReload Date_parse yaml_load LEG_FILE file today st)) = INDEX st \/
  exists raw docs,
    file = Ok raw /\ yaml_load raw = Ok docs /\
    buildIndex Date_parse today docs =
      Ok (INDEX (snd (adminReload Date_parse yaml_load LEG_FILE file today st))).
Proof.
  unfold adminReload.
  destruct (loadIndex Date_parse yaml_load LEG_FILE file today st) as [[[]|err] st'] eqn:H;
    cbn [snd].
  - right. exact (loadIndex_publishes Date_parse today yaml_load LEG_FILE file st st' H).
  - left. now rewrite (loadIndex_throws Date_parse today yaml_load LEG_FILE file st st' err H).
Qed.

(** X14.  In every state in which the server answers, after start-up
    and after any run of reload requests, failed ones included, the
    published index is the index of a build that completed: it holds no
    key twice and each entry carries a House term, filed under the key
    of that term. *)
Theorem serving_index_is_built (st : Process) :
  Serving Date_parse yaml_load LEG_FILE st ->
  (exists today docs, buildIndex Date_parse today docs = Ok (INDEX st)) /\
  NoDup (map fst (INDEX st)) /\
  (forall key entry, assoc key (INDEX st) = Some entry ->
     is_str (get_opt (get_opt entry "raw_term") "type") "rep" = true /\
     exists state district,
       ToString (get_opt (get_opt entry "raw_term") "state") = Ok state /\
       normDistrict (get_opt (get_opt entry "raw_term") "district") = Ok district /\
       key = state ++ "-" ++ district).
Proof.
  intros Hs.
  assert (B : exists today docs, buildIndex Date_parse today docs = Ok (INDEX st)).
  { induction Hs as [fileExists file today PORT st Hstart|file today st Hs IH].
    - unfold startup in Hstart. destruct fileExists; cbn [negb] in Hstart; [|discriminate].
      destruct (loadIndex Date_parse yaml_load LEG_FILE file today
                  {| INDEX := []; console := [] |}) as [[[]|err] st1] eqn:H; [|discriminate].
      injection Hstart as <-. cbn [console_log snd INDEX].
      destruct (loadIndex_publishes Date_parse today yaml_load LEG_FILE file _ st1 H)
        as (raw & docs & _ & _ & Hb). now exists today, docs.
    - destruct (adminReload_index file today st) as [->|(raw & docs & _ & _ & Hb)];
        [exact IH|]. now exists today, docs. }
  split; [exact B|]. destruct B as (today & docs & Hb).
  assert (Hp : exists persons, iter "docs" docs = Ok persons).
  { destruct (buildIndex_collect Date_parse today docs _ Hb) as (byKey & Hc & _).
    destruct (collect_spec Date_parse today docs byKey Hc) as (persons & Hiter & _).
    now exists persons. }
  destruct Hp as [persons Hiter]. split.
  - exact (proj2 (index_keys Date_parse today docs persons _ Hiter Hb)).
  - intros key entry Hentry.
    destruct (index_entry_source Date_parse today docs persons _ key entry Hiter Hb Hentry)
      as (chosen & _ & Ht & Hpt & He).
    destruct (termCandidate_inv Date_parse today _ _ _ _ Hpt)
      as (_ & state & district & s & e & Hst & Hd & _ & _ & Hkey & _).
    destruct (entryOf_shape _ _ He) as (name & party & phone & url & bio & -> & _).
    rewrite get_opt_obj. change (field _ "raw_term") with (term chosen).
    split; [now apply houseTerms_rep with (p := person chosen)|].
    now exists state, district.
Qed.

(** X15.  A reload of a roster the builder can walk, whose name parts
    and House terms have the texts it prints, answers 200 with the
    number of distinct keys of the House terms of the roster, publishes
    an index with those keys in the order the roster first shows them,
    and adds one line with that number to the console.  A reload of a
    roster with a House term whose state, district, start or end has no
    text answers 500 and leaves the process as it was. *)
Theorem reload_reports_entries (file : Result string) (today : Z) (st : Process)
    (raw : string) (docs : JsVal) (persons : list JsVal) :
  file = Ok raw ->
  yaml_load raw = Ok docs ->
  iter "docs" docs = Ok persons ->
  (forallb personSound persons = true ->
   exists all st',
     fileAll Date_parse today persons = Ok all /\
     let keys := distinctKeys (map fst all) in
     let n := Z.of_nat (List.length keys) in
     adminReload Date_parse yaml_load LEG_FILE file today st =
       (Status 200 (VObj [("ok", VBool true); ("entries", VNum (Num n))]), st') /\
     map fst (INDEX st') = keys /\
     console st' =
       (console st ++ [("Indexed " ++ NumToString (Num n)
                        ++ " state/district entries from " ++ LEG_FILE)%string])%list) /\
  (forall p t, In p persons -> In t (houseTerms p) -> termSound t = false ->
   exists err,
     adminReload Date_parse yaml_load LEG_FILE file today st =
       (Status 500 (errorBody err), st)).
Proof.
  intros -> Hy Hiter. split.
  - intros Hok.
    destruct (buildIndex_completes Date_parse today docs persons Hiter Hok)
      as (byKey & outIndex & Hc & Hb).
    destruct (index_keys Date_parse today docs persons outIndex Hiter Hb)
      as ((all & Hall & Hkeys) & _).
    exists all.
    assert (Hn : Z.of_nat (List.length outIndex)
                 = Z.of_nat (List.length (distinctKeys (map fst all)))).
    { rewrite <- Hkeys. now rewrite length_map. }
    unfold adminReload, loadIndex, bindM, lift, set_INDEX, get_INDEX, console_log.
    rewrite Hy. unfold buildIndex in Hb. rewrite Hc in Hb.
    cbn [bind] in Hb. rewrite Hc, Hb. cbn [INDEX console]. rewrite Hn.
    eexists. split; [exact Hall|]. cbv zeta.
    split; [reflexivity|]. split; [exact Hkeys|reflexivity].
  - intros p t Hp Ht Hs.
    destruct (buildIndex_unsound Date_parse today docs persons p t Hiter Hp Ht Hs)
      as [err Hb].
    destruct (loadIndex Date_parse yaml_load LEG_FILE (Ok raw) today st)
      as [[[]|err'] st'] eqn:Hl.
    + destruct (loadIndex_publishes Date_parse today yaml_load LEG_FILE _ st st' Hl)
        as (raw' & docs' & [= <-] & Hy' & Hb').
      rewrite Hy in Hy'. injection Hy' as <-. congruence.
    + pose proof (loadIndex_throws Date_parse today yaml_load LEG_FILE _ st st' err' Hl)
        as ->.
      exists err'. unfold adminReload. now rewrite Hl.
Qed.

End LifeFacts.

Lemma serving_index_is_built_witness :
  let boot := startup IsoDate.parse (fun _ => Ok Samples.roster) "legislators-current.yaml"
                true (Ok "roster text") Samples.today "3000" in
  exists st0,
    boot = Listening st0 /\
    let st1 := snd (adminReload IsoDate.parse (fun _ => Ok Samples.roster)
                      "legislators-current.yaml" (Throw "ENOENT: no such file")
                      Samples.today st0) in
    map fst (INDEX st1) = ["CA-12"; "undefined-5"; "TX-7"] /\
    NoDup (map fst (INDEX st1)).
Proof.
  cbv zeta. eexists. split; [vm_compute; reflexivity|]. split; [reflexivity|].
  match goal with
  | |- NoDup (map fst (INDEX (snd (adminReload _ _ _ ?f ?t ?st)))) =>
      apply (serving_index_is_built IsoDate.parse (fun _ => Ok Samples.roster)
               "legislators-current.yaml" (snd (adminReload IsoDate.parse
                  (fun _ => Ok Samples.roster) "legislators-current.yaml" f t st)));
      apply Serving_reload;
      apply (Serving_start IsoDate.parse (fun _ => Ok Samples.roster)
               "legislators-current.yaml" true (Ok "roster text") Samples.today "3000")
  end.
  vm_compute. reflexivity.
Defined.

Lemma reload_reports_entries_witness :
  iter "docs" Samples.roster = Ok [Samples.jane; Samples.malformed] /\
  forallb personSound [Samples.jane; Samples.malformed] = true /\
  (exists st',
     adminReload IsoDate.parse (fun _ => Ok Samples.roster) "legislators-current.yaml"
       (Ok "roster text") Samples.today Samples.running =
       (Status 200 (VObj [("ok", VBool true); ("entries", VNum (Num 3))]), st') /\
     map fst (INDEX st') = ["CA-12"; "undefined-5"; "TX-7"]) /\
  exists err,
    adminReload IsoDate.parse (fun _ => Ok (VArr [Samples.jane; Samples.veiled]))
      "legislators-current.yaml" (Ok "roster text") Samples.today Samples.running =
      (Status 500 (errorBody err), Samples.running).
Proof.
  split; [reflexivity|]. split; [reflexivity|]. split.
  - destruct (proj1 (reload_reports_entries IsoDate.parse (fun _ => Ok Samples.roster)
                "legislators-current.yaml" (Ok "roster text") Samples.today Samples.running
                "roster text" Samples.roster [Samples.jane; Samples.malformed]
                eq_refl eq_refl eq_refl) eq_refl) as (all & st' & Hall & Hr & Hk & _).
    assert (E : distinctKeys (map fst all) = ["CA-12"; "undefined-5"; "TX-7"]).
    { vm_compute in Hall. injection Hall as <-. reflexivity. }
    cbv zeta in Hr, Hk. rewrite E in Hr, Hk. exists st'. split; [exact Hr|exact Hk].
  - apply (proj2 (reload_reports_entries IsoDate.parse
                    (fun _ => Ok (VArr [Samples.jane; Samples.veiled]))
                    "legislators-current.yaml" (Ok "roster text") Samples.today
                    Samples.running "roster text" (VArr [Samples.jane; Samples.veiled])
                    [Samples.jane; Samples.veiled] eq_refl eq_refl eq_refl)
             Samples.veiled
             (VObj [("type", VStr "rep"); ("state", Samples.textless);
                    ("district", VNum (Num 2))])).
    + right. now left.
    + now left.
    + reflexivity.
Defined.
